(** * Email analyzer: parsing, validation, classification, routing

    A shallow embedding of the analysis-to-routing pipeline of the
    email-analyzer extension:

    - [parseEmail] (src/extension.ts): header, body and attachment
      extraction with the three regular expressions of the source;
    - [ChatCommandHandler] (src/chat/chatCommandHandler.ts): the field
      validator, the ticket classifier, the ticket builders and
      submitters, the human-review queue and the single and bulk
      orchestrators;
    - [analyzeEmail] in its two versions, [displayAnalysis] and the
      commands of the extension, [Logger], and the generator of test
      emails.

    JavaScript strings are sequences of UTF-16 code units, modelled as
    [list N].  An object built by the parser is the list of its
    properties in the order of their creation.  The review queue, its
    snapshots and their items are objects on a heap ([gmap loc _]), and
    an array holds references to its items.  External commands (the chat
    provider, the ticket systems, the file system) are an oracle over
    the history of calls.  The analysis is what [JSON.parse] returns: a
    property of it may be missing, [null], or a value that is not of its
    declared type.

    [Logger] writes to an output channel and to a file and throws when
    it was not initialised or cannot write.  The call at the entry of the
    public method [handleChatCommand] is an oracle that may throw.  The
    calls inside the private methods are left out: they are reached only
    after the call at the entry has returned, and a logger that fails
    later in the same run is not modelled.  The notification of
    [addToHumanReviewQueue] is left out as well. *)

From stdpp Require Import gmap list strings pretty.
From Stdlib Require Import NArith Lia.

Open Scope N_scope.

(** ** JavaScript strings *)

Abbreviation jsstring := (list N).

(** Source literals are written here as UTF-8 text; [js] turns one into
    the code units that the JavaScript string holds. *)
Fixpoint utf8Decode (bytes : list N) : list N :=
  match bytes with
  | [] => []
  | b0 :: t0 =>
      if b0 <? 0x80 then b0 :: utf8Decode t0
      else match t0 with
      | [] => [0xFFFD]
      | b1 :: t1 =>
          if b0 <? 0xE0
          then ((b0 mod 0x20) * 0x40 + b1 mod 0x40) :: utf8Decode t1
          else match t1 with
          | [] => [0xFFFD]
          | b2 :: t2 =>
              if b0 <? 0xF0
              then ((b0 mod 0x10) * 0x1000 + (b1 mod 0x40) * 0x40
                    + b2 mod 0x40) :: utf8Decode t2
              else match t2 with
              | [] => [0xFFFD]
              | b3 :: t3 =>
                  ((b0 mod 0x08) * 0x40000 + (b1 mod 0x40) * 0x1000
                   + (b2 mod 0x40) * 0x40 + b3 mod 0x40) :: utf8Decode t3
              end
          end
      end
  end.

Definition utf16Units (cp : N) : list N :=
  if cp <? 0x10000 then [cp]
  else [0xD800 + (cp - 0x10000) / 0x400; 0xDC00 + (cp - 0x10000) mod 0x400].

Definition js (s : string) : jsstring :=
  List.concat
    (List.map utf16Units
       (utf8Decode (List.map Ascii.N_of_ascii (String.list_ascii_of_string s)))).

Arguments js : simpl never.

(** A literal is read once, where it is written. *)
Notation "'str' s" :=
  (ltac:(let v := eval vm_compute in (js s%string) in exact v))
  (at level 10, s at level 9, only parsing).

Module JsString.

(** [a === b] on strings. *)
Fixpoint eqb (a b : jsstring) : bool :=
  match a, b with
  | [], [] => true
  | x :: a', y :: b' => (x =? y) && eqb a' b'
  | _, _ => false
  end.

(** [s.startsWith(p)] *)
Fixpoint startsWith (p s : jsstring) : bool :=
  match p, s with
  | [], _ => true
  | x :: p', y :: s' => (x =? y) && startsWith p' s'
  | _ :: _, [] => false
  end.

(** [hay.includes(needle)] *)
Fixpoint includes (needle hay : jsstring) : bool :=
  startsWith needle hay ||
  match hay with
  | [] => false
  | _ :: t => includes needle t
  end.

(** [String.prototype.toLowerCase]: the ASCII letters [A]..[Z], and the
    two characters outside ASCII whose lower case has an ASCII letter,
    U+212A KELVIN SIGN (to [k]) and U+0130 (to [i] and U+0307).  The
    case mapping of the other code units above U+007F is not modelled:
    such units are kept as they are. *)
Definition lowerUnit (c : N) : jsstring :=
  if (65 <=? c) && (c <=? 90) then [c + 32]
  else if c =? 0x212A then [0x6B]
  else if c =? 0x130 then [0x69; 0x307]
  else [c].

Definition toLowerCase (s : jsstring) : jsstring := List.flat_map lowerUnit s.

(** ECMAScript LineTerminator: LF, CR, LS, PS. *)
Definition isLineTerminator (c : N) : bool :=
  (c =? 10) || (c =? 13) || (c =? 0x2028) || (c =? 0x2029).

(** ECMAScript WhiteSpace and LineTerminator, the class [\s] and the
    characters removed by [trim]. *)
Definition isSpace (c : N) : bool :=
  (c =? 9) || (c =? 10) || (c =? 11) || (c =? 12) || (c =? 13) ||
  (c =? 32) || (c =? 0xA0) || (c =? 0x1680) ||
  ((0x2000 <=? c) && (c <=? 0x200A)) ||
  (c =? 0x2028) || (c =? 0x2029) || (c =? 0x202F) || (c =? 0x205F) ||
  (c =? 0x3000) || (c =? 0xFEFF).

Fixpoint trimStart (s : jsstring) : jsstring :=
  match s with
  | c :: t => if isSpace c then trimStart t else s
  | [] => []
  end.

Definition trimEnd (s : jsstring) : jsstring := rev (trimStart (rev s)).

(** [s.trim()] *)
Definition trim (s : jsstring) : jsstring := trimEnd (trimStart s).

(** [s.split(sep)] for a non-empty separator: [skip] counts the code
    units of a separator occurrence still to be passed over, [cur] is
    the current piece, reversed. *)
Fixpoint splitGo (sep s : jsstring) (skip : nat) (cur : jsstring)
  : list jsstring :=
  match s with
  | [] => [rev cur]
  | c :: t =>
      match skip with
      | S k => splitGo sep t k cur
      | O =>
          if startsWith sep s
          then rev cur :: splitGo sep t (length sep - 1) []
          else splitGo sep t O (c :: cur)
      end
  end.

Definition split (sep s : jsstring) : list jsstring := splitGo sep s O [].

(** [parts.join(sep)] *)
Fixpoint join (sep : jsstring) (parts : list jsstring) : jsstring :=
  match parts with
  | [] => []
  | [p] => p
  | p :: rest => p ++ sep ++ join sep rest
  end.

(** [s.replace(pat, rep)] with a string pattern: the first occurrence
    only. *)
Fixpoint replaceFirst (pat rep s : jsstring) : jsstring :=
  if startsWith pat s then rep ++ drop (length pat) s
  else match s with
       | [] => []
       | c :: t => c :: replaceFirst pat rep t
       end.

(** [sep.repeat(n)] *)
Fixpoint repeat (s : jsstring) (n : nat) : jsstring :=
  match n with
  | O => []
  | S k => s ++ repeat s k
  end.

(** Decimal rendering of a number in a template literal. *)
Definition ofNat (n : nat) : jsstring := js (pretty n).

End JsString.

Import JsString.


(** ** Data model (src/types/emailTypes.ts, src/types/chatTypes.ts) *)

(** A property, declared as a string, of an object obtained from
    [JSON.parse].  At run time the property may be missing
    ([undefined]), [null], or a value of another type: a number, a
    boolean, an array or an object, of which the handler uses the text in
    a template literal and the truthiness. *)
Inductive field :=
| Absent
| Null
| Str (s : jsstring)
| Other (text : jsstring) (isTruthy : bool).

(** Truthiness, as tested by [!x] and [x || d]. *)
Definition truthy (f : field) : bool :=
  match f with
  | Str (_ :: _) => true
  | Other _ isTruthy => isTruthy
  | _ => false
  end.

(** [`${x}`] *)
Definition show (f : field) : jsstring :=
  match f with
  | Absent => str "undefined"
  | Null => str "null"
  | Str s => s
  | Other text _ => text
  end.

(** [x || d] where [d] is a string. *)
Definition orElse (f : field) (d : jsstring) : field :=
  if truthy f then f else Str d.

(** An object built by an object literal or a spread: its own
    properties, each key once, in the order in which they were created.
    ([JSON.stringify] and [Object.entries] list the keys that are array
    indices first and the others in this order.) *)
Record JsObject (V : Type) := Object { properties : list (jsstring * V) }.
Arguments Object {V} properties.
Arguments properties {V} _.

(** [obj[key]], [None] when [obj] has no such property. *)
Fixpoint getIn {V} (key : jsstring) (props : list (jsstring * V)) : option V :=
  match props with
  | [] => None
  | (k, v) :: rest => if JsString.eqb k key then Some v else getIn key rest
  end.

(** The definition of a property: the value of an existing property is
    replaced, where it stands; a new property comes last. *)
Fixpoint setIn {V} (key : jsstring) (value : V) (props : list (jsstring * V))
  : list (jsstring * V) :=
  match props with
  | [] => [(key, value)]
  | (k, v) :: rest =>
      if JsString.eqb k key then (k, value) :: rest
      else (k, v) :: setIn key value rest
  end.

#[export] Instance object_lookup {V} : Lookup jsstring V (JsObject V) :=
  fun key obj => getIn key (properties obj).

Record EmailAttachment := {
  filename : jsstring;
  contentType : jsstring;
  att_content : jsstring;
  (** [parsedContent?: any]: an object from column header to the first
      value of the line, which is [undefined] on a line without comma. *)
  parsedContent : option (JsObject (option jsstring));
  extractedText : option jsstring
}.

(** A property declared as an array of strings, of an object obtained
    from [JSON.parse]: missing, [null], an array, with its elements as a
    template literal shows them, or a value of another type, which has
    no method [map]. *)
Inductive arrayField :=
| MissingArray
| NullArray
| ArrayOf (items : list jsstring)
| NotAnArray.

(** A property declared as an object, of an object obtained from
    [JSON.parse]: missing, [null], or another value, with its entries as
    [Object.entries] lists them and each value as a template literal
    shows it. *)
Inductive objectField :=
| MissingObject
| NullObject
| ObjectWith (entries : list (jsstring * jsstring)).

Record EmailHeader := {
  hdr_subject : jsstring;
  hdr_from : option jsstring;
  hdr_to : option jsstring;
  hdr_date : option jsstring
}.

Record ParsedEmail := {
  headers : EmailHeader;
  body : option jsstring;
  attachments : list EmailAttachment
}.

Record EmailAnalysis := {
  requestType : field;
  priority : field;
  keyPoints : arrayField;
  actionItems : arrayField;
  accountNumber : field;
  customerId : field;
  subject : field;
  content : field;
  additionalFields : objectField;
  an_attachments : list EmailAttachment
}.

(** [JiraTicket] and [ServiceNowTicket] have the same shape; [type] is the
    second half of the classifier's result. *)
Record Ticket := {
  tk_type : option jsstring;
  tk_title : field;
  tk_description : field;
  tk_priority : field;
  tk_accountNumber : field;
  tk_customerId : field;
  tk_attachments : list EmailAttachment
}.

Record ChatRequest := {
  command : jsstring;
  participants : list jsstring;
  prompt : option jsstring
}.

Record HumanReviewItem := {
  reason : jsstring;
  emailContent : jsstring;
  missingFields : list jsstring;
  partialAnalysis : option EmailAnalysis
}.

(** ** Exceptions *)

(** A thrown value: an [Error] with its message, or anything else (the
    handlers print ['Unknown error'] for it). *)
Inductive Thrown :=
| ErrorObj (message : jsstring)
| NonError.

Inductive Result (A : Type) :=
| Ok (a : A)
| Throw (e : Thrown).
Arguments Ok {A} a.
Arguments Throw {A} e.

(** [error instanceof Error ? error.message : 'Unknown error'] *)
Definition errorMessage (e : Thrown) : jsstring :=
  match e with
  | ErrorObj m => m
  | NonError => str "Unknown error"
  end.

(** ** FieldValidator and TicketClassifier (ChatCommandHandler) *)

(** [if (c) { arr.push(x) }] *)
Definition pushIf {A} (c : bool) (x : A) (arr : list A) : list A :=
  if c then arr ++ [x] else arr.

Definition validateRequiredFields (analysis : EmailAnalysis) : list jsstring :=
  let missingFields := [] in
  let missingFields :=
    pushIf (negb (truthy analysis.(requestType)))
           (str "Request Type") missingFields in
  let missingFields :=
    pushIf (negb (truthy analysis.(priority)))
           (str "Priority") missingFields in
  let missingFields :=
    pushIf (negb (truthy analysis.(accountNumber)) &&
            negb (truthy analysis.(customerId)))
           (str "Account Number/Customer ID") missingFields in
  let missingFields :=
    pushIf (negb (truthy analysis.(subject)))
           (str "Subject") missingFields in
  missingFields.

(** [x?.toLowerCase() || ''], when [toLowerCase] can be called: [x] is a
    string, or it is [null] or [undefined], which [?.] passes over.  A
    value of another type has no method [toLowerCase]. *)
Definition lowered (f : field) : option jsstring :=
  match f with
  | Str s => Some (toLowerCase s)
  | Absent | Null => Some []
  | Other _ _ => None
  end.

(** The [TypeError] of a call of something that is not a function; the
    text is V8's, with the callee as the source has it. *)
Definition notAFunction (callee : jsstring) : Thrown :=
  ErrorObj (callee ++ str " is not a function").

(** The rule chain of [classifyTicketType], lines 190 to 210. *)
Definition ruleChain (content subject requestType : jsstring) : jsstring :=
  if eqb requestType (str "bug report") || includes (str "bug") content
     || includes (str "crash") content
  then str "jira-bug"
  else if eqb requestType (str "feature request")
          || includes (str "feature") content
          || includes (str "feature") subject
  then str "jira-feature"
  else if includes (str "epic") content || includes (str "epic") subject
  then str "jira-epic"
  else if includes (str "story") content || includes (str "story") subject
  then str "jira-story"
  else if includes (str "task") content || includes (str "task") subject
  then str "jira-task"
  else if eqb requestType (str "support request")
          || includes (str "incident") content
          || includes (str "error") content
          || includes (str "broken") content
          || includes (str "trouble") content
          || includes (str "not working") content
          || includes (str "reset") content
  then str "servicenow-incident"
  else str "servicenow-request".

Definition classifyTicketType (analysis : EmailAnalysis) : Result jsstring :=
  match lowered analysis.(content) with
  | None => Throw (notAFunction (str "analysis.content?.toLowerCase"))
  | Some content =>
      match lowered analysis.(subject) with
      | None => Throw (notAFunction (str "analysis.subject?.toLowerCase"))
      | Some subject =>
          match lowered analysis.(requestType) with
          | None =>
              Throw (notAFunction (str "analysis.requestType?.toLowerCase"))
          | Some requestType => Ok (ruleChain content subject requestType)
          end
      end
  end.

Definition createJiraTicket (analysis : EmailAnalysis) (type : option jsstring)
  : Ticket :=
  {| tk_type := type;
     tk_title := orElse analysis.(subject) (str "No Subject");
     tk_description := analysis.(content);
     tk_priority := analysis.(priority);
     tk_accountNumber := analysis.(accountNumber);
     tk_customerId := analysis.(customerId);
     tk_attachments := analysis.(an_attachments) |}.

Definition createServiceNowTicket (analysis : EmailAnalysis)
  (type : option jsstring) : Ticket :=
  {| tk_type := type;
     tk_title := orElse analysis.(subject) (str "No Subject");
     tk_description := analysis.(content);
     tk_priority := analysis.(priority);
     tk_accountNumber := analysis.(accountNumber);
     tk_customerId := analysis.(customerId);
     tk_attachments := analysis.(an_attachments) |}.

(** ** Regular expressions

    A backtracking matcher with the priorities of ECMAScript: a greedy
    quantifier tries one more iteration before it tries the rest of the
    pattern, a lazy one the other way round; an iteration of a star that
    consumes nothing is rejected.  Only the constructs of the three
    patterns of [parseEmail] are present. *)

Module Regex.

Inductive re :=
| Eps
| Chr (p : N -> bool)            (* one code unit of a class *)
| Seq (a b : re)
| Alt (a b : re)
| Star (greedy : bool) (a : re)  (* [a*] and [a*?] *)
| Group (i : nat) (a : re)       (* the [i]-th capturing group *)
| LineStart                      (* [^] under the [m] flag *)
| LineEnd.                       (* [$] under the [m] flag *)

(** [a+], [a?] and a literal text. *)
Definition Plus (a : re) : re := Seq a (Star true a).
Definition Opt (a : re) : re := Alt a Eps.
Definition Lit (s : jsstring) : re :=
  foldr (fun c r => Seq (Chr (N.eqb c)) r) Eps s.

(** The position of the matcher: the input before it, reversed, and the
    input after it. *)
Record cursor := Cursor { before : jsstring; rest : jsstring }.

Definition captures := list (nat * jsstring).

(** The input consumed between two positions. *)
Definition consumed (c c' : cursor) : jsstring :=
  take (length (rest c) - length (rest c')) (rest c).

Definition atLineStart (c : cursor) : bool :=
  match before c with
  | [] => true
  | x :: _ => isLineTerminator x
  end.

Definition atLineEnd (c : cursor) : bool :=
  match rest c with
  | [] => true
  | x :: _ => isLineTerminator x
  end.

Section Matcher.
Context {R : Type}.

Fixpoint run (r : re) (c : cursor) (caps : captures)
  (k : cursor -> captures -> option R) {struct r} : option R :=
  match r with
  | Eps => k c caps
  | Chr p =>
      match rest c with
      | x :: t => if p x then k (Cursor (x :: before c) t) caps else None
      | [] => None
      end
  | Seq a b => run a c caps (fun c' caps' => run b c' caps' k)
  | Alt a b =>
      match run a c caps k with
      | Some res => Some res
      | None => run b c caps k
      end
  | Star greedy a =>
      (fix loop (n : nat) (c : cursor) (caps : captures) : option R :=
         match n with
         | O => k c caps
         | S n' =>
             if greedy
             then match run a c caps (fun c' caps' =>
                          if (length (rest c') <? length (rest c))%nat
                          then loop n' c' caps' else None) with
                  | Some res => Some res
                  | None => k c caps
                  end
             else match k c caps with
                  | Some res => Some res
                  | None =>
                      run a c caps (fun c' caps' =>
                        if (length (rest c') <? length (rest c))%nat
                        then loop n' c' caps' else None)
                  end
         end) (length (rest c)) c caps
  | Group i a =>
      run a c caps (fun c' caps' => k c' ((i, consumed c c') :: caps'))
  | LineStart => if atLineStart c then k c caps else None
  | LineEnd => if atLineEnd c then k c caps else None
  end.
End Matcher.

(** One attempt at a position: the end of the match and the groups. *)
Definition exec (r : re) (c : cursor) : option (cursor * captures) :=
  run r c [] (fun c' caps => Some (c', caps)).

(** A match: the matched text, then the groups. *)
Record Match := { matched : jsstring; groups : captures }.

Definition group (i : nat) (m : Match) : option jsstring :=
  snd <$> List.find (fun g => Nat.eqb (fst g) i) (groups m).

(** The scan of a global pattern from left to right: at each position
    either a match starts (and the scan resumes at its end, one unit
    further after an empty match) or the unit is passed over.  [skip]
    counts the units of the last match still to be passed. *)
Fixpoint scan (r : re) (before rest : jsstring) (skip : nat)
  : list (N + Match) :=
  match skip with
  | S k =>
      match rest with
      | [] => []
      | x :: t => scan r (x :: before) t k
      end
  | O =>
      match exec r (Cursor before rest) with
      | Some (c', caps) =>
          let m := {| matched := consumed (Cursor before rest) c';
                      groups := caps |} in
          inr m ::
          match rest with
          | [] => []
          | x :: t =>
              match length (matched m) with
              | O => inl x :: scan r (x :: before) t O
              | S n => scan r (x :: before) t n
              end
          end
      | None =>
          match rest with
          | [] => []
          | x :: t => inl x :: scan r (x :: before) t O
          end
      end
  end.

(** The matches in the result of a scan. *)
Definition hits (items : list (N + Match)) : list Match :=
  omap (fun i => match i with inr m => Some m | inl _ => None end) items.

(** [s.matchAll(r)] *)
Definition matchAll (r : re) (s : jsstring) : list Match :=
  hits (scan r [] s O).

(** [s.replace(r, rep)] for a global pattern and a fixed replacement. *)
Definition replaceAll (r : re) (rep : jsstring) (s : jsstring) : jsstring :=
  List.concat
    (List.map (fun i => match i with inr _ => rep | inl x => [x] end)
              (scan r [] s O)).

End Regex.

Import Regex.

(** ** EmailParser and AttachmentDecoder ([parseEmail], src/extension.ts) *)

Definition LF : N := 10.
Definition CR : N := 13.

(** [[A-Za-z-]] *)
Definition keyChar (c : N) : bool :=
  ((65 <=? c) && (c <=? 90)) || ((97 <=? c) && (c <=? 122)) || (c =? 45).

(** [.] without the [s] flag; with it, and for [[^]] and [[\s\S]], any
    code unit. *)
Definition dot (c : N) : bool := negb (isLineTerminator c).
Definition anyUnit (c : N) : bool := true.

(** [/^(?<key>[A-Za-z-]+):\s*(?<value>.+)$/gm]; [key] is group 1 and
    [value] group 2. *)
Definition headerRegex : re :=
  Seq LineStart
  (Seq (Group 1 (Plus (Chr keyChar)))
  (Seq (Lit (str ":"))
  (Seq (Star true (Chr isSpace))
  (Seq (Group 2 (Plus (Chr dot)))
       LineEnd)))).

(** [/--ATTACHMENT--\r?\n+Filename:\s*(.*?)\r?\n+Content-Type:\s*(.*?)\r?\n+Content:\s*([^]*?)\r?\n+--END-ATTACHMENT--/gs] *)
Definition attachmentRegex : re :=
  Seq (Lit (str "--ATTACHMENT--"))
  (Seq (Opt (Chr (N.eqb CR))) (Seq (Plus (Chr (N.eqb LF)))
  (Seq (Lit (str "Filename:")) (Seq (Star true (Chr isSpace))
  (Seq (Group 1 (Star false (Chr anyUnit)))
  (Seq (Opt (Chr (N.eqb CR))) (Seq (Plus (Chr (N.eqb LF)))
  (Seq (Lit (str "Content-Type:")) (Seq (Star true (Chr isSpace))
  (Seq (Group 2 (Star false (Chr anyUnit)))
  (Seq (Opt (Chr (N.eqb CR))) (Seq (Plus (Chr (N.eqb LF)))
  (Seq (Lit (str "Content:")) (Seq (Star true (Chr isSpace))
  (Seq (Group 3 (Star false (Chr anyUnit)))
  (Seq (Opt (Chr (N.eqb CR))) (Seq (Plus (Chr (N.eqb LF)))
       (Lit (str "--END-ATTACHMENT--"))))))))))))))))))).

(** [/--ATTACHMENT--[\s\S]*?--END-ATTACHMENT--/g] *)
Definition attachmentBlockRegex : re :=
  Seq (Lit (str "--ATTACHMENT--"))
  (Seq (Star false (Chr anyUnit))
       (Lit (str "--END-ATTACHMENT--"))).

(** The [switch (key)] of the header loop, under [if (key && value)]. *)
Definition setHeader (h : EmailHeader) (m : Match) : EmailHeader :=
  match toLowerCase <$> group 1 m, group 2 m with
  | Some (k :: key), Some (v :: value) =>
      let key := k :: key in
      let value := v :: value in
      if eqb key (str "subject") then
        {| hdr_subject := value; hdr_from := hdr_from h;
           hdr_to := hdr_to h; hdr_date := hdr_date h |}
      else if eqb key (str "from") then
        {| hdr_subject := hdr_subject h; hdr_from := Some value;
           hdr_to := hdr_to h; hdr_date := hdr_date h |}
      else if eqb key (str "to") then
        {| hdr_subject := hdr_subject h; hdr_from := hdr_from h;
           hdr_to := Some value; hdr_date := hdr_date h |}
      else if eqb key (str "date") then
        {| hdr_subject := hdr_subject h; hdr_from := hdr_from h;
           hdr_to := hdr_to h; hdr_date := Some value |}
      else h
  | _, _ => h
  end.

Definition parseHeaders (headerSection : jsstring) : EmailHeader :=
  foldl setHeader
        {| hdr_subject := []; hdr_from := None; hdr_to := None;
           hdr_date := None |}
        (matchAll headerRegex headerSection).

(** [{ ...obj, ...item }]: the properties of [obj], then those of
    [item], defined one after the other on a new object. *)
Definition spread {V} (obj item : JsObject V) : JsObject V :=
  Object (foldl (fun props p => setIn (fst p) (snd p) props)
                (properties obj) (properties item)).

(** The object built for one line of a CSV attachment:
    [{ [header.trim()]: values[0]?.trim() }]. *)
Definition csvItem (line : jsstring) : JsObject (option jsstring) :=
  let parts := split (str ",") line in
  let header := List.hd [] parts in
  let values := List.tl parts in
  Object [(trim header, trim <$> head values)].

Definition nonBlank (line : jsstring) : bool :=
  match trim line with
  | [] => false
  | _ :: _ => true
  end.

Definition parseCsv (decodedContent : jsstring)
  : JsObject (option jsstring) :=
  foldl spread (Object [])
        (List.map csvItem
                  (List.filter nonBlank (split [LF] decodedContent))).

(** The attachment object literal of the loop body. *)
Definition makeAttachment (filename contentType decodedContent : jsstring)
  : EmailAttachment :=
  {| filename := filename;
     contentType := contentType;
     att_content := decodedContent;
     parsedContent :=
       if eqb contentType (str "text/csv")
       then Some (parseCsv decodedContent) else None;
     extractedText :=
       if eqb contentType (str "application/pdf")
       then Some decodedContent else None |}.

Section Parser.

(** The decoder inside the [try] of the attachment loop.  The one of
    the source, [Buffer.from(s, 'base64').toString('utf-8')], returns for
    every text ([fromBase64] below); the parser is written for a decoder
    that may throw, and so is the parameter. *)
Variable decodeBase64 : jsstring -> Result jsstring.

(** One turn of the attachment loop: [try { ... attachments.push(..) }
    catch (err) { console.error(..) }]. *)
Definition addAttachment (attachments : list EmailAttachment) (m : Match)
  : list EmailAttachment :=
  let filename := default [] (group 1 m) in
  let contentType := default [] (group 2 m) in
  let base64Content := default [] (group 3 m) in
  match decodeBase64 (trim base64Content) with
  | Ok decodedContent =>
      attachments ++ [makeAttachment filename contentType decodedContent]
  | Throw _ => attachments
  end.

Definition parseEmail (content : jsstring) : ParsedEmail :=
  let parts := split [LF; LF] content in
  let headerSection := List.hd [] parts in
  let bodyParts := List.tl parts in
  let headers := parseHeaders headerSection in
  let bodyContent := join [LF; LF] bodyParts in
  let bodyWithoutAttachments :=
    replaceAll attachmentBlockRegex [] bodyContent in
  let attachments :=
    foldl addAttachment [] (matchAll attachmentRegex bodyContent) in
  {| headers := headers;
     body := match trim bodyWithoutAttachments with
             | [] => None
             | c :: s => Some (c :: s)
             end;
     attachments := attachments |}.

End Parser.

(** ** Effects: exceptions, the heap of arrays, external commands *)

(** A computation over a state [S] that returns or throws; the state
    reached before a [throw] is kept. *)
Definition M (S A : Type) : Type := S -> Result A * S.

Definition ret {S A} (a : A) : M S A := fun s => (Ok a, s).

Definition bind {S A B} (m : M S A) (k : A -> M S B) : M S B :=
  fun s =>
    match m s with
    | (Ok a, s') => k a s'
    | (Throw e, s') => (Throw e, s')
    end.

Definition throw {S A} (e : Thrown) : M S A := fun s => (Throw e, s).

(** [try { m } catch (error) { h error }] *)
Definition tryCatch {S A} (m : M S A) (h : Thrown -> M S A) : M S A :=
  fun s =>
    match m s with
    | (Ok a, s') => (Ok a, s')
    | (Throw e, s') => h e s'
    end.

Notation "'let*' x ':=' m 'in' k" := (bind m (fun x => k))
  (at level 10, x name, m at level 100, k at level 200).

(** The local variables [L] of a method next to the shared state [S]. *)
Definition lift {L S A} (m : M S A) : M (L * S) A :=
  fun ls => let '(r, s') := m (snd ls) in (r, (fst ls, s')).

Definition getLocals {L S} : M (L * S) L := fun ls => (Ok (fst ls), ls).

Definition setLocals {L S} (f : L -> L) : M (L * S) unit :=
  fun ls => (Ok tt, (f (fst ls), snd ls)).

Definition withLocals {L S A} (init : L) (m : M (L * S) A) : M S A :=
  fun s => let '(r, ls) := m (init, s) in (r, snd ls).

Abbreviation loc := positive.

Record Uri := { fsPath : jsstring }.

(** The external commands the handler executes. *)
Inductive Call :=
| ChatOpen (prompt : jsstring)              (* 'vscode.chat.open' *)
| JiraCreateIssue (ticket : Ticket)         (* 'jira.createIssue' *)
| ServiceNowCreateTicket (ticket : Ticket)  (* 'servicenow.createTicket' *)
| ReadFile (file : Uri)                     (* workspace.fs.readFile *)
| FindFiles.                                (* workspace.findFiles *)

(** The response of a ticket system, of which the handler reads one
    property ([key], resp. [number]): [undefined], [null], or a value with
    that property, which may be missing. *)
Inductive Response :=
| UndefinedResponse
| NullResponse
| ResponseWith (id : field).

(** What lies outside the handler.  Each command answers from the history
    of the calls made so far and its argument, and may reject.
    - [chat_open]: the provider's reply, [None] for [null]/[undefined];
    - [jira_createIssue], [servicenow_createTicket]: the response;
    - [JSON_parse]: [None] for a falsy value, else the value read as an
      [EmailAnalysis]: a property that the value does not have is
      [Absent];
    - [activeTextEditor]: the text of the document in the active editor,
      [None] without an editor;
    - [Logger_debug]: the call of [Logger.debug] with a message, which
      throws when the logger was not initialised or cannot write its
      file (src/utils/logger.ts); it is no external command and leaves
      the history as it is. *)
Record Env := {
  JSON_parse : jsstring -> Result (option EmailAnalysis);
  chat_open : list Call -> jsstring -> Result (option jsstring);
  jira_createIssue : list Call -> Ticket -> Result Response;
  servicenow_createTicket : list Call -> Ticket -> Result Response;
  fs_readFile : list Call -> Uri -> Result jsstring;
  workspace_findFiles : list Call -> Result (list Uri);
  activeTextEditor : list Call -> option jsstring;
  Logger_debug : list Call -> jsstring -> Result unit
}.

(** An object on the heap: an array, whose elements are references to
    items, or an item of the review queue. *)
Inductive HeapObject :=
| ArrayObject (elements : list loc)
| ItemObject (item : HumanReviewItem).

Abbreviation Heap := (gmap loc HeapObject).

(** The shared state: the objects on the heap and the history of
    external calls. *)
Record State := {
  heap : Heap;
  trace : list Call
}.

(** The references held by the array at [l], and the item at [l]. *)
Definition elementsOf (h : Heap) (l : loc) : list loc :=
  match h !! l with
  | Some (ArrayObject elements) => elements
  | _ => []
  end.

Definition itemAt (h : Heap) (l : loc) : option HumanReviewItem :=
  match h !! l with
  | Some (ItemObject item) => Some item
  | _ => None
  end.

(** The elements of the array at [l]: the items that it refers to. *)
Definition readArray (h : Heap) (l : loc) : list HumanReviewItem :=
  omap (itemAt h) (elementsOf h l).

(** The locations that the arrays of the heap refer to. *)
Definition referenced (h : Heap) : gset loc :=
  ⋃ ((fun o => match o with
               | ArrayObject elements => list_to_set elements
               | ItemObject _ => ∅
               end) <$> (map_to_list h).*2).

(** Any in-place change of the array at [l]: [push], [pop], [splice],
    [sort], an assignment to an index or to [length]. *)
Definition mutateArray (l : loc) (f : list loc -> list loc) (h : Heap)
  : Heap :=
  <[l := ArrayObject (f (elementsOf h l))]> h.

(** Any in-place change of the item at [l]: an assignment to one of its
    properties, a [push] to its [missingFields]. *)
Definition mutateItem (l : loc) (f : HumanReviewItem -> HumanReviewItem)
  (h : Heap) : Heap :=
  match itemAt h l with
  | Some item => <[l := ItemObject (f item)]> h
  | None => h
  end.

(** An array literal or spread: a new array object, at a location that
    is not in use. *)
Definition allocArray (elements : list loc) : M State loc :=
  fun st =>
    let l := fresh (dom (heap st) ∪ referenced (heap st)) in
    (Ok l, {| heap := <[l := ArrayObject elements]> (heap st);
              trace := trace st |}).

(** [array.push({ ... })] for the array at [l]: the object literal is a
    new item object, at a location that is not in use and is not the
    array's own, and the array gets a reference to it as its last
    element. *)
Definition pushedAt (l : loc) (h : Heap) : loc :=
  fresh (dom h ∪ referenced h ∪ {[l]}).

Definition pushed (l : loc) (item : HumanReviewItem) (h : Heap) : Heap :=
  let o := pushedAt l h in
  <[l := ArrayObject (elementsOf h l ++ [o])]> (<[o := ItemObject item]> h).

Definition pushArray (l : loc) (item : HumanReviewItem) : M State unit :=
  fun st =>
    (Ok tt, {| heap := pushed l item (heap st); trace := trace st |}).

Definition external {A} (c : Call) (answer : list Call -> Result A)
  : M State A :=
  fun st => (answer (trace st),
             {| heap := heap st; trace := trace st ++ [c] |}).

(** [TypeError] of reading a property of [undefined] or of [null]; the
    text is V8's. *)
Definition propertyOfUndefined (name : jsstring) : Thrown :=
  ErrorObj (str "Cannot read properties of undefined (reading '"
            ++ name ++ str "')").

Definition propertyOfNull (name : jsstring) : Thrown :=
  ErrorObj (str "Cannot read properties of null (reading '"
            ++ name ++ str "')").

(** ** ChatCommandHandler *)

(** The handler object: its [humanReviewQueue] field names an array. *)
Record ChatCommandHandler := { humanReviewQueue : loc }.

(** [new ChatCommandHandler()] *)
Definition newChatCommandHandler : M State ChatCommandHandler :=
  let* q := allocArray [] in
  ret {| humanReviewQueue := q |}.

Section Handler.

Variable env : Env.
Variable this : ChatCommandHandler.

Definition addToHumanReviewQueue (item : HumanReviewItem) : M State unit :=
  pushArray (humanReviewQueue this) item.

(** [return [...this.humanReviewQueue]]: a new array with the elements
    of the queue, which are references to its items. *)
Definition getHumanReviewQueue : M State loc :=
  fun st => allocArray (elementsOf (heap st) (humanReviewQueue this)) st.

Definition submitJiraTicket (ticket : Ticket) : M State jsstring :=
  tryCatch
    (let* response :=
       external (JiraCreateIssue ticket) (fun t => jira_createIssue env t ticket) in
     match response with
     | ResponseWith key => ret (str "Jira ticket created: " ++ show key)
     | UndefinedResponse => throw (propertyOfUndefined (str "key"))
     | NullResponse => throw (propertyOfNull (str "key"))
     end)
    (fun error =>
       throw (ErrorObj (str "Failed to create Jira ticket: "
                        ++ errorMessage error))).

Definition submitServiceNowTicket (ticket : Ticket) : M State jsstring :=
  tryCatch
    (let* response :=
       external (ServiceNowCreateTicket ticket)
                (fun t => servicenow_createTicket env t ticket) in
     match response with
     | ResponseWith number =>
         ret (str "ServiceNow incident created: " ++ show number)
     | UndefinedResponse => throw (propertyOfUndefined (str "number"))
     | NullResponse => throw (propertyOfNull (str "number"))
     end)
    (fun error =>
       throw (ErrorObj (str "Failed to create ServiceNow ticket: "
                        ++ errorMessage error))).

(** [appendProgress]: the progress lines are the method's local array. *)
Definition appendProgress {L} (message : jsstring)
  : M (list jsstring * L) unit :=
  setLocals (fun progressMessages => progressMessages ++ [message]).

Definition joinedProgress {L} : M (list jsstring * L) jsstring :=
  let* progressMessages := getLocals in
  ret (join [LF] progressMessages).

(** [x.split(sep)[1]] in a template literal. *)
Definition second (sep s : jsstring) : option jsstring :=
  split sep s !! 1%nat.

Definition showOpt (o : option jsstring) : jsstring :=
  match o with
  | Some s => s
  | None => str "undefined"
  end.

Definition handleSingleEmailAnalysis (emailContent : jsstring)
  : M State jsstring :=
  withLocals []
    (let* _ := appendProgress (str "🔍 Starting email analysis...") in
     let* _ := appendProgress (str "📧 Extracting email data and context...") in
     let* chatResult :=
       lift (external (ChatOpen emailContent)
                      (fun t => chat_open env t emailContent)) in
     let isEmptyObject :=
       match chatResult with
       | Some s => eqb s (str "{}")
       | None => false
       end in
     let* analysis :=
       match chatResult with
       | Some (c :: s) =>
           if negb isEmptyObject
           then fun ls => (JSON_parse env (c :: s), ls)
           else ret None
       | _ => ret None
       end in
     match analysis, isEmptyObject with
     | Some analysis, false =>
         let* _ := appendProgress
           (str "✅ Email data extracted successfully:" ++ [LF]
            ++ str "- Subject: " ++ show analysis.(subject) ++ [LF]
            ++ str "- Priority: " ++ show analysis.(priority) ++ [LF]
            ++ str "- Type: " ++ show analysis.(requestType)) in
         let* _ := appendProgress (str "🔍 Validating required fields...") in
         let missingFields := validateRequiredFields analysis in
         match missingFields with
         | _ :: _ =>
             let* _ := appendProgress
               (str "⚠️ Missing required fields: "
                ++ join (str ", ") missingFields) in
             let* _ := lift (addToHumanReviewQueue
               {| reason := str "Missing required fields";
                  emailContent := emailContent;
                  missingFields := missingFields;
                  partialAnalysis := Some analysis |}) in
             let* _ := appendProgress
               (str "👤 Email has been queued for human review") in
             joinedProgress
         | [] =>
             let* _ := appendProgress (str "✅ All required fields validated") in
             let* _ := appendProgress (str "🔄 Classifying request type...") in
             let* ticketType := fun ls => (classifyTicketType analysis, ls) in
             let* returned :=
               tryCatch
                 (if startsWith (str "jira-") ticketType then
                    let* _ := appendProgress
                      (str "📋 Creating Jira "
                       ++ showOpt (second (str "-") ticketType)
                       ++ str " ticket...") in
                    let jiraTicket :=
                      createJiraTicket analysis (second (str "-") ticketType) in
                    let* result := lift (submitJiraTicket jiraTicket) in
                    let* _ := appendProgress
                      (str "✅ Jira ticket created successfully!") in
                    let* _ := appendProgress
                      ([LF] ++ str "Ticket Details:" ++ [LF]
                       ++ str "🎫 Type: Jira "
                       ++ showOpt (second (str "-") ticketType) ++ [LF]
                       ++ str "📝 Subject: " ++ show analysis.(subject) ++ [LF]
                       ++ str "🔑 ID: " ++ showOpt (second (str ": ") result)
                       ++ [LF]
                       ++ str "📊 Priority: " ++ show analysis.(priority)) in
                    let* out := joinedProgress in
                    ret (Some out)
                  else if startsWith (str "servicenow-") ticketType then
                    let type := second (str "-") ticketType in
                    let* _ := appendProgress
                      (str "📋 Creating ServiceNow " ++ showOpt type
                       ++ str "...") in
                    let snowTicket := createServiceNowTicket analysis type in
                    let* result :=
                      if eqb ticketType (str "servicenow-incident")
                      then lift (submitServiceNowTicket snowTicket)
                      else
                        let* r := lift (submitServiceNowTicket snowTicket) in
                        ret (replaceFirst (str "incident") (str "ticket") r) in
                    let* _ := appendProgress
                      (str "✅ ServiceNow ticket created successfully!") in
                    let* _ := appendProgress
                      ([LF] ++ str "Ticket Details:" ++ [LF]
                       ++ str "🎫 Type: ServiceNow " ++ showOpt type ++ [LF]
                       ++ str "📝 Subject: " ++ show analysis.(subject) ++ [LF]
                       ++ str "🔑 ID: " ++ showOpt (second (str ": ") result)
                       ++ [LF]
                       ++ str "📊 Priority: " ++ show analysis.(priority)) in
                    let* out := joinedProgress in
                    ret (Some out)
                  else ret None)
                 (fun error =>
                    let* _ := appendProgress
                      (str "❌ Error creating ticket: " ++ errorMessage error) in
                    let* out := joinedProgress in
                    ret (Some out)) in
             match returned with
             | Some out => ret out
             | None =>
                 let* _ := appendProgress
                   (str "⚠️ Email analysis complete, but no ticket was created") in
                 joinedProgress
             end
         end
     | _, _ =>
         let* _ := appendProgress
           (str "⚠️ Analysis failed - Unable to extract email data") in
         let* _ := lift (addToHumanReviewQueue
           {| reason := str "Unable to analyze email";
              emailContent := emailContent;
              missingFields := [str "Analysis Failed"];
              partialAnalysis := None |}) in
         let* _ := appendProgress
           (str "👤 Email has been queued for human review") in
         joinedProgress
     end).

(** An entry of [results]: [{ file: file.fsPath, result }]. *)
Record BulkEntry := { be_file : jsstring; be_result : jsstring }.

Definition createdSuccessfully (r : BulkEntry) : bool :=
  includes (str "created successfully") (be_result r).

(** The body of the [for] loop of [handleBulkAnalysis]; the locals are
    [progressMessages], then [results]. *)
Definition processFile (total i : nat) (file : Uri)
  : M (list jsstring * (list BulkEntry * State)) unit :=
  let* _ := appendProgress
    ([LF] ++ str "📧 Processing email " ++ ofNat (i + 1) ++ str " of "
     ++ ofNat total ++ str "...") in
  let* _ := appendProgress (str "📁 File: " ++ fsPath file) in
  tryCatch
    (let* content :=
       lift (lift (external (ReadFile file)
                            (fun t => fs_readFile env t file))) in
     let* result := lift (lift (handleSingleEmailAnalysis content)) in
     let* _ := lift (setLocals (fun results =>
       results ++ [{| be_file := fsPath file; be_result := result |}])) in
     appendProgress
       (str "✅ Email processed successfully" ++ [LF]
        ++ repeat (str "─") 40))
    (fun error =>
       appendProgress
         (str "❌ Error processing email: " ++ errorMessage error ++ [LF]
          ++ repeat (str "─") 40)).

Fixpoint forFiles (total i : nat) (files : list Uri)
  : M (list jsstring * (list BulkEntry * State)) unit :=
  match files with
  | [] => ret tt
  | file :: files' =>
      let* _ := processFile total i file in
      forFiles total (S i) files'
  end.

Definition handleBulkAnalysis (files : list Uri) : M State jsstring :=
  withLocals []
    (withLocals []
       (let* _ := appendProgress
          (str "🔄 Starting bulk analysis of " ++ ofNat (length files)
           ++ str " emails..." ++ [LF]) in
        let* _ := forFiles (length files) 0 files in
        let* results := lift getLocals in
        let* _ := appendProgress
          ([LF] ++ str "📊 Summary:" ++ [LF]
           ++ str "✅ Total emails processed: " ++ ofNat (length files) ++ [LF]
           ++ str "🎫 Tickets created: "
           ++ ofNat (length (List.filter createdSuccessfully results))
           ++ [LF]
           ++ str "⚠️ Failed/Queued for review: "
           ++ ofNat (length (List.filter
                               (fun r => negb (createdSuccessfully r))
                               results))) in
        joinedProgress)).

Definition handleChatCommand (request : ChatRequest) : M State jsstring :=
  let* _ :=
    fun st =>
      (Logger_debug env (trace st)
         (str "Handling chat command: " ++ command request), st) in
  if negb (eqb (command request) (str "/start"))
  then ret (str "Unknown command. Available commands: /start")
  else
    fun st =>
      match activeTextEditor env (trace st) with
      | None => ret (str "Please open an email file first.") st
      | Some documentText =>
          tryCatch
            (let* selectedFiles :=
               external FindFiles (workspace_findFiles env) in
             if (1 <? length selectedFiles)%nat
             then handleBulkAnalysis selectedFiles
             else handleSingleEmailAnalysis documentText)
            (fun error => ret (str "Error: " ++ errorMessage error))
            st
      end.

End Handler.

(** ** The statements of the specification, in its own words *)

(** From the specification, section 4.5: the ordered rule chain over the
    lower-cased request type, subject and content; the first rule whose
    condition holds gives the category, none gives [servicenow-request]. *)
Definition rule : Type := (jsstring -> jsstring -> jsstring -> bool) * jsstring.

Definition classifierRules : list rule :=
  [ (fun requestType subject content =>
       eqb requestType (str "bug report") || includes (str "bug") content
       || includes (str "crash") content,
     str "jira-bug");
    (fun requestType subject content =>
       eqb requestType (str "feature request")
       || includes (str "feature") content || includes (str "feature") subject,
     str "jira-feature");
    (fun requestType subject content =>
       includes (str "epic") content || includes (str "epic") subject,
     str "jira-epic");
    (fun requestType subject content =>
       includes (str "story") content || includes (str "story") subject,
     str "jira-story");
    (fun requestType subject content =>
       includes (str "task") content || includes (str "task") subject,
     str "jira-task");
    (fun requestType subject content =>
       eqb requestType (str "support request")
       || existsb (fun w => includes w content)
            [ str "incident"; str "error"; str "broken"; str "trouble";
              str "not working"; str "reset" ],
     str "servicenow-incident") ].

Fixpoint firstMatch (rules : list rule) (requestType subject content : jsstring)
  : jsstring :=
  match rules with
  | [] => str "servicenow-request"
  | (condition, category) :: rules' =>
      if condition requestType subject content then category
      else firstMatch rules' requestType subject content
  end.

(** The categories the classifier can return. *)
Definition ticketTypes : list jsstring :=
  [ str "jira-bug"; str "jira-feature"; str "jira-epic"; str "jira-story";
    str "jira-task"; str "servicenow-incident"; str "servicenow-request" ].

(** A missing field replaced by the empty string. *)
Definition orEmpty (f : field) : field :=
  match f with
  | Absent | Null => Str []
  | f => f
  end.

Definition withEmptyDefaults (a : EmailAnalysis) : EmailAnalysis :=
  {| requestType := orEmpty a.(requestType);
     priority := a.(priority);
     keyPoints := a.(keyPoints);
     actionItems := a.(actionItems);
     accountNumber := a.(accountNumber);
     customerId := a.(customerId);
     subject := orEmpty a.(subject);
     content := orEmpty a.(content);
     additionalFields := a.(additionalFields);
     an_attachments := a.(an_attachments) |}.

(** A property that is a string, [null] or missing. *)
Definition isText (f : field) : bool :=
  match f with
  | Other _ _ => false
  | _ => true
  end.

Definition isMissing (f : field) : bool :=
  match f with
  | Absent | Null => true
  | _ => false
  end.

(** From the specification, section 4.4: the required fields in their
    fixed order, each with the test that it is present. *)
Definition requirements : list (jsstring * (EmailAnalysis -> bool)) :=
  [ (str "Request Type", fun a => truthy a.(requestType));
    (str "Priority", fun a => truthy a.(priority));
    (str "Account Number/Customer ID",
     fun a => truthy a.(accountNumber) || truthy a.(customerId));
    (str "Subject", fun a => truthy a.(subject)) ].

Definition unmet (a : EmailAnalysis) : list jsstring :=
  List.map fst (List.filter (fun r => negb (snd r a)) requirements).

Definition isValid (a : EmailAnalysis) : bool :=
  forallb (fun r => snd r a) requirements.

(** From the specification, section 4.1: a header block is a sequence of
    lines [Key: value].  A line is kept with the white space between the
    colon and the value; the key is made of letters and hyphens, the gap
    of white space within the line, the value starts with a character
    that is not white space and stays within the line. *)
Record HeaderLine := {
  hl_key : jsstring;
  hl_gap : jsstring;
  hl_value : jsstring
}.

Definition renderLine (l : HeaderLine) : jsstring :=
  hl_key l ++ str ":" ++ hl_gap l ++ hl_value l.

Definition renderBlock (ls : list HeaderLine) : jsstring :=
  join [LF] (List.map renderLine ls).

Definition inlineSpace (c : N) : bool := isSpace c && dot c.

Definition wellFormedLine (l : HeaderLine) : bool :=
  match hl_key l, hl_value l with
  | _ :: _, v :: _ =>
      forallb keyChar (hl_key l) && forallb inlineSpace (hl_gap l)
      && negb (isSpace v) && forallb dot (hl_value l)
  | _, _ => false
  end.

(** The value of the last line whose key is [subject] in any letter case,
    and the empty string when there is none. *)
Definition lastSubject (ls : list HeaderLine) : jsstring :=
  foldl (fun acc l =>
           if eqb (toLowerCase (hl_key l)) (str "subject")
           then hl_value l else acc)
        [] ls.

(** The match of the header pattern at the start of a well-formed line:
    the whole line, with the key and the value as written. *)
Definition lineMatch (l : HeaderLine) : Match :=
  {| matched := renderLine l;
     groups := [(2%nat, hl_value l); (1%nat, hl_key l)] |}.

(** The text after a run of a class does not go on with the class. *)
Definition stops (p : N -> bool) (post : jsstring) : Prop :=
  match post with
  | [] => True
  | x :: _ => p x = false
  end.

(** From the specification, section 4.2: the non-blank lines of a CSV
    attachment, each read as [header,value]; a later line with the same
    header overwrites the earlier one. *)
Definition csvLines (decodedContent : jsstring) : list jsstring :=
  List.filter nonBlank (split [LF] decodedContent).

Definition csvHeader (line : jsstring) : jsstring :=
  trim (List.hd [] (split (str ",") line)).

Definition csvValue (line : jsstring) : option jsstring :=
  trim <$> head (List.tl (split (str ",") line)).

Definition lastWrite (key : jsstring) (lines : list jsstring)
  : option (option jsstring) :=
  last (List.map csvValue
          (List.filter (fun line => eqb (csvHeader line) key) lines)).

(** The attachment blocks of an email, in the order of the text, and what
    one block gives under a decoder: an attachment, or nothing when the
    decoding fails. *)
Definition attachmentBlocks (content : jsstring) : list Match :=
  matchAll attachmentRegex (join [LF; LF] (List.tl (split [LF; LF] content))).

Definition payload (m : Match) : jsstring := trim (default [] (group 3 m)).

Definition attachmentOf (decode : jsstring -> Result jsstring) (m : Match)
  : option EmailAttachment :=
  match decode (payload m) with
  | Ok decodedContent =>
      Some (makeAttachment (default [] (group 1 m)) (default [] (group 2 m))
                           decodedContent)
  | Throw _ => None
  end.

(** The three ways the progress log of one email ends: a ticket was
    created, the email was queued for human review, or the submission
    failed with an error that names the ticket system. *)
Definition resolved (log : jsstring) : Prop :=
  includes (str "created successfully") log = true
  \/ includes (str "queued for human review") log = true
  \/ includes (str "Error creating ticket: Failed to create Jira ticket: ")
              log = true
  \/ includes (str "Error creating ticket: Failed to create ServiceNow ticket: ")
              log = true.

(** The state after one more external call. *)
Definition called (c : Call) (st : State) : State :=
  {| heap := heap st; trace := trace st ++ [c] |}.

(** The state after one more item in the review queue. *)
Definition queued (q : loc) (item : HumanReviewItem) (st : State) : State :=
  {| heap := pushed q item (heap st); trace := trace st |}.

(** The progress log of an email that could not be analysed, and the
    item queued for it. *)
Definition analysisFailedLog : jsstring :=
  join [LF]
    [ str "🔍 Starting email analysis...";
      str "📧 Extracting email data and context...";
      str "⚠️ Analysis failed - Unable to extract email data";
      str "👤 Email has been queued for human review" ].

Definition analysisFailedItem (emailContent : jsstring) : HumanReviewItem :=
  {| reason := str "Unable to analyze email";
     emailContent := emailContent;
     missingFields := [str "Analysis Failed"];
     partialAnalysis := None |}.

(** The files read so far, in the order of the reads. *)
Definition readFiles (calls : list Call) : list Uri :=
  omap (fun c => match c with ReadFile f => Some f | _ => None end) calls.

(** What one run of the single-email pipeline does to the shared state:
    at most one item more at the end of the review queue, more external
    calls at the end of the history, none of them a file read. *)
Definition singleEffect (q : loc) (st st' : State) : Prop :=
  (exists extra, readArray (heap st') q = readArray (heap st) q ++ extra
                 /\ (length extra <= 1)%nat)
  /\ (exists calls, trace st' = trace st ++ calls /\ readFiles calls = []).

(** What a bulk run over [files] does to the shared state: the review
    queue grows at its end by at most one item per file, and the files
    are read one after the other in the order given. *)
Definition bulkEffect (q : loc) (files : list Uri) (st st' : State) : Prop :=
  (exists extra, readArray (heap st') q = readArray (heap st) q ++ extra
                 /\ (length extra <= length files)%nat)
  /\ readFiles (trace st') = readFiles (trace st) ++ files.

(** The exception that leaves the single-email pipeline, if there is
    one: that of the provider call, that of [JSON.parse] on a reply that
    goes to it, or that of the classifier on an analysis without missing
    fields. *)
Definition escapes (env : Env) (st : State) (emailContent : jsstring)
  : option Thrown :=
  match chat_open env (trace st) emailContent with
  | Throw e => Some e
  | Ok (Some (c :: s)) =>
      if eqb (c :: s) (str "{}") then None
      else match JSON_parse env (c :: s) with
           | Throw e => Some e
           | Ok (Some a) =>
               match validateRequiredFields a, classifyTicketType a with
               | [], Throw e => Some e
               | _, _ => None
               end
           | Ok None => None
           end
  | Ok _ => None
  end.

(** ** Example inputs *)

(** The handler and the state right after [new ChatCommandHandler()]. *)
Definition emptyState : State := {| heap := ∅; trace := [] |}.

Definition exampleState : State := snd (newChatCommandHandler emptyState).

Definition exampleHandler : ChatCommandHandler :=
  match fst (newChatCommandHandler emptyState) with
  | Ok h => h
  | Throw _ => {| humanReviewQueue := 1%positive |}
  end.

(** The state after one email that could not be analysed: the queue
    holds one item. *)
Definition queuedState : State :=
  queued (humanReviewQueue exampleHandler) (analysisFailedItem (str "Hi"))
         exampleState.

(** An assignment to the property [reason] of an item. *)
Definition setReason (text : jsstring) (item : HumanReviewItem)
  : HumanReviewItem :=
  {| reason := text;
     emailContent := emailContent item;
     missingFields := missingFields item;
     partialAnalysis := partialAnalysis item |}.

(** The analysis of the bug report of the specification, section 8, and
    the JSON text of it. *)
Definition bugAnalysis : EmailAnalysis :=
  {| requestType := Str (str "Bug Report");
     priority := Str (str "high");
     keyPoints := MissingArray;
     actionItems := MissingArray;
     accountNumber := Str (str "ACC123456");
     customerId := Absent;
     subject := Str (str "Bug Report: Crash");
     content := Str (str "App crashes on launch.");
     additionalFields := MissingObject;
     an_attachments := [] |}.

(** The same analysis with a number as content, and the JSON text of
    it. *)
Definition numericAnalysis : EmailAnalysis :=
  {| requestType := Str (str "Bug Report");
     priority := Str (str "high");
     keyPoints := MissingArray;
     actionItems := MissingArray;
     accountNumber := Str (str "ACC123456");
     customerId := Absent;
     subject := Str (str "Bug Report: Crash");
     content := Other (str "123") true;
     additionalFields := MissingObject;
     an_attachments := [] |}.

Definition jsonPair (key value : jsstring) : jsstring :=
  [34] ++ key ++ [34; 58; 34] ++ value ++ [34].

Definition bugJson : jsstring :=
  str "{" ++ jsonPair (str "requestType") (str "Bug Report")
  ++ str "," ++ jsonPair (str "priority") (str "high")
  ++ str "," ++ jsonPair (str "accountNumber") (str "ACC123456")
  ++ str "," ++ jsonPair (str "subject") (str "Bug Report: Crash")
  ++ str "," ++ jsonPair (str "content") (str "App crashes on launch.")
  ++ str "}".

Definition numericJson : jsstring :=
  str "{" ++ jsonPair (str "requestType") (str "Bug Report")
  ++ str "," ++ jsonPair (str "priority") (str "high")
  ++ str "," ++ jsonPair (str "accountNumber") (str "ACC123456")
  ++ str "," ++ jsonPair (str "subject") (str "Bug Report: Crash")
  ++ str "," ++ [34] ++ str "content" ++ [34] ++ str ":123"
  ++ str "}".

(** [JSON.parse] on the texts of the examples: the two JSON texts above,
    and a reply in prose, for which it throws a [SyntaxError]. *)
Definition stubParse (text : jsstring) : Result (option EmailAnalysis) :=
  if eqb text bugJson then Ok (Some bugAnalysis)
  else if eqb text numericJson then Ok (Some numericAnalysis)
  else Throw (ErrorObj (str "Unexpected token 'I', is not valid JSON")).

Definition crashEmail : jsstring :=
  str "Subject: Bug Report: Crash" ++ [LF] ++ str "From: a@b.com" ++ [LF; LF]
  ++ str "Account Number: ACC123456" ++ [LF] ++ str "App crashes on launch.".

Definition helloEmail : jsstring :=
  str "Subject: Hello" ++ [LF; LF] ++ str "Please help.".

Definition crashFile : Uri := {| fsPath := str "inbox/crash.eml" |}.
Definition helloFile : Uri := {| fsPath := str "inbox/hello.eml" |}.

(** An environment with a scripted provider and issue tracker; a file
    holds the crash report when its path says so; the editor shows the
    other email, the only file of the workspace. *)
Definition stubEnv (chat : jsstring -> option jsstring)
  (jira : Result Response) : Env :=
  {| JSON_parse := stubParse;
     chat_open := fun _ prompt => Ok (chat prompt);
     jira_createIssue := fun _ _ => jira;
     servicenow_createTicket := fun _ _ =>
       Ok (ResponseWith (Str (str "INC0001234")));
     fs_readFile := fun _ file =>
       Ok (if includes (str "crash") (fsPath file)
           then crashEmail else helloEmail);
     workspace_findFiles := fun _ => Ok [helloFile];
     activeTextEditor := fun _ => Some helloEmail;
     Logger_debug := fun _ _ => Ok tt |}.

Definition jiraWorks : Result Response :=
  Ok (ResponseWith (Str (str "PROJ-123"))).
Definition jiraDown : Result Response := Throw (ErrorObj (str "HTTP 503")).

(** The provider has nothing to say. *)
Definition emptyReply (prompt : jsstring) : option jsstring := Some (str "{}").

(** The provider gives the content of every email as a number. *)
Definition numericReply (prompt : jsstring) : option jsstring :=
  Some numericJson.

(** The provider analyses a crash report and answers anything else in
    prose. *)
Definition crashOnly (prompt : jsstring) : option jsstring :=
  if includes (str "crash") prompt then Some bugJson
  else Some (str "I cannot analyze this email.").


(** Header lines, one of them a Subject with spaces on both sides. *)
Definition exampleLines : list HeaderLine :=
  [ {| hl_key := str "From"; hl_gap := str " "; hl_value := str "a@b.com" |};
    {| hl_key := str "SUBJECT"; hl_gap := str "  "; hl_value := str "Hi  " |} ].

(** [Buffer.from(payload, 'base64').toString('utf-8')] of the Node
    runtime, which returns for every text: a character outside the two
    base64 alphabets is passed over, the text ends at the first [=],
    and a last group of one digit gives no byte.  The bytes are read as
    UTF-8; the replacement of ill-formed sequences is not modelled
    beyond a sequence cut short at the end. *)
Definition base64Digit (c : N) : option N :=
  if (65 <=? c) && (c <=? 90) then Some (c - 65)
  else if (97 <=? c) && (c <=? 122) then Some (c - 71)
  else if (48 <=? c) && (c <=? 57) then Some (c + 4)
  else if (c =? 43) || (c =? 45) then Some 62
  else if (c =? 47) || (c =? 95) then Some 63
  else None.

Fixpoint base64Digits (s : jsstring) : list N :=
  match s with
  | [] => []
  | c :: t =>
      if c =? 61 then []
      else match base64Digit c with
           | Some d => d :: base64Digits t
           | None => base64Digits t
           end
  end.

Fixpoint base64Bytes (digits : list N) : list N :=
  match digits with
  | a :: b :: c :: d :: rest =>
      (a * 4 + b / 16) :: ((b mod 16) * 16 + c / 4) :: ((c mod 4) * 64 + d)
      :: base64Bytes rest
  | [a; b; c] => [a * 4 + b / 16; (b mod 16) * 16 + c / 4]
  | [a; b] => [a * 4 + b / 16]
  | _ => []
  end.

Definition bufferDecode (payload : jsstring) : jsstring :=
  List.concat
    (List.map utf16Units (utf8Decode (base64Bytes (base64Digits payload)))).

(** The decoder inside the [try] of the attachment loop: it returns. *)
Definition fromBase64 (payload : jsstring) : Result jsstring :=
  Ok (bufferDecode payload).

Definition attachmentBlock (name type payload : jsstring) : jsstring :=
  str "--ATTACHMENT--" ++ [LF] ++ str "Filename: " ++ name ++ [LF]
  ++ str "Content-Type: " ++ type ++ [LF] ++ str "Content: " ++ payload
  ++ [LF] ++ str "--END-ATTACHMENT--".

Definition twoAttachments : jsstring :=
  str "Subject: Logs" ++ [LF; LF] ++ str "See the files." ++ [LF]
  ++ attachmentBlock (str "a.bin") (str "application/octet-stream") (str "!!")
  ++ [LF]
  ++ attachmentBlock (str "b.pdf") (str "application/pdf") (str "QUJD").

(** An analysis with nothing in it. *)
Definition blankAnalysis : EmailAnalysis :=
  {| requestType := Absent; priority := Absent;
     keyPoints := MissingArray; actionItems := MissingArray;
     accountNumber := Absent; customerId := Null;
     subject := Absent; content := Null;
     additionalFields := MissingObject; an_attachments := [] |}.

(** A bug report whose text also speaks of a feature and a task. *)
Definition mixedAnalysis : EmailAnalysis :=
  {| requestType := Str (str "Bug Report"); priority := Str (str "high");
     keyPoints := ArrayOf [str "a bug"]; actionItems := ArrayOf [];
     accountNumber := Str (str "ACC123456"); customerId := Absent;
     subject := Str (str "New feature request");
     content := Str (str "This task hits a bug in the epic story.");
     additionalFields := ObjectWith []; an_attachments := [] |}.

Definition noMatch : Match := {| matched := []; groups := [] |}.

(** A CSV text with the header [a] on two lines and a line without
    comma. *)
Definition csvText : jsstring :=
  str "a, 1 ,x" ++ [LF] ++ str "  " ++ [LF] ++ str "b" ++ [LF] ++ str "a,2".

(** From the specification, section 4.1: the header block is the text
    before the first blank line; it has a Subject header when one of its
    lines starts with the key Subject, in any letter case, and a colon.
    A line starts at the start of the block and after a line
    terminator. *)
Definition headerBlock (content : jsstring) : jsstring :=
  List.hd [] (split [LF; LF] content).

Fixpoint subjectLineFrom (lineStart : bool) (s : jsstring) : bool :=
  (lineStart && startsWith (str "subject:") (toLowerCase s)) ||
  match s with
  | [] => false
  | x :: t => subjectLineFrom (isLineTerminator x) t
  end.

Definition hasSubjectLine (block : jsstring) : bool :=
  subjectLineFrom true block.

(** The text after a header block: nothing, or a blank line and more. *)
Definition endsBlock (tail : jsstring) : Prop :=
  tail = [] \/ startsWith [LF; LF] tail = true.

(** The summary at the end of the bulk log, for a number of files and the
    entries of [results]. *)
Definition bulkSummary (total : nat) (results : list BulkEntry) : jsstring :=
  [LF] ++ str "📊 Summary:" ++ [LF]
  ++ str "✅ Total emails processed: " ++ ofNat total ++ [LF]
  ++ str "🎫 Tickets created: "
  ++ ofNat (length (List.filter createdSuccessfully results)) ++ [LF]
  ++ str "⚠️ Failed/Queued for review: "
  ++ ofNat (length (List.filter (fun r => negb (createdSuccessfully r))
                                results)).

(** ** The pipeline in detail: what is submitted, what is queued, what is
    logged *)

Inductive TicketSystem := Jira | ServiceNow.

(** The tickets submitted by a sequence of external calls, in order. *)
Definition submissions (calls : list Call) : list (TicketSystem * Ticket) :=
  omap (fun c => match c with
                 | JiraCreateIssue t => Some (Jira, t)
                 | ServiceNowCreateTicket t => Some (ServiceNow, t)
                 | _ => None
                 end) calls.

(** The members of [JiraTicket['type']] and [ServiceNowTicket['type']]
    (src/types/chatTypes.ts). *)
Definition jiraTypes : list jsstring :=
  [ str "bug"; str "feature"; str "epic"; str "story"; str "task" ].

Definition serviceNowTypes : list jsstring := [ str "incident"; str "request" ].

(** The name of a ticket system in the progress log, and the prefix of
    its categories in the classifier's result. *)
Definition systemName (s : TicketSystem) : jsstring :=
  match s with
  | Jira => str "Jira"
  | ServiceNow => str "ServiceNow"
  end.

Definition systemPrefix (s : TicketSystem) : jsstring :=
  match s with
  | Jira => str "jira-"
  | ServiceNow => str "servicenow-"
  end.

(** The system and the ticket type named by a category. *)
Definition routeOf (ticketType : jsstring) : option (TicketSystem * jsstring) :=
  if startsWith (str "jira-") ticketType
  then Some (Jira, drop 5 ticketType)
  else if startsWith (str "servicenow-") ticketType
  then Some (ServiceNow, drop 11 ticketType)
  else None.

(** The text of a ticket key before its first ": ". *)
Definition ticketId (key : field) : jsstring :=
  List.hd [] (split (str ": ") (show key)).

(** The lines of the progress log of an email that was analysed: up to
    the validation, and from the validation to the submission. *)
Definition analysedLines (a : EmailAnalysis) : list jsstring :=
  [ str "🔍 Starting email analysis...";
    str "📧 Extracting email data and context...";
    str "✅ Email data extracted successfully:" ++ [LF]
    ++ str "- Subject: " ++ show a.(subject) ++ [LF]
    ++ str "- Priority: " ++ show a.(priority) ++ [LF]
    ++ str "- Type: " ++ show a.(requestType);
    str "🔍 Validating required fields..." ].

Definition creatingLine (s : TicketSystem) (type : jsstring) : jsstring :=
  match s with
  | Jira => str "📋 Creating Jira " ++ type ++ str " ticket..."
  | ServiceNow => str "📋 Creating ServiceNow " ++ type ++ str "..."
  end.

Definition createdLine (s : TicketSystem) : jsstring :=
  match s with
  | Jira => str "✅ Jira ticket created successfully!"
  | ServiceNow => str "✅ ServiceNow ticket created successfully!"
  end.

Definition detailsLine (s : TicketSystem) (type : jsstring) (a : EmailAnalysis)
  (id : jsstring) : jsstring :=
  [LF] ++ str "Ticket Details:" ++ [LF]
  ++ str "🎫 Type: " ++ systemName s ++ str " " ++ type ++ [LF]
  ++ str "📝 Subject: " ++ show a.(subject) ++ [LF]
  ++ str "🔑 ID: " ++ id ++ [LF]
  ++ str "📊 Priority: " ++ show a.(priority).

Definition validatedLines (a : EmailAnalysis) (s : TicketSystem)
  (type : jsstring) : list jsstring :=
  analysedLines a
  ++ [ str "✅ All required fields validated";
       str "🔄 Classifying request type...";
       creatingLine s type ].

(** The call that submits a ticket to a system, and the system's answer
    to it. *)
Definition submitCall (s : TicketSystem) (t : Ticket) : Call :=
  match s with
  | Jira => JiraCreateIssue t
  | ServiceNow => ServiceNowCreateTicket t
  end.

Definition systemAnswer (env : Env) (s : TicketSystem) (history : list Call)
  (t : Ticket) : Result Response :=
  match s with
  | Jira => jira_createIssue env history t
  | ServiceNow => servicenow_createTicket env history t
  end.

(** The property of the response that holds the ticket key. *)
Definition keyProperty (s : TicketSystem) : jsstring :=
  match s with
  | Jira => str "key"
  | ServiceNow => str "number"
  end.

(** The lines that end the log of a submission, for each answer of the
    ticket system: a response with the ticket key, a response that is
    [undefined] or [null], a rejection. *)
Definition submittedLines (s : TicketSystem) (type : jsstring)
  (a : EmailAnalysis) (answer : Result Response) : list jsstring :=
  match answer with
  | Ok (ResponseWith key) =>
      [createdLine s; detailsLine s type a (ticketId key)]
  | Ok UndefinedResponse =>
      [str "❌ Error creating ticket: Failed to create "
       ++ systemName s ++ str " ticket: "
       ++ errorMessage (propertyOfUndefined (keyProperty s))]
  | Ok NullResponse =>
      [str "❌ Error creating ticket: Failed to create "
       ++ systemName s ++ str " ticket: "
       ++ errorMessage (propertyOfNull (keyProperty s))]
  | Throw cause =>
      [str "❌ Error creating ticket: Failed to create "
       ++ systemName s ++ str " ticket: " ++ errorMessage cause]
  end.

(** The log of an email whose analysis has missing fields. *)
Definition missingFieldsLog (a : EmailAnalysis) : jsstring :=
  join [LF]
    (analysedLines a
     ++ [ str "⚠️ Missing required fields: "
          ++ join (str ", ") (validateRequiredFields a);
          str "👤 Email has been queued for human review" ]).

(** The item queued for an analysis with missing fields. *)
Definition missingFieldsItem (emailContent : jsstring) (a : EmailAnalysis)
  : HumanReviewItem :=
  {| reason := str "Missing required fields";
     emailContent := emailContent;
     missingFields := validateRequiredFields a;
     partialAnalysis := Some a |}.

(** The reply of the provider as the pipeline reads it: nothing to
    analyse ([null], empty, "{}" or a JSON text of a falsy value), an
    analysis, or an exception of [JSON.parse]. *)
Definition readReply (env : Env) (reply : option jsstring)
  : Result (option EmailAnalysis) :=
  match reply with
  | Some (c :: s) =>
      if eqb (c :: s) (str "{}") then Ok None else JSON_parse env (c :: s)
  | _ => Ok None
  end.

(** An analysis whose request type, subject and content are strings,
    [null] or missing: the values on which the classifier returns. *)
Definition classifiable (a : EmailAnalysis) : bool :=
  isText a.(requestType) && isText a.(subject) && isText a.(content).

(** An environment in which the provider, [JSON.parse] and the file
    system never throw, and in which what [JSON.parse] returns has
    strings, or nothing, as request type, subject and content. *)
Definition reliable (env : Env) : Prop :=
  (forall history prompt, exists r, chat_open env history prompt = Ok r)
  /\ (forall text, exists a, JSON_parse env text = Ok a)
  /\ (forall text a,
        JSON_parse env text = Ok (Some a) -> classifiable a = true)
  /\ (forall history file, exists c, fs_readFile env history file = Ok c).

(** ** The parser in detail: the optional headers, the body *)

(** The value of the last line of a header block whose key is [key] in
    any letter case. *)
Definition lastValue (key : jsstring) (ls : list HeaderLine)
  : option jsstring :=
  last (List.map hl_value
          (List.filter (fun l => eqb (toLowerCase (hl_key l)) key) ls)).

(** [s || undefined] *)
Definition nonEmpty (s : jsstring) : option jsstring :=
  match s with
  | [] => None
  | c :: t => Some (c :: t)
  end.

(** The markers of an attachment block. *)
Definition attachmentMarker : jsstring := str "--ATTACHMENT--".
Definition endMarker : jsstring := str "--END-ATTACHMENT--".

(** An attachment as it is written into an email ([interface Attachment],
    src/test/testDataGenerator.ts). *)
Record Attachment := {
  at_filename : jsstring;
  at_content : jsstring;
  at_contentType : jsstring
}.

(** The block that [generateTestEmail] writes for an attachment:
    [`\n--ATTACHMENT--\nFilename: ${attachment.filename}\nContent-Type:
    ${attachment.contentType}\nContent: ${attachment.content}\n--END-ATTACHMENT--\n`]. *)
Definition attachmentText (attachment : Attachment) : jsstring :=
  [LF] ++ str "--ATTACHMENT--" ++ [LF]
  ++ str "Filename: " ++ at_filename attachment ++ [LF]
  ++ str "Content-Type: " ++ at_contentType attachment ++ [LF]
  ++ str "Content: " ++ at_content attachment ++ [LF]
  ++ str "--END-ATTACHMENT--" ++ [LF].

(** A file name or content type that the parser reads back as it is: on
    one line, not empty, not starting with white space, without the end
    marker. *)
Definition oneLine (s : jsstring) : bool :=
  match s with
  | c :: _ => negb (isSpace c) && forallb dot s && negb (includes endMarker s)
  | [] => false
  end.

(** A payload that the parser reads back as it is: it may have several
    lines; it does not start with white space, does not end with a line
    feed or a carriage return, and does not hold the end marker. *)
Definition payloadText (s : jsstring) : bool :=
  match s, last s with
  | c :: _, Some l =>
      negb (isSpace c) && negb ((l =? CR) || (l =? LF))
      && negb (includes endMarker s)
  | _, _ => false
  end.

Definition parseable (a : Attachment) : bool :=
  oneLine (at_filename a) && oneLine (at_contentType a)
  && payloadText (at_content a).

(** What the parser makes of a written attachment under a decoder. *)
Definition decoded (decode : jsstring -> Result jsstring) (a : Attachment)
  : option EmailAttachment :=
  match decode (trim (at_content a)) with
  | Ok decodedContent =>
      Some (makeAttachment (at_filename a) (at_contentType a) decodedContent)
  | Throw _ => None
  end.

(** The match of the attachment pattern on a written attachment: the
    block without the line feeds around it, and the three fields. *)
Definition blockText (a : Attachment) : jsstring :=
  str "--ATTACHMENT--" ++ [LF]
  ++ str "Filename: " ++ at_filename a ++ [LF]
  ++ str "Content-Type: " ++ at_contentType a ++ [LF]
  ++ str "Content: " ++ at_content a ++ [LF]
  ++ str "--END-ATTACHMENT--".

Definition blockMatch (a : Attachment) : Match :=
  {| matched := blockText a;
     groups := [(3%nat, at_content a); (2%nat, at_contentType a);
                (1%nat, at_filename a)] |}.

(** ** AnalysisClient: [analyzeEmail] (src/chat/emailAnalyzer.ts and
    src/extension.ts) *)

(** A literal with double quotes: in the text that follows [strq], the
    character [~] stands for the double quote. *)
Notation "'strq' s" :=
  (ltac:(let v := eval vm_compute in
                  (List.map (fun c => if c =? 126 then 34 else c) (js s%string))
         in exact v))
  (at level 10, s at level 9, only parsing).

(** A value of type [unknown], as far as [analyzeEmail] tells values
    apart: [undefined], [null], a string, or a value of another type,
    which is truthy or not. *)
Inductive JsValue :=
| VUndefined
| VNull
| VString (s : jsstring)
| VOther (isTruthy : bool).

(** The value that [JSON.parse] returns: [null], a primitive (with the
    name of its type and its text), or an object, read as an analysis. *)
Inductive Json :=
| JNull
| JPrimitive (typeName text : jsstring)
| JObject (a : EmailAnalysis).

(** [s.match(r)] for a pattern without the [g] flag: the first position,
    from the left, at which the pattern matches. *)
Fixpoint search (r : re) (before rest : jsstring) : option Match :=
  match exec r (Cursor before rest) with
  | Some (c', caps) =>
      Some {| matched := consumed (Cursor before rest) c'; groups := caps |}
  | None =>
      match rest with
      | [] => None
      | x :: t => search r (x :: before) t
      end
  end.

Definition matchOnce (r : re) (s : jsstring) : option Match := search r [] s.

Definition fenceOpen : jsstring := Eval cbv in (str "```json" ++ [LF]).
Definition fenceClose : jsstring := Eval cbv in ([LF] ++ str "```").

(** [/```json\n([\s\S]*?)\n```/] *)
Definition fencedJsonRegex : re :=
  Seq (Lit fenceOpen)
  (Seq (Group 1 (Star false (Chr anyUnit)))
       (Lit fenceClose)).

(** [/\{[\s\S]*\}/] *)
Definition jsonObjectRegex : re :=
  Seq (Lit (str "{"))
  (Seq (Star true (Chr anyUnit))
       (Lit (str "}"))).

(** The text handed to [JSON.parse]: [jsonMatch[1] || jsonMatch[0]] for
    [jsonMatch = response.match(fenced) || response.match(object)]; none when
    both matches are [null]. *)
Definition jsonText (response : jsstring) : option jsstring :=
  let jsonMatch :=
    match matchOnce fencedJsonRegex response with
    | Some m => Some m
    | None => matchOnce jsonObjectRegex response
    end in
  match jsonMatch with
  | None => None
  | Some jsonMatch =>
      Some match group 1 jsonMatch with
           | Some (c :: s) => c :: s
           | _ => matched jsonMatch
           end
  end.

(** [throw error instanceof Error ? error : new Error('Unknown error during analysis')] *)
Definition analysisError (error : Thrown) : Thrown :=
  match error with
  | ErrorObj message => ErrorObj message
  | NonError => ErrorObj (str "Unknown error during analysis")
  end.

(** The JSON format at the end of the prompt of src/chat/emailAnalyzer.ts. *)
Definition analysisFormat : list jsstring :=
  [ str "Return the analysis in this JSON format:";
    str "{";
    strq "    ~requestType~: ~string~,";
    strq "    ~priority~: ~high|medium|low~,";
    strq "    ~keyPoints~: [~string~],";
    strq "    ~actionItems~: [~string~],";
    strq "    ~accountNumber~: ~string~,";
    strq "    ~customerId~: ~string~,";
    strq "    ~subject~: ~string~,";
    strq "    ~content~: ~string~,";
    strq "    ~additionalFields~: {";
    strq "        ~fieldName~: ~value~";
    str "    }";
    str "}" ].

(** The JSON format at the end of the prompt of src/extension.ts. *)
Definition parsedEmailFormat : list jsstring :=
  [ str "Return the analysis in this JSON format:";
    str "{";
    strq "    ~requestType~: ~string~,";
    strq "    ~priority~: ~high|medium|low~,";
    strq "    ~keyPoints~: [~string~],";
    strq "    ~actionItems~: [~string~],";
    strq "    ~accountNumber~: ~string~,";
    strq "    ~additionalFields~: {";
    strq "        ~fieldName~: ~value~";
    str "    }";
    str "}" ].

(** The lines of both versions of [analyzeEmail] from the check of the
    response to the call of [JSON.parse]. *)
Definition parseResponse (JSON_parse : jsstring -> Result Json)
  (response : JsValue) : M State Json :=
  match response with
  | VString (c :: s) =>
      match jsonText (c :: s) with
      | None => throw (ErrorObj (str "No JSON found in response"))
      | Some text => fun st => (JSON_parse text, st)
      end
  | _ => throw (ErrorObj (str "Invalid response from chat model"))
  end.

(** *** src/chat/emailAnalyzer.ts *)

Module EmailAnalyzer.
Section Client.

(** The chat command ['vscode.chat.open'] with a response of type
    [unknown], and [JSON.parse]. *)
Variable chat : list Call -> jsstring -> Result JsValue.
Variable JSON_parse : jsstring -> Result Json.

Definition analysisPrompt (emailContent : jsstring) : jsstring :=
  join [LF]
    ([ str "Analyze this email and extract the following information:";
       str "1. Request type (e.g., bug report, feature request, support inquiry, etc.)";
       str "2. Priority level (high, medium, or low)";
       str "3. Key points (max 3)";
       str "4. Action items (if any)";
       str "5. Account number or Customer ID (if present)";
       str "6. Subject and content";
       str "7. Any other relevant fields";
       [];
       str "Email content:";
       emailContent;
       [] ]
     ++ analysisFormat).

Definition analyzeEmail (emailContent : jsstring) : M State Json :=
  tryCatch
    (let prompt := analysisPrompt emailContent in
     let* response := external (ChatOpen prompt) (fun t => chat t prompt) in
     let* analysis := parseResponse JSON_parse response in
     ret analysis)
    (fun error => throw (analysisError error)).

End Client.
End EmailAnalyzer.

(** ** The extension: [analyzeEmail], [displayAnalysis] and the commands
    that [activate] registers (src/extension.ts) *)

(** What the extension does to the window of the editor. *)
Inductive UiEvent :=
| ShowErrorMessage (message : jsstring)  (* window.showErrorMessage *)
| OpenTextDocument (uri : Uri)           (* workspace.openTextDocument *)
| CreateWebviewPanel                     (* window.createWebviewPanel *)
| SetWebviewHtml (html : jsstring)       (* panel.webview.html = ... *)
| ResponseProgress (message : jsstring). (* response.progress *)

(** The state of the extension host: the state shared with the chat
    handler, and what was done to the window so far. *)
Record Host := {
  shared : State;
  window : list UiEvent
}.

(** A computation of the handler or of [analyzeEmail], run by a
    command. *)
Definition inShared {A} (m : M State A) : M Host A :=
  fun h =>
    let '(r, st) := m (shared h) in
    (r, {| shared := st; window := window h |}).

Definition ui (e : UiEvent) : M Host unit :=
  fun h => (Ok tt, {| shared := shared h; window := window h ++ [e] |}).

(** The argument of the command [email-analyzer.chat], of type [any]:
    its [arguments], [participants] and [prompt], each of which may be
    missing. *)
Record AnyRequest := {
  rq_arguments : option (list jsstring);
  rq_participants : option (list jsstring);
  rq_prompt : option jsstring
}.

(** [request.arguments?.[0] || ''] *)
Definition firstArgument (arguments : option (list jsstring)) : jsstring :=
  match arguments with
  | Some ((c :: s) :: _) => c :: s
  | _ => []
  end.

(** What the chat participant reports for an exception:
    [error instanceof Error ? error.message : 'Unknown error occurred']. *)
Definition reportedError (error : Thrown) : jsstring :=
  match error with
  | ErrorObj message => message
  | NonError => str "Unknown error occurred"
  end.

Module Extension.
Section Commands.

Variable env : Env.
(** The chat command ['vscode.chat.open'] with a response of type
    [unknown], [JSON.parse], [JSON.stringify] of the object of a CSV
    attachment, [String.prototype.toLowerCase] of the runtime with its
    case mapping for all of Unicode, the decoder of [parseEmail], and
    [workspace.openTextDocument] followed by [getText()]. *)
Variable chat : list Call -> jsstring -> Result JsValue.
Variable JSON_parse : jsstring -> Result Json.
Variable JSON_stringify : JsObject (option jsstring) -> jsstring.
Variable String_toLowerCase : jsstring -> jsstring.
Variable decodeBase64 : jsstring -> Result jsstring.
Variable openTextDocument : list UiEvent -> Uri -> Result jsstring.

(** The text of one attachment in the prompt. *)
Definition attachmentPrompt (att : EmailAttachment) : jsstring :=
  join [LF]
    [ [];
      str "Attachment: " ++ filename att;
      str "Type: " ++ contentType att;
      str "Content: " ++ att_content att;
      match parsedContent att with
      | Some object => str "Parsed: " ++ JSON_stringify object
      | None => []
      end;
      match extractedText att with
      | Some (c :: s) => str "Text: " ++ c :: s
      | _ => []
      end ].

Definition analysisPrompt (parsedEmail : ParsedEmail) : jsstring :=
  join [LF]
    ([ str "Analyze this email and its attachments to extract the following information:";
       str "1. Request type (e.g., bug report, feature request, support inquiry, etc.)";
       str "2. Priority level (high, medium, or low)";
       str "3. Key points (max 3)";
       str "4. Action items (if any)";
       str "5. Account number (if present)";
       str "6. Any other relevant fields";
       [];
       str "Email subject: " ++ hdr_subject (headers parsedEmail);
       str "Email body:";
       match body parsedEmail with
       | Some (c :: s) => c :: s
       | _ => str "(No body content)"
       end;
       [];
       join [LF] (List.map attachmentPrompt (attachments parsedEmail));
       [] ]
     ++ parsedEmailFormat).

(** [analysis.attachments = parsedEmail.attachments], in strict mode. *)
Definition setAttachments (analysis : Json)
  (attachments : list EmailAttachment) : Result EmailAnalysis :=
  match analysis with
  | JObject a =>
      Ok {| requestType := a.(requestType);
            priority := a.(priority);
            keyPoints := a.(keyPoints);
            actionItems := a.(actionItems);
            accountNumber := a.(accountNumber);
            customerId := a.(customerId);
            subject := a.(subject);
            content := a.(content);
            additionalFields := a.(additionalFields);
            an_attachments := attachments |}
  | JNull =>
      Throw (ErrorObj
               (str "Cannot set properties of null (setting 'attachments')"))
  | JPrimitive typeName text =>
      Throw (ErrorObj (str "Cannot create property 'attachments' on "
                       ++ typeName ++ str " '" ++ text ++ str "'"))
  end.

Definition analyzeEmail (parsedEmail : ParsedEmail) : M State EmailAnalysis :=
  tryCatch
    (let prompt := analysisPrompt parsedEmail in
     let* response := external (ChatOpen prompt) (fun t => chat t prompt) in
     let* analysis := parseResponse JSON_parse response in
     fun st => (setAttachments analysis (attachments parsedEmail), st))
    (fun error => throw (analysisError error)).

(** [analysis.priority.toLowerCase()] *)
Definition priorityClass (priority : field) : Result jsstring :=
  match priority with
  | Str s => Ok (String_toLowerCase s)
  | Null => Throw (propertyOfNull (str "toLowerCase"))
  | Absent => Throw (propertyOfUndefined (str "toLowerCase"))
  | Other _ _ =>
      Throw (notAFunction (str "analysis.priority.toLowerCase"))
  end.

(** The section of the account number. *)
Definition accountSection (accountNumber : field) : jsstring :=
  if truthy accountNumber
  then
    join [LF]
      [ [];
        strq "            <div class=~section~>";
        strq "                <div class=~title~>Account Number:</div>";
        str "                " ++ show accountNumber;
        str "            </div>";
        str "            " ]
  else [].

(** [items.map(item => `<li>${item}</li>`).join('')], where [callee] is
    the text of [items.map] in the source. *)
Definition listItems (callee : jsstring) (items : arrayField)
  : Result jsstring :=
  match items with
  | ArrayOf items =>
      Ok (List.concat
            (List.map (fun item => str "<li>" ++ item ++ str "</li>") items))
  | MissingArray => Throw (propertyOfUndefined (str "map"))
  | NullArray => Throw (propertyOfNull (str "map"))
  | NotAnArray => Throw (notAFunction callee)
  end.

Definition fieldEntry (entry : jsstring * jsstring) : jsstring :=
  join [LF]
    [ [];
      strq "                    <div class=~field~>";
      strq "                        <span class=~field-name~>" ++ fst entry
      ++ str ":</span> " ++ snd entry;
      str "                    </div>";
      str "                " ].

(** The section of the additional fields, with one entry for each
    field; [Object.keys] throws on [undefined] and [null]. *)
Definition fieldsSection (fields : objectField) : Result jsstring :=
  match fields with
  | ObjectWith [] => Ok []
  | ObjectWith entries =>
      Ok (join [LF]
            [ [];
              strq "            <div class=~section~>";
              strq "                <div class=~title~>Additional Fields:</div>";
              str "                " ++ List.concat (List.map fieldEntry entries);
              str "            </div>";
              str "            " ])
  | MissingObject | NullObject =>
      Throw (ErrorObj (str "Cannot convert undefined or null to object"))
  end.

(** The page of the panel, for the parts of it that are computed. *)
Definition analysisHtml (analysis : EmailAnalysis)
  (class points items fields : jsstring) : jsstring :=
  join [LF]
    [ str "<!DOCTYPE html>";
      str "    <html>";
      str "        <head>";
      str "            <style>";
      str "                body { font-family: var(--vscode-font-family); padding: 20px; }";
      str "                .section { margin-bottom: 20px; }";
      str "                .title { font-weight: bold; margin-bottom: 5px; }";
      str "                .priority-high { color: #f14c4c; }";
      str "                .priority-medium { color: #e0af4f; }";
      str "                .priority-low { color: #3794ff; }";
      str "                ul { margin: 0; padding-left: 20px; }";
      str "                .field { margin-bottom: 8px; }";
      str "                .field-name { color: var(--vscode-textPreformat-foreground); }";
      str "            </style>";
      str "        </head>";
      str "        <body>";
      strq "            <div class=~section~>";
      strq "                <div class=~title~>Request Type:</div>";
      str "                " ++ show analysis.(requestType);
      str "            </div>";
      strq "            <div class=~section~>";
      strq "                <div class=~title~>Priority:</div>";
      strq "                <span class=~priority-" ++ class ++ strq "~>"
      ++ show analysis.(priority) ++ str "</span>";
      str "            </div>";
      str "            " ++ accountSection analysis.(accountNumber);
      strq "            <div class=~section~>";
      strq "                <div class=~title~>Key Points:</div>";
      str "                <ul>";
      str "                    " ++ points;
      str "                </ul>";
      str "            </div>";
      strq "            <div class=~section~>";
      strq "                <div class=~title~>Action Items:</div>";
      str "                <ul>";
      str "                    " ++ items;
      str "                </ul>";
      str "            </div>";
      str "            " ++ fields;
      str "        </body>";
      str "    </html>" ].

(** The template literal of the page: its expressions are evaluated from
    left to right, and the first that throws ends the evaluation. *)
Definition analysisPage (analysis : EmailAnalysis) : Result jsstring :=
  match priorityClass analysis.(priority) with
  | Throw e => Throw e
  | Ok class =>
      match listItems (str "analysis.keyPoints.map") analysis.(keyPoints) with
      | Throw e => Throw e
      | Ok points =>
          match listItems (str "analysis.actionItems.map")
                          analysis.(actionItems) with
          | Throw e => Throw e
          | Ok items =>
              match fieldsSection analysis.(additionalFields) with
              | Throw e => Throw e
              | Ok fields =>
                  Ok (analysisHtml analysis class points items fields)
              end
          end
      end
  end.

(** The panel is created first; the page is built and then stored in
    it. *)
Definition displayAnalysis (analysis : EmailAnalysis) : M Host unit :=
  let* _ := ui CreateWebviewPanel in
  match analysisPage analysis with
  | Ok page => ui (SetWebviewHtml page)
  | Throw e => throw e
  end.

(** The command [email-analyzer.analyzeEmail]. *)
Definition analyzeCommand : M Host unit :=
  fun h =>
    match activeTextEditor env (trace (shared h)) with
    | None => ui (ShowErrorMessage (str "Please open an email file first.")) h
    | Some emailContent =>
        tryCatch
          (let parsedEmail := parseEmail decodeBase64 emailContent in
           match hdr_subject (headers parsedEmail) with
           | [] => throw (ErrorObj (str "Email subject is mandatory"))
           | _ :: _ =>
               let* analysis := inShared (analyzeEmail parsedEmail) in
               displayAnalysis analysis
           end)
          (fun error =>
             ui (ShowErrorMessage (str "Error analyzing email: "
                                   ++ errorMessage error)))
          h
    end.

(** The loop of the command [email-analyzer.analyzeBulkEmails]; [results]
    is the array built so far. *)
Fixpoint analyzeEach (uris : list Uri)
  (results : list (jsstring * EmailAnalysis))
  : M Host (list (jsstring * EmailAnalysis)) :=
  match uris with
  | [] => ret results
  | uri :: uris' =>
      let* emailContent :=
        fun h =>
          (openTextDocument (window h) uri,
           {| shared := shared h;
              window := window h ++ [OpenTextDocument uri] |}) in
      let parsedEmail := parseEmail decodeBase64 emailContent in
      let* analysis := inShared (analyzeEmail parsedEmail) in
      analyzeEach uris' (results ++ [(fsPath uri, analysis)])
  end.

(** The command [email-analyzer.analyzeBulkEmails]; it returns
    [undefined] when there is nothing to analyse. *)
Definition bulkAnalyzeCommand (uris : option (list Uri))
  : M Host (option (list (jsstring * EmailAnalysis))) :=
  match uris with
  | Some (uri :: uris') =>
      tryCatch
        (let* results := analyzeEach (uri :: uris') [] in
         ret (Some results))
        (fun error =>
           let* _ := ui (ShowErrorMessage (str "Error analyzing emails: "
                                           ++ errorMessage error)) in
           throw error)
  | _ =>
      let* _ := ui (ShowErrorMessage
                      (str "No files selected for bulk analysis.")) in
      ret None
  end.

Variable chatHandler : ChatCommandHandler.

(** The command [email-analyzer.start]. *)
Definition startCommand : M Host jsstring :=
  let* _ :=
    fun h =>
      (Logger_debug env (trace (shared h)) (str "Processing /start command"),
       h) in
  inShared (handleChatCommand env chatHandler
              {| command := str "/start";
                 participants := [str "user"];
                 prompt := Some (str "Analyze this email") |}).

(** The command [email-analyzer.chat]. *)
Definition chatCommand (request : option AnyRequest) : M Host jsstring :=
  match request with
  | Some {| rq_arguments := arguments; rq_participants := participants;
            rq_prompt := Some (c :: s) |} =>
      inShared (handleChatCommand env chatHandler
                  {| command := firstArgument arguments;
                     participants := default [] participants;
                     prompt := Some (c :: s) |})
  | _ => ret (str "Invalid chat request")
  end.

(** The handler of the chat participant ['email-analyzer'], for the
    prompt of the request. *)
Definition chatParticipant (requestPrompt : jsstring) : M Host unit :=
  tryCatch
    (let promptText := trim requestPrompt in
     if eqb promptText (str "/start")
     then
       let* result :=
         inShared (handleChatCommand env chatHandler
                     {| command := str "/start";
                        participants := [str "user"];
                        prompt := Some promptText |}) in
       ui (ResponseProgress result)
     else ui (ResponseProgress
                (str "Unknown command. Available commands: /start")))
    (fun error => ui (ResponseProgress (reportedError error))).

End Commands.
End Extension.

(** The documents opened by a sequence of window events, in order. *)
Definition openedDocuments (events : list UiEvent) : list Uri :=
  omap (fun e => match e with OpenTextDocument uri => Some uri | _ => None end)
       events.

(** The messages reported to a chat response. *)
Definition progressMessages (events : list UiEvent) : list jsstring :=
  omap (fun e => match e with ResponseProgress m => Some m | _ => None end)
       events.

(** ** Logger (src/utils/logger.ts) *)

(** An output channel of the editor: its name, the lines appended to it,
    and how often it was brought to the front. *)
Record OutputChannel := {
  ch_name : jsstring;
  ch_lines : list jsstring;
  ch_shown : nat
}.

(** The part of [vscode.ExtensionContext] that the logger reads. *)
Record ExtensionContext := { extensionPath : jsstring }.

(** An [Error] passed to [Logger.error]: its message and its stack, which
    may be missing. *)
Record ErrorValue := {
  err_message : jsstring;
  err_stack : option jsstring
}.

(** The static fields of the class, which are [undefined] until
    [initialize] runs, and what lies outside it: the channels created so
    far, the files, and the number of readings of the clock. *)
Record LoggerWorld := {
  outputChannel : option nat;
  logFile : option jsstring;
  extensionContext : option ExtensionContext;
  channels : list OutputChannel;
  files : gmap jsstring jsstring;
  clock : nat
}.

Module Logger.
Section Runtime.

(** [new Date().toISOString()] at the n-th reading of the clock,
    [path.join], and the error with which the file system refuses to
    write a file, if it does. *)
Variable toISOString : nat -> jsstring.
Variable path_join : jsstring -> jsstring -> jsstring.
Variable fsError : jsstring -> option Thrown.

(** [vscode.window.createOutputChannel(name)] *)
Definition createOutputChannel (name : jsstring) : M LoggerWorld nat :=
  fun w =>
    (Ok (length (channels w)),
     {| outputChannel := outputChannel w; logFile := logFile w;
        extensionContext := extensionContext w;
        channels := channels w
                    ++ [{| ch_name := name; ch_lines := []; ch_shown := 0 |}];
        files := files w; clock := clock w |}).

Definition updateChannel (c : nat) (f : OutputChannel -> OutputChannel)
  : M LoggerWorld unit :=
  fun w =>
    (Ok tt,
     {| outputChannel := outputChannel w; logFile := logFile w;
        extensionContext := extensionContext w;
        channels := match channels w !! c with
                    | Some ch => <[c := f ch]> (channels w)
                    | None => channels w
                    end;
        files := files w; clock := clock w |}).

(** [channel.appendLine(line)] and [channel.show()] *)
Definition appendLine (c : nat) (line : jsstring) : M LoggerWorld unit :=
  updateChannel c (fun ch =>
    {| ch_name := ch_name ch; ch_lines := ch_lines ch ++ [line];
       ch_shown := ch_shown ch |}).

Definition show (c : nat) : M LoggerWorld unit :=
  updateChannel c (fun ch =>
    {| ch_name := ch_name ch; ch_lines := ch_lines ch;
       ch_shown := S (ch_shown ch) |}).

(** [fs.writeFileSync(path, data)] and [fs.appendFileSync(path, data)];
    a path that is [undefined] is refused. *)
Definition writeFile (path : option jsstring)
  (update : option jsstring -> jsstring) : M LoggerWorld unit :=
  fun w =>
    match path with
    | None =>
        (Throw (ErrorObj
                  (strq "The ~path~ argument must be of type string or an instance of Buffer or URL. Received undefined")),
         w)
    | Some p =>
        match fsError p with
        | Some e => (Throw e, w)
        | None =>
            (Ok tt,
             {| outputChannel := outputChannel w; logFile := logFile w;
                extensionContext := extensionContext w;
                channels := channels w;
                files := <[p := update (files w !! p)]> (files w);
                clock := clock w |})
        end
    end.

Definition writeFileSync (path : option jsstring) (data : jsstring)
  : M LoggerWorld unit :=
  writeFile path (fun _ => data).

Definition appendFileSync (path : option jsstring) (data : jsstring)
  : M LoggerWorld unit :=
  writeFile path (fun old => default [] old ++ data).

Definition newDate : M LoggerWorld jsstring :=
  fun w =>
    (Ok (toISOString (clock w)),
     {| outputChannel := outputChannel w; logFile := logFile w;
        extensionContext := extensionContext w;
        channels := channels w; files := files w; clock := S (clock w) |}).

Definition log (level message : jsstring) : M LoggerWorld unit :=
  let* timestamp := newDate in
  let logMessage :=
    str "[" ++ timestamp ++ str "] [" ++ level ++ str "] " ++ message in
  fun w =>
    match outputChannel w with
    | None => (Throw (propertyOfUndefined (str "appendLine")), w)
    | Some c =>
        (let* _ := appendLine c logMessage in
         let* _ := appendFileSync (logFile w) (logMessage ++ [LF]) in
         if eqb level (str "ERROR") then show c else ret tt) w
    end.

Definition info (message : jsstring) : M LoggerWorld unit :=
  log (str "INFO") message.

Definition error (message : jsstring) (error : option ErrorValue)
  : M LoggerWorld unit :=
  let* _ := log (str "ERROR") message in
  match error with
  | Some e =>
      log (str "ERROR")
          match err_stack e with
          | Some (c :: s) => c :: s
          | _ => err_message e
          end
  | None => ret tt
  end.

Definition debug (message : jsstring) : M LoggerWorld unit :=
  log (str "DEBUG") message.

Definition initialize (context : ExtensionContext) : M LoggerWorld unit :=
  let* _ := fun w =>
    (Ok tt,
     {| outputChannel := outputChannel w; logFile := logFile w;
        extensionContext := Some context;
        channels := channels w; files := files w; clock := clock w |}) in
  let* c := createOutputChannel (str "Email Analyzer") in
  let* _ := fun w =>
    (Ok tt,
     {| outputChannel := Some c; logFile := logFile w;
        extensionContext := extensionContext w;
        channels := channels w; files := files w; clock := clock w |}) in
  let* _ := fun w =>
    (Ok tt,
     {| outputChannel := outputChannel w;
        logFile := Some (path_join (extensionPath context)
                                   (str "email-analyzer.log"));
        extensionContext := extensionContext w;
        channels := channels w; files := files w; clock := clock w |}) in
  let* _ := fun w => writeFileSync (logFile w) [] w in
  info (str "Logger initialized").

Definition getLogFilePath : M LoggerWorld (option jsstring) :=
  fun w => (Ok (logFile w), w).

Definition showOutputChannel : M LoggerWorld unit :=
  fun w =>
    match outputChannel w with
    | None => (Throw (propertyOfUndefined (str "show")), w)
    | Some c => show c w
    end.

End Runtime.
End Logger.

(** A call of one of the logging methods. *)
Inductive LogCall :=
| LogInfo (message : jsstring)
| LogDebug (message : jsstring)
| LogError (message : jsstring) (error : option ErrorValue).

Definition logCall (toISOString : nat -> jsstring)
  (fsError : jsstring -> option Thrown) (c : LogCall) : M LoggerWorld unit :=
  match c with
  | LogInfo m => Logger.info toISOString fsError m
  | LogDebug m => Logger.debug toISOString fsError m
  | LogError m e => Logger.error toISOString fsError m e
  end.

Fixpoint logCalls (toISOString : nat -> jsstring)
  (fsError : jsstring -> option Thrown) (cs : list LogCall)
  : M LoggerWorld unit :=
  match cs with
  | [] => ret tt
  | c :: cs' =>
      let* _ := logCall toISOString fsError c in
      logCalls toISOString fsError cs'
  end.

(** The lines that a call writes, for the readings of the clock from
    [n] on, and the number of lines. *)
Definition logLine (timestamp level message : jsstring) : jsstring :=
  str "[" ++ timestamp ++ str "] [" ++ level ++ str "] " ++ message.

Definition linesOf (toISOString : nat -> jsstring) (n : nat) (c : LogCall)
  : list jsstring :=
  match c with
  | LogInfo m => [logLine (toISOString n) (str "INFO") m]
  | LogDebug m => [logLine (toISOString n) (str "DEBUG") m]
  | LogError m None => [logLine (toISOString n) (str "ERROR") m]
  | LogError m (Some e) =>
      [ logLine (toISOString n) (str "ERROR") m;
        logLine (toISOString (S n)) (str "ERROR")
                match err_stack e with
                | Some (c :: s) => c :: s
                | _ => err_message e
                end ]
  end.

(** How often a call brings the channel to the front. *)
Definition showsOf (c : LogCall) : nat :=
  match c with
  | LogError _ None => 1
  | LogError _ (Some _) => 2
  | _ => 0
  end.

(** The text of a file with the given lines. *)
Definition fileText (lines : list jsstring) : jsstring :=
  List.concat (List.map (fun l => l ++ [LF]) lines).

(** The logger is initialised: its channel exists, with a name, lines and
    a number of times it was shown, and the log file holds the lines of
    the channel. *)
Definition mirrored (w : LoggerWorld) (c : nat) (name path : jsstring)
  (lines : list jsstring) (shown : nat) : Prop :=
  outputChannel w = Some c /\ logFile w = Some path
  /\ channels w !! c
     = Some {| ch_name := name; ch_lines := lines; ch_shown := shown |}
  /\ files w !! path = Some (fileText lines).

(** ** TestDataGenerator (src/test/testDataGenerator.ts) *)

Module TestDataGenerator.

Inductive EmailType := bug | feature | support | general | unknownType.
Inductive Priority := high | medium | low | unknownPriority.

(** [interface TestEmailData]; an optional property is [None] when it is
    missing. *)
Record TestEmailData := {
  type : EmailType;
  priority : Priority;
  withBody : option bool;
  withAttachments : option bool;
  withAccountNumber : option bool;
  attachments : option (list Attachment)
}.

Definition SUBJECTS (t : EmailType) : list jsstring :=
  match t with
  | bug =>
      [ str "Critical Bug: Application Crash in Production";
        str "Urgent: Database Connection Issue";
        str "Error: API Authentication Failure";
        str "Bug Report: Memory Leak in Service";
        str "Issue: Performance Degradation" ]
  | feature =>
      [ str "Feature Request: Dark Mode Implementation";
        str "Enhancement: Add Export to PDF";
        str "New Feature: Multi-factor Authentication";
        str "Request: Bulk Import Functionality";
        str "Suggestion: Dashboard Customization" ]
  | support =>
      [ str "Support: Unable to Access Account";
        str "Help Needed: Configuration Issues";
        str "Question: API Integration Steps";
        str "Assistance: Deployment Process";
        str "Support Request: User Management" ]
  | general =>
      [ str "Monthly Usage Report";
        str "Account Status Update";
        str "Team Access Request";
        str "Service Review Meeting Notes";
        str "Documentation Update" ]
  | unknownType => []
  end.

Definition PRIORITIES (p : Priority) : list jsstring :=
  match p with
  | high =>
      [ str "Production system down";
        str "Data loss risk";
        str "Security vulnerability";
        str "Critical business impact";
        str "Customer-facing issue" ]
  | medium =>
      [ str "Feature enhancement";
        str "Performance optimization";
        str "UI/UX improvement";
        str "Documentation update";
        str "Internal tool issue" ]
  | low =>
      [ str "Minor cosmetic issue";
        str "Non-urgent enhancement";
        str "Documentation typo";
        str "Optional feature request";
        str "Future consideration" ]
  | unknownPriority => []
  end.

Definition ACCOUNT_NUMBERS : list jsstring :=
  [ str "ACC123456"; str "ACC789012"; str "ACC345678"; str "ACC901234";
    str "ACC567890" ].

(** An entry of [ATTACHMENTS]. *)
Record StockAttachment := {
  sa_name : jsstring;
  sa_type : jsstring;
  sa_content : jsstring
}.

Definition ATTACHMENTS : list StockAttachment :=
  [ {| sa_name := str "error_log.txt"; sa_type := str "text/plain";
       sa_content := str "Error: NullPointerException at line 120" ++ [LF]
                     ++ str "Stack trace: ..." |};
    {| sa_name := str "screenshot.png"; sa_type := str "image/png";
       sa_content := str "Base64EncodedImageContent..." |};
    {| sa_name := str "config.json"; sa_type := str "application/json";
       sa_content := strq "{~debug~: true, ~environment~: ~production~}" |} ].

(** The name of a type or priority in a template. *)
Definition priorityName (p : Priority) : jsstring :=
  match p with
  | high => str "high"
  | medium => str "medium"
  | low => str "low"
  | unknownPriority => str "unknown"
  end.

Definition getImpactDescription (p : Priority) : jsstring :=
  match p with
  | high => str "System-wide impact affecting multiple users"
  | medium => str "Limited impact affecting specific functionality"
  | low => str "Minimal impact on system usage"
  | unknownPriority => str "Impact unknown"
  end.

Definition getBusinessValue (p : Priority) : jsstring :=
  match p with
  | high => str "Critical for business operations"
  | medium => str "Significant improvement to workflow"
  | low => str "Quality of life enhancement"
  | unknownPriority => str "Business value undefined"
  end.

Definition getProposedTimeline (p : Priority) : jsstring :=
  match p with
  | high => str "Next 2 weeks"
  | medium => str "Next quarter"
  | low => str "Future roadmap"
  | unknownPriority => str "Timeline undefined"
  end.

Definition getCurrentStatus (p : Priority) : jsstring :=
  match p with
  | high => str "System unusable"
  | medium => str "Workaround available"
  | low => str "Alternative solution in place"
  | unknownPriority => str "Status unknown"
  end.

Definition generalContexts : list jsstring :=
  [ str "Regular system maintenance";
    str "Process improvement initiative";
    str "Team collaboration update";
    str "Project status report";
    str "Quarterly review" ].

Section Generator.

(** The runtime: the numbers that [Math.random()] returns, the n-th of
    its results, [Math.floor(r * n)] for such a number, and
    [new Date().toISOString()].  The state of a computation is the
    number of results of [Math.random()] used so far. *)
Variable Random : Type.
Variable random : nat -> Random.
Variable floorTimes : Random -> nat -> nat.
Variable now : jsstring.

Definition mathRandom : M nat Random :=
  fun n => (Ok (random n), S n).

(** [table[Math.floor(Math.random() * table.length)]] *)
Definition pick (table : list jsstring) : M nat (option jsstring) :=
  let* r := mathRandom in
  ret (table !! floorTimes r (length table)).

Definition getGeneralContext : M nat jsstring :=
  let* r := mathRandom in
  ret (showOpt (generalContexts !! floorTimes r 5)).

Definition generateEmailBody (t : EmailType) (p : Priority)
  (details : jsstring) : M nat jsstring :=
  match t with
  | bug =>
      ret (str "I am reporting a " ++ priorityName p
           ++ str " priority issue in our system." ++ [LF; LF]
           ++ (str "Issue Details: " ++ details ++ [LF; LF])
           ++ (str "Impact: " ++ getImpactDescription p ++ [LF])
           ++ (str "Environment: Production" ++ [LF])
           ++ (str "Steps to Reproduce:" ++ [LF] ++ str "1. [Step 1]" ++ [LF]
               ++ str "2. [Step 2]" ++ [LF] ++ str "3. [Step 3]"))
  | feature =>
      ret (str "I would like to request a new feature with " ++ priorityName p
           ++ str " priority." ++ [LF; LF]
           ++ (str "Feature Details: " ++ details ++ [LF; LF])
           ++ (str "Business Value: " ++ getBusinessValue p ++ [LF])
           ++ (str "Target Users: [User Group]" ++ [LF])
           ++ (str "Proposed Timeline: " ++ getProposedTimeline p))
  | support =>
      ret (str "I need assistance with the following " ++ priorityName p
           ++ str " priority issue:" ++ [LF; LF]
           ++ (details ++ [LF; LF])
           ++ (str "Current Status: " ++ getCurrentStatus p ++ [LF])
           ++ (str "Last Action Taken: [Action]" ++ [LF])
           ++ str "Expected Outcome: [Outcome]")
  | general =>
      let* context := getGeneralContext in
      ret (str "This is a general communication regarding " ++ details
           ++ str "." ++ [LF; LF]
           ++ (str "Context: " ++ context ++ [LF])
           ++ (str "Next Steps: [Steps]" ++ [LF])
           ++ str "Timeline: [Timeline]")
  | unknownType => ret []
  end.

(** The block written for an entry of [ATTACHMENTS]. *)
Definition stockText (attachment : StockAttachment) : jsstring :=
  ([LF] ++ str "--ATTACHMENT--" ++ [LF])
  ++ (str "Filename: " ++ sa_name attachment ++ [LF])
  ++ (str "Content-Type: " ++ sa_type attachment ++ [LF])
  ++ (str "Content: " ++ sa_content attachment ++ [LF])
  ++ (str "--END-ATTACHMENT--" ++ [LF]).

Definition generateTestEmail (options : TestEmailData) : M nat jsstring :=
  let* subject :=
    match type options with
    | unknownType => ret (Some (str "No Subject"))
    | t => pick (SUBJECTS t)
    end in
  let* priorityDetails :=
    match priority options with
    | unknownPriority => ret (Some [])
    | p => pick (PRIORITIES p)
    end in
  let* accountNumber :=
    match withAccountNumber options with
    | Some true => pick ACCOUNT_NUMBERS
    | _ => ret None
    end in
  let email := str "Subject: " ++ showOpt subject ++ [LF] in
  let email := email ++ (str "From: test@example.com" ++ [LF]) in
  let email := email ++ (str "To: support@company.com" ++ [LF]) in
  let email := email ++ (str "Date: " ++ now ++ [LF; LF]) in
  let* email :=
    match withBody options with
    | Some false => ret email
    | _ =>
        let email := email ++ (str "Dear Support Team," ++ [LF; LF]) in
        match type options, priority options with
        | unknownType, _ | _, unknownPriority => ret email
        | t, p =>
            let* body := generateEmailBody t p (showOpt priorityDetails) in
            ret (email ++ (body ++ [LF; LF]))
        end
    end in
  let email :=
    match accountNumber with
    | Some (c :: s) => email ++ (str "Account Number: " ++ c :: s ++ [LF])
    | _ => email
    end in
  let email :=
    match attachments options with
    | Some provided =>
        foldl (fun email attachment => email ++ attachmentText attachment)
              email provided
    | None =>
        match withAttachments options with
        | Some true =>
            foldl (fun email attachment => email ++ stockText attachment)
                  email ATTACHMENTS
        | _ => email
        end
    end in
  ret email.

End Generator.
End TestDataGenerator.

(** The attachments that [generateTestEmail] writes for its options: the
    ones provided, or else the entries of [ATTACHMENTS] when attachments
    are asked for. *)
Definition writtenAttachments (options : TestDataGenerator.TestEmailData)
  : list Attachment :=
  match TestDataGenerator.attachments options with
  | Some provided => provided
  | None =>
      match TestDataGenerator.withAttachments options with
      | Some true =>
          List.map (fun a => {| at_filename := TestDataGenerator.sa_name a;
                                at_content := TestDataGenerator.sa_content a;
                                at_contentType := TestDataGenerator.sa_type a |})
                   TestDataGenerator.ATTACHMENTS
      | _ => []
      end
  end.

(** The subjects that [generateTestEmail] can write for a type. *)
Definition subjectsOf (t : TestDataGenerator.EmailType) : list jsstring :=
  match t with
  | TestDataGenerator.unknownType => [str "No Subject"]
  | t => TestDataGenerator.SUBJECTS t
  end.

(** The details that [generateTestEmail] can draw for a priority. *)
Definition detailsOf (p : TestDataGenerator.Priority) : list jsstring :=
  match p with
  | TestDataGenerator.unknownPriority => [[]]
  | p => TestDataGenerator.PRIORITIES p
  end.

(** A time stamp that is read back as a header value: on one line, not
    empty, not starting with white space. *)
Definition dateText (s : jsstring) : bool :=
  match s with
  | c :: _ => negb (isSpace c) && forallb dot s
  | [] => false
  end.

(** The header block that [generateTestEmail] writes. *)
Definition generatedHeader (subject now : jsstring) : list HeaderLine :=
  [ {| hl_key := str "Subject"; hl_gap := str " "; hl_value := subject |};
    {| hl_key := str "From"; hl_gap := str " ";
       hl_value := str "test@example.com" |};
    {| hl_key := str "To"; hl_gap := str " ";
       hl_value := str "support@company.com" |};
    {| hl_key := str "Date"; hl_gap := str " "; hl_value := now |} ].

(** The body that [generateEmailBody] returns when the context drawn is
    the [i]-th one. *)
Definition bodyOf (t : TestDataGenerator.EmailType)
  (p : TestDataGenerator.Priority) (details : jsstring) (i : nat)
  : jsstring :=
  match TestDataGenerator.generateEmailBody nat (fun _ => i) (fun r _ => r)
          t p details O with
  | (Ok body, _) => body
  | (Throw _, _) => []
  end.

(** The text that [generateTestEmail] writes between the header block
    and the attachments: the greeting with the body, and the account
    line. *)
Definition greetingText (t : TestDataGenerator.EmailType)
  (p : TestDataGenerator.Priority) (withBody : option bool)
  (details : jsstring) (i : nat) : jsstring :=
  match withBody with
  | Some false => []
  | _ =>
      str "Dear Support Team," ++ [LF; LF]
      ++ match t, p with
         | TestDataGenerator.unknownType, _
         | _, TestDataGenerator.unknownPriority => []
         | _, _ => bodyOf t p details i ++ [LF; LF]
         end
  end.

Definition accountLine (accountNumber : option jsstring) : jsstring :=
  match accountNumber with
  | Some (c :: s) => str "Account Number: " ++ c :: s ++ [LF]
  | _ => []
  end.

Definition writtenText (t : TestDataGenerator.EmailType)
  (p : TestDataGenerator.Priority) (withBody : option bool)
  (details : jsstring) (i : nat) (accountNumber : option jsstring)
  : jsstring :=
  greetingText t p withBody details i ++ accountLine accountNumber.

(** The types, the priorities and the settings of [withBody]. *)
Definition allTypes : list TestDataGenerator.EmailType :=
  [TestDataGenerator.bug; TestDataGenerator.feature;
   TestDataGenerator.support; TestDataGenerator.general;
   TestDataGenerator.unknownType].

Definition allPriorities : list TestDataGenerator.Priority :=
  [TestDataGenerator.high; TestDataGenerator.medium; TestDataGenerator.low;
   TestDataGenerator.unknownPriority].

Definition allFlags : list (option bool) := [None; Some true; Some false].

(** The contexts to look at for a type: the body of a general email
    alone holds the context drawn. *)
Definition contextsOf (t : TestDataGenerator.EmailType) : list nat :=
  match t with
  | TestDataGenerator.general => seq 0 5
  | _ => [O]
  end.

(** [s.trim()], reversed, in linear time. *)
Definition trimmedRev (s : jsstring) : jsstring :=
  trimStart (rev_append (trimStart s) []).

(** What the parser is to make of a text written between the header
    block and the attachments: no attachment is found in it; the body
    starts with the greeting unless the body is left out, ends with the
    account line when there is one, and is missing when nothing is
    written. *)
Definition textReadBack (withBody : option bool)
  (accountNumber : option jsstring) (text : jsstring) : bool :=
  negb (includes attachmentMarker text)
  && match withBody with
     | Some false => true
     | _ => startsWith (str "Dear Support Team,")
              (rev_append (trimmedRev text) [])
     end
  && match accountNumber with
     | Some account =>
         startsWith (rev_append (str "Account Number: " ++ account) [])
           (trimmedRev text)
     | None =>
         match withBody with
         | Some false => eqb (trimmedRev text) []
         | _ => true
         end
     end.

(** ** Further example inputs *)

(** An environment in which nothing throws: the provider answers with a
    JSON text, which parses to an analysis with nothing in it. *)
Definition lenientEnv : Env :=
  {| JSON_parse := fun _ => Ok (Some blankAnalysis);
     chat_open := fun _ _ => Ok (Some (str "{ }"));
     jira_createIssue := fun _ _ => jiraWorks;
     servicenow_createTicket := fun _ _ =>
       Ok (ResponseWith (Str (str "INC0001234")));
     fs_readFile := fun _ _ => Ok helloEmail;
     workspace_findFiles := fun _ => Ok [crashFile; helloFile];
     activeTextEditor := fun _ => Some helloEmail;
     Logger_debug := fun _ _ => Ok tt |}.

(** Two attachments as they are written into an email: a PDF, and a
    file whose payload is not base64. *)
Definition pdfAttachment : Attachment :=
  {| at_filename := str "b.pdf"; at_content := str "QUJD";
     at_contentType := str "application/pdf" |}.

Definition badAttachment : Attachment :=
  {| at_filename := str "a.bin"; at_content := str "!!";
     at_contentType := str "application/octet-stream" |}.

(** The chat model of the examples: it answers an email that speaks of a
    crash with the analysis of the bug report in a fenced block, and any
    other prompt in prose. *)
Definition fencedReply : jsstring :=
  str "Here is the analysis:" ++ [LF] ++ fenceOpen ++ bugJson ++ fenceClose
  ++ [LF] ++ str "Anything else?".

Definition fencedChat (history : list Call) (prompt : jsstring)
  : Result JsValue :=
  Ok (VString (if includes (str "crash") prompt then fencedReply
               else str "I cannot analyze this email.")).

Definition silentChat (history : list Call) (prompt : jsstring)
  : Result JsValue := Ok VNull.

Definition bracesChat (history : list Call) (prompt : jsstring)
  : Result JsValue :=
  Ok (VString (str "Result: " ++ bugJson ++ str " (done)")).

(** [JSON.parse] on the texts of the examples. *)
Definition parseJson (text : jsstring) : Result Json :=
  if eqb text bugJson then Ok (JObject bugAnalysis)
  else Throw (ErrorObj (str "Unexpected token 'I', is not valid JSON")).

Definition noStringify (object : JsObject (option jsstring)) : jsstring :=
  str "{}".

(** The bug report with the lists and the additional fields that the
    prompt asks for, its JSON text, and a chat model that answers with
    it. *)
Definition fullAnalysis : EmailAnalysis :=
  {| requestType := Str (str "Bug Report");
     priority := Str (str "High");
     keyPoints := ArrayOf [str "App crashes"];
     actionItems := ArrayOf [];
     accountNumber := Str (str "ACC123456");
     customerId := Absent;
     subject := Absent;
     content := Absent;
     additionalFields := ObjectWith [(str "version", str "2.1")];
     an_attachments := [] |}.

Definition fullJson : jsstring :=
  strq "{~requestType~:~Bug Report~,~priority~:~High~,~keyPoints~:[~App crashes~],~actionItems~:[],~accountNumber~:~ACC123456~,~additionalFields~:{~version~:~2.1~}}".

Definition fullChat (history : list Call) (prompt : jsstring)
  : Result JsValue := Ok (VString fullJson).

Definition parseFull (text : jsstring) : Result Json :=
  if eqb text bugJson then Ok (JObject bugAnalysis)
  else if eqb text fullJson then Ok (JObject fullAnalysis)
  else Throw (ErrorObj (str "Unexpected token 'I', is not valid JSON")).

(** The host right after the activation of the extension, and a
    workspace in which every document holds the crash report. *)
Definition exampleHost : Host := {| shared := exampleState; window := [] |}.

Definition crashDocuments (events : list UiEvent) (uri : Uri)
  : Result jsstring := Ok crashEmail.

Definition crashEnv : Env :=
  {| JSON_parse := stubParse;
     chat_open := fun _ prompt => Ok (crashOnly prompt);
     jira_createIssue := fun _ _ => jiraWorks;
     servicenow_createTicket := fun _ _ =>
       Ok (ResponseWith (Str (str "INC0001234")));
     fs_readFile := fun _ _ => Ok crashEmail;
     workspace_findFiles := fun _ => Ok [crashFile];
     activeTextEditor := fun _ => Some crashEmail;
     Logger_debug := fun _ _ => Ok tt |}.

Definition noEditorEnv : Env :=
  {| JSON_parse := stubParse;
     chat_open := fun _ prompt => Ok (crashOnly prompt);
     jira_createIssue := fun _ _ => jiraWorks;
     servicenow_createTicket := fun _ _ =>
       Ok (ResponseWith (Str (str "INC0001234")));
     fs_readFile := fun _ _ => Ok crashEmail;
     workspace_findFiles := fun _ => Ok [crashFile];
     activeTextEditor := fun _ => None;
     Logger_debug := fun _ _ => Ok tt |}.

(** The logger before [initialize], a clock that stands still, a file
    system that writes every file, and one that refuses the log file. *)
Definition freshWorld : LoggerWorld :=
  {| outputChannel := None; logFile := None; extensionContext := None;
     channels := []; files := ∅; clock := 0 |}.

Definition stillClock (n : nat) : jsstring := str "2025-08-10T10:00:00.000Z".

Definition slashJoin (dir name : jsstring) : jsstring := dir ++ str "/" ++ name.

Definition writable (path : jsstring) : option Thrown := None.

Definition readOnly (path : jsstring) : option Thrown :=
  Some (ErrorObj (str "EACCES: permission denied")).

Definition exampleContext : ExtensionContext :=
  {| extensionPath := str "/ext" |}.

(** The logger after [initialize]. *)
Definition loggingWorld : LoggerWorld :=
  snd (Logger.initialize stillClock slashJoin writable exampleContext
                         freshWorld).

(** The logger of a handler that was built without the activation of
    the extension: every call throws. *)
Definition uninitialisedLogger (history : list Call) (message : jsstring)
  : Result unit :=
  fst (Logger.debug stillClock writable message freshWorld).

Definition noLoggerEnv : Env :=
  {| JSON_parse := stubParse;
     chat_open := fun _ prompt => Ok (crashOnly prompt);
     jira_createIssue := fun _ _ => jiraWorks;
     servicenow_createTicket := fun _ _ =>
       Ok (ResponseWith (Str (str "INC0001234")));
     fs_readFile := fun _ _ => Ok crashEmail;
     workspace_findFiles := fun _ => Ok [crashFile];
     activeTextEditor := fun _ => Some crashEmail;
     Logger_debug := uninitialisedLogger |}.

(** A run of the generator: the n-th result of [Math.random()] is a
    number [r] for which [Math.floor(r * k)] is [n mod k]; a time stamp;
    the options of a bug report of high priority with the stock
    attachments and an account number. *)
Definition drawInTurn (n : nat) : nat := n.

Definition floorOfDraw (r k : nat) : nat := r mod k.

Definition exampleNow : jsstring := str "2025-08-10T10:00:00.000Z".

Definition bugOptions : TestDataGenerator.TestEmailData :=
  {| TestDataGenerator.type := TestDataGenerator.bug;
     TestDataGenerator.priority := TestDataGenerator.high;
     TestDataGenerator.withBody := None;
     TestDataGenerator.withAttachments := Some true;
     TestDataGenerator.withAccountNumber := Some true;
     TestDataGenerator.attachments := None |}.

(** * Properties *)

(** ** Strings *)

Lemma eqb_eq (a b : jsstring) : eqb a b = true <-> a = b.
Proof.
  revert b; induction a as [|x a IH]; intros [|y b]; simpl; try easy.
  rewrite andb_true_iff, N.eqb_eq, IH. split.
  - intros [-> ->]; reflexivity.
  - intros [= -> ->]; auto.
Qed.

Lemma eqb_refl (a : jsstring) : eqb a a = true.
Proof. apply eqb_eq; reflexivity. Qed.

Lemma startsWith_app (p s : jsstring) : startsWith p (p ++ s) = true.
Proof. induction p as [|x p IH]; simpl; [easy|]. now rewrite N.eqb_refl. Qed.

Lemma startsWith_iff (p s : jsstring) :
  startsWith p s = true <-> exists t, s = p ++ t.
Proof.
  split.
  - revert s; induction p as [|x p IH]; intros s H.
    + now exists s.
    + destruct s as [|y s]; simpl in H; [easy|].
      apply andb_true_iff in H as [Hx Hp]. apply N.eqb_eq in Hx as ->.
      destruct (IH _ Hp) as [t ->]. now exists t.
  - intros [t ->]. apply startsWith_app.
Qed.

Lemma includes_iff (w s : jsstring) :
  includes w s = true <-> exists a b, s = a ++ w ++ b.
Proof.
  split.
  - induction s as [|c s IH]; simpl; rewrite orb_true_iff.
    + intros [H|H]; [|easy]. apply startsWith_iff in H as [t H].
      exists [], t. exact H.
    + intros [H|H].
      * apply startsWith_iff in H as [t H]. exists [], t. exact H.
      * destruct (IH H) as (a & b & ->). now exists (c :: a), b.
  - intros (a & b & ->). induction a as [|c a IH]; simpl.
    + destruct (w ++ b) eqn:E; simpl; rewrite <- E, startsWith_app; easy.
    + rewrite IH. apply orb_true_r.
Qed.

Lemma includes_app_r (w a b : jsstring) :
  includes w b = true -> includes w (a ++ b) = true.
Proof.
  rewrite !includes_iff. intros (x & y & ->).
  exists (a ++ x), y. now rewrite <- app_assoc.
Qed.

Lemma includes_app_l (w a b : jsstring) :
  includes w a = true -> includes w (a ++ b) = true.
Proof.
  rewrite !includes_iff. intros (x & y & ->).
  exists x, (y ++ b). now rewrite <- !app_assoc.
Qed.

Lemma includes_self_app (w b : jsstring) : includes w (w ++ b) = true.
Proof. apply includes_iff. now exists [], b. Qed.

Lemma includes_refl (w : jsstring) : includes w w = true.
Proof. apply includes_iff. exists [], []. now rewrite app_nil_r. Qed.

(** Lower-casing keeps an occurrence of a text that is already in lower
    case. *)
Lemma includes_toLowerCase (w s : jsstring) :
  toLowerCase w = w -> includes w s = true ->
  includes w (toLowerCase s) = true.
Proof.
  intros Hw. rewrite !includes_iff. intros (a & b & ->).
  exists (toLowerCase a), (toLowerCase b).
  unfold toLowerCase in *. now rewrite !flat_map_app, Hw.
Qed.

(** ** TicketClassifier *)

(** The rule chain of the code is the first-match evaluation of the
    rules of the specification. *)
Lemma ruleChain_firstMatch (content subject requestType : jsstring) :
  ruleChain content subject requestType =
  firstMatch classifierRules requestType subject content.
Proof.
  unfold ruleChain, classifierRules, firstMatch, existsb.
  rewrite !orb_false_r, !orb_assoc. reflexivity.
Qed.

(** Membership in a list literal, found by looking at the terms. *)
Ltac in_literal :=
  repeat lazymatch goal with
         | |- ?x ∈ ?x :: _ => apply list_elem_of_here
         | |- _ ∈ _ :: _ => apply list_elem_of_further
         end.

Lemma ruleChain_cases (content subject requestType : jsstring) :
  ruleChain content subject requestType ∈ ticketTypes.
Proof.
  unfold ruleChain, ticketTypes.
  repeat match goal with
         | |- context [if ?c then _ else _] => destruct c
         end; in_literal.
Qed.

(** On an analysis whose three properties can be lower-cased the
    classifier returns, with the result of the rule chain. *)
Lemma classify_lowered (a : EmailAnalysis) (r s c : jsstring) :
  lowered a.(requestType) = Some r ->
  lowered a.(subject) = Some s ->
  lowered a.(content) = Some c ->
  classifyTicketType a = Ok (ruleChain c s r).
Proof.
  intros Hr Hs Hc. unfold classifyTicketType. now rewrite Hc, Hs, Hr.
Qed.

Lemma classify_firstMatch (a : EmailAnalysis) (r s c : jsstring) :
  lowered a.(requestType) = Some r ->
  lowered a.(subject) = Some s ->
  lowered a.(content) = Some c ->
  classifyTicketType a = Ok (firstMatch classifierRules r s c).
Proof.
  intros Hr Hs Hc. rewrite (classify_lowered a r s c Hr Hs Hc).
  now rewrite ruleChain_firstMatch.
Qed.

(** The classifier depends on the analysis through the three lower-cased
    properties alone, also where it throws. *)
Lemma classify_ext (a b : EmailAnalysis) :
  lowered b.(requestType) = lowered a.(requestType) ->
  lowered b.(subject) = lowered a.(subject) ->
  lowered b.(content) = lowered a.(content) ->
  classifyTicketType b = classifyTicketType a.
Proof.
  intros Hr Hs Hc. unfold classifyTicketType. now rewrite Hr, Hs, Hc.
Qed.

(** What the classifier returns is one of the seven categories. *)
Lemma classify_cases (a : EmailAnalysis) (t : jsstring) :
  classifyTicketType a = Ok t -> t ∈ ticketTypes.
Proof.
  unfold classifyTicketType.
  destruct (lowered a.(content)) as [c|]; [|discriminate].
  destruct (lowered a.(subject)) as [s|]; [|discriminate].
  destruct (lowered a.(requestType)) as [r|]; [|discriminate].
  intros [= <-]. apply ruleChain_cases.
Qed.

Lemma lowered_isText (f : field) : isText f = true <-> is_Some (lowered f).
Proof.
  destruct f; simpl; split; intros H; try reflexivity; try discriminate;
    try (eexists; reflexivity).
  destruct H as [x H]. discriminate.
Qed.

(** The classifier returns exactly on the analyses whose request type,
    subject and content are strings, [null] or missing. *)
Lemma classify_returns_iff (a : EmailAnalysis) :
  (exists t, classifyTicketType a = Ok t) <->
  isText a.(requestType) = true /\ isText a.(subject) = true
  /\ isText a.(content) = true.
Proof.
  unfold classifyTicketType.
  destruct a.(content) as [| |c|c ?], a.(subject) as [| |s|s ?],
    a.(requestType) as [| |r|r ?]; simpl;
    (split; [intros [t H]; try discriminate; repeat split
            |intros (Hr & Hs & Hc); try discriminate; eexists; reflexivity]).
Qed.

Lemma lowered_orEmpty (f : field) : lowered (orEmpty f) = lowered f.
Proof. now destruct f. Qed.

Lemma lowered_missing (f : field) : isMissing f = true -> lowered f = Some [].
Proof. now destruct f. Qed.

(** C1.  On an analysis whose request type, subject and content are
    strings or missing, with [requestType], [subject] and [content] their
    lower-cased texts, the classifier returns the first-match evaluation
    of the ordered rule chain of the specification on these three texts,
    and it depends on the analysis only through them.  In particular a
    request type equal to "bug report" after lower-casing, or a content
    with "bug" or "crash" in it (before or after lower-casing), gives
    [jira-bug] whatever else matches, and an analysis for which no rule
    holds gives [servicenow-request]. *)
Theorem C1_classifier_rule_chain (a : EmailAnalysis) (r s c : jsstring) :
  lowered a.(requestType) = Some r ->
  lowered a.(subject) = Some s ->
  lowered a.(content) = Some c ->
  classifyTicketType a = Ok (firstMatch classifierRules r s c)
  /\ (forall b : EmailAnalysis,
        lowered b.(requestType) = lowered a.(requestType) ->
        lowered b.(subject) = lowered a.(subject) ->
        lowered b.(content) = lowered a.(content) ->
        classifyTicketType b = classifyTicketType a)
  /\ (r = str "bug report"
      \/ includes (str "bug") c = true
      \/ includes (str "crash") c = true
      \/ (exists text, a.(content) = Str text /\
                       (includes (str "bug") text = true
                        \/ includes (str "crash") text = true)) ->
      classifyTicketType a = Ok (str "jira-bug"))
  /\ (Forall (fun rule' : rule => fst rule' r s c = false) classifierRules ->
      classifyTicketType a = Ok (str "servicenow-request")).
Proof.
  intros Hr Hs Hc.
  split; [now apply classify_firstMatch|]. split; [|split].
  - intros b. apply classify_ext.
  - intros H.
    assert (eqb r (str "bug report") || includes (str "bug") c
            || includes (str "crash") c = true) as Hb.
    { destruct H as [H|[H|[H|(text & Ht & H)]]].
      - rewrite H, eqb_refl. reflexivity.
      - rewrite H. now rewrite orb_true_r.
      - rewrite H. now rewrite orb_true_r.
      - rewrite Ht in Hc. simpl in Hc. injection Hc as <-.
        destruct H as [H|H];
          apply includes_toLowerCase in H; try reflexivity;
          rewrite H; now rewrite ?orb_true_r. }
    rewrite (classify_lowered a r s c Hr Hs Hc). unfold ruleChain.
    now rewrite Hb.
  - intros H. rewrite (classify_firstMatch a r s c Hr Hs Hc). f_equal.
    induction H as [|[cond cat] rules Hrule _ IH]; simpl; [reflexivity|].
    simpl in Hrule. now rewrite Hrule.
Qed.

(** C10.  The classifier returns exactly on the analyses whose request
    type, subject and content are each a string, [null] or missing; on
    these it returns one of the seven categories.  When one of the three
    is a value of another type (a number, a boolean, an array, an object)
    the classifier throws, the [TypeError] of calling [toLowerCase] on it.
    A property that is [null] or missing counts as the empty string, and
    with the request type, the subject and the content all missing the
    result is [servicenow-request]. *)
Theorem C10_classifier_total_on_texts (a : EmailAnalysis) :
  (isText a.(requestType) = true -> isText a.(subject) = true ->
   isText a.(content) = true ->
   exists t, classifyTicketType a = Ok t /\ t ∈ ticketTypes)
  /\ (isText a.(requestType) = false \/ isText a.(subject) = false
      \/ isText a.(content) = false ->
      exists callee, classifyTicketType a = Throw (notAFunction callee))
  /\ classifyTicketType a = classifyTicketType (withEmptyDefaults a)
  /\ (isMissing a.(requestType) = true ->
      isMissing a.(subject) = true ->
      isMissing a.(content) = true ->
      classifyTicketType a = Ok (str "servicenow-request")).
Proof.
  split; [|split; [|split]].
  - intros Hr Hs Hc.
    destruct (proj2 (classify_returns_iff a) (conj Hr (conj Hs Hc))) as [t H].
    exists t. split; [exact H|]. exact (classify_cases a t H).
  - intros H. unfold classifyTicketType.
    destruct (lowered a.(content)) as [c|] eqn:Ec; [|eexists; reflexivity].
    destruct (lowered a.(subject)) as [s|] eqn:Es; [|eexists; reflexivity].
    destruct (lowered a.(requestType)) as [r|] eqn:Er;
      [|eexists; reflexivity].
    exfalso.
    destruct H as [H|[H|H]];
      [destruct a.(requestType)|destruct a.(subject)|destruct a.(content)];
      discriminate.
  - symmetry. apply classify_ext; simpl; apply lowered_orEmpty.
  - intros Hr Hs Hc.
    rewrite (classify_lowered a [] [] [] (lowered_missing _ Hr)
               (lowered_missing _ Hs) (lowered_missing _ Hc)).
    reflexivity.
Qed.

(** ** FieldValidator *)

Lemma validate_unmet (a : EmailAnalysis) : validateRequiredFields a = unmet a.
Proof.
  unfold validateRequiredFields, unmet, requirements, pushIf. simpl.
  rewrite negb_orb.
  destruct (truthy a.(requestType)), (truthy a.(priority)),
    (truthy a.(accountNumber)), (truthy a.(customerId)),
    (truthy a.(subject)); simpl; reflexivity.
Qed.

(** C2.  The validator returns the unmet requirements, in the fixed order
    Request Type, Priority, Account Number/Customer ID, Subject; the result
    is empty exactly when the analysis is valid; with neither an account
    number nor a customer id the result has "Account Number/Customer ID". *)
Theorem C2_validator_missing_fields (a : EmailAnalysis) :
  validateRequiredFields a = unmet a
  /\ (validateRequiredFields a = [] <-> isValid a = true)
  /\ (truthy a.(accountNumber) = false ->
      truthy a.(customerId) = false ->
      str "Account Number/Customer ID" ∈ validateRequiredFields a).
Proof.
  split; [apply validate_unmet|]. rewrite validate_unmet.
  unfold unmet, isValid, requirements. simpl. split.
  - destruct (truthy a.(requestType)), (truthy a.(priority)),
      (truthy a.(accountNumber)), (truthy a.(customerId)),
      (truthy a.(subject)); simpl; split; congruence.
  - intros -> ->. simpl.
    destruct (truthy a.(requestType)), (truthy a.(priority)),
      (truthy a.(subject)); simpl; in_literal.
Qed.

(** ** The matcher on character classes *)

Section StarEquations.
Context {R : Type}.
Implicit Types (k : cursor -> captures -> option R).

Lemma run_eps c caps k : run Eps c caps k = k c caps.
Proof. reflexivity. Qed.

Lemma run_chr p c caps k :
  run (Chr p) c caps k =
  match rest c with
  | x :: t => if p x then k (Cursor (x :: before c) t) caps else None
  | [] => None
  end.
Proof. reflexivity. Qed.

Lemma run_seq a b c caps k :
  run (Seq a b) c caps k = run a c caps (fun c' caps' => run b c' caps' k).
Proof. reflexivity. Qed.

Lemma run_group i a c caps k :
  run (Group i a) c caps k =
  run a c caps (fun c' caps' => k c' ((i, consumed c c') :: caps')).
Proof. reflexivity. Qed.

Lemma run_lineStart c caps k :
  run LineStart c caps k = if atLineStart c then k c caps else None.
Proof. reflexivity. Qed.

Lemma run_lineEnd c caps k :
  run LineEnd c caps k = if atLineEnd c then k c caps else None.
Proof. reflexivity. Qed.

Lemma run_star_nil g a b caps k :
  run (Star g a) (Cursor b []) caps k = k (Cursor b []) caps.
Proof. reflexivity. Qed.

Lemma run_star_greedy_cons p b x t caps k :
  run (Star true (Chr p)) (Cursor b (x :: t)) caps k =
  if p x
  then match run (Star true (Chr p)) (Cursor (x :: b) t) caps k with
       | Some res => Some res
       | None => k (Cursor b (x :: t)) caps
       end
  else k (Cursor b (x :: t)) caps.
Proof.
  cbn. destruct (p x); [|reflexivity].
  now rewrite Nat.leb_refl.
Qed.

Lemma run_star_lazy_cons p b x t caps k :
  run (Star false (Chr p)) (Cursor b (x :: t)) caps k =
  match k (Cursor b (x :: t)) caps with
  | Some res => Some res
  | None =>
      if p x then run (Star false (Chr p)) (Cursor (x :: b) t) caps k
      else None
  end.
Proof.
  cbn. destruct (k _ _); [reflexivity|]. destruct (p x); [|reflexivity].
  now rewrite Nat.leb_refl.
Qed.

(** A greedy star over a class takes the whole run when the rest of the
    pattern matches after it. *)
Lemma run_star_greedy_max p pre post b caps k res :
  forallb p pre = true -> stops p post ->
  k (Cursor (rev pre ++ b) post) caps = Some res ->
  run (Star true (Chr p)) (Cursor b (pre ++ post)) caps k = Some res.
Proof.
  revert b. induction pre as [|x pre IH]; intros b Hpre Hpost Hk.
  - cbn [app rev] in *. destruct post as [|y post]; [exact Hk|].
    rewrite run_star_greedy_cons. simpl in Hpost. now rewrite Hpost.
  - simpl in Hpre. apply andb_true_iff in Hpre as [Hx Hpre].
    change ((x :: pre) ++ post) with (x :: (pre ++ post)).
    rewrite run_star_greedy_cons, Hx.
    rewrite (IH (x :: b)); auto.
    simpl in Hk. now rewrite <- app_assoc in Hk.
Qed.

Lemma run_plus_greedy_max p x pre post b caps k res :
  forallb p (x :: pre) = true -> stops p post ->
  k (Cursor (rev (x :: pre) ++ b) post) caps = Some res ->
  run (Plus (Chr p)) (Cursor b ((x :: pre) ++ post)) caps k = Some res.
Proof.
  intros Hpre Hpost Hk. simpl in Hpre.
  apply andb_true_iff in Hpre as [Hx Hpre].
  unfold Plus. cbn [run rest before app]. rewrite Hx.
  apply run_star_greedy_max; auto.
  simpl in Hk. now rewrite <- app_assoc in Hk.
Qed.

(** Whatever a star over a class returns comes from the rest of the
    pattern, after some run of the class. *)
Lemma run_star_chr_sound g p s b caps k res :
  run (Star g (Chr p)) (Cursor b s) caps k = Some res ->
  exists pre post, s = pre ++ post /\ forallb p pre = true /\
                   k (Cursor (rev pre ++ b) post) caps = Some res.
Proof.
  revert b. induction s as [|x s IH]; intros b H.
  - rewrite run_star_nil in H. now exists [], [].
  - assert (k (Cursor b (x :: s)) caps = Some res \/
            (p x = true /\
             run (Star g (Chr p)) (Cursor (x :: b) s) caps k = Some res))
      as [Hk|[Hx Hr]].
    { destruct g.
      - rewrite run_star_greedy_cons in H. destruct (p x); [|now left].
        destruct (run _ _ _ _) eqn:E; [right|left]; auto.
      - rewrite run_star_lazy_cons in H.
        destruct (k _ _) eqn:E; [now left|].
        destruct (p x); [now right|discriminate]. }
    + now exists [], (x :: s).
    + destruct (IH _ Hr) as (pre & post & -> & Hpre & Hk).
      exists (x :: pre), post. simpl. rewrite Hx, Hpre.
      repeat split; auto. now rewrite <- app_assoc.
Qed.

End StarEquations.

(** One step of the matcher at the head of a hypothesis or of the goal,
    leaving the stars to their lemmas. *)
Ltac run_step :=
  repeat first
    [ rewrite run_seq | rewrite run_group | rewrite run_chr
    | rewrite run_eps | rewrite run_lineStart | rewrite run_lineEnd ];
  cbn [rest before].

Ltac run_step_in H :=
  repeat first
    [ rewrite run_seq in H | rewrite run_group in H | rewrite run_chr in H
    | rewrite run_eps in H | rewrite run_lineStart in H
    | rewrite run_lineEnd in H ];
  cbn [rest before] in H.

(** ** The header pattern on a well-formed line *)

Lemma consumed_app b b' pre post :
  consumed (Cursor b (pre ++ post)) (Cursor b' post) = pre.
Proof.
  unfold consumed. cbn [rest]. rewrite length_app.
  replace (length pre + length post - length post)%nat with (length pre) by lia.
  apply take_app_length.
Qed.

Lemma stops_dot_lineEnd b tail : stops dot tail -> atLineEnd (Cursor b tail) = true.
Proof.
  destruct tail as [|x tail]; [reflexivity|]. unfold stops, dot, atLineEnd.
  cbn [rest]. now intros ->%negb_false_iff.
Qed.

Lemma wellFormedLine_inv (l : HeaderLine) :
  wellFormedLine l = true ->
  exists k ks v vs,
    hl_key l = k :: ks /\ hl_value l = v :: vs /\
    forallb keyChar (k :: ks) = true /\
    forallb isSpace (hl_gap l) = true /\
    forallb dot (hl_gap l) = true /\
    isSpace v = false /\ forallb dot (v :: vs) = true.
Proof.
  unfold wellFormedLine.
  destruct (hl_key l) as [|k ks] eqn:Ek; [discriminate|].
  destruct (hl_value l) as [|v vs] eqn:Ev; [discriminate|].
  rewrite !andb_true_iff, negb_true_iff. intros [[[Hk Hg] Hv] Hd].
  exists k, ks, v, vs. repeat split; auto.
  - apply forallb_forall. intros x Hx.
    rewrite forallb_forall in Hg. specialize (Hg x Hx).
    unfold inlineSpace in Hg. now apply andb_true_iff in Hg as [? ?].
  - apply forallb_forall. intros x Hx.
    rewrite forallb_forall in Hg. specialize (Hg x Hx).
    unfold inlineSpace in Hg. now apply andb_true_iff in Hg as [? ?].
Qed.

Lemma exec_header_line (l : HeaderLine) b tail :
  wellFormedLine l = true ->
  atLineStart (Cursor b []) = true ->
  stops dot tail ->
  exec headerRegex (Cursor b (renderLine l ++ tail)) =
  Some (Cursor (rev (renderLine l) ++ b) tail, groups (lineMatch l)).
Proof.
  intros Hwf Hb Htail.
  destruct (wellFormedLine_inv l Hwf)
    as (k & ks & v & vs & Ek & Ev & Hk & Hg & _ & Hv & Hd).
  unfold exec, headerRegex, renderLine, lineMatch. cbn [groups].
  rewrite Ek, Ev. unfold Lit. cbn [foldr].
  run_step.
  change (atLineStart {| before := b; rest := ((k :: ks) ++ [58] ++ hl_gap l ++ v :: vs) ++ tail |})
    with (atLineStart (Cursor b [])).
  rewrite Hb. run_step.
  rewrite <- !app_assoc.
  apply run_plus_greedy_max; [exact Hk|reflexivity|].
  rewrite consumed_app. run_step.
  cbn [app]. rewrite N.eqb_refl. run_step.
  apply run_star_greedy_max; [exact Hg|exact Hv|]. run_step.
  change (v :: vs ++ tail) with ((v :: vs) ++ tail).
  apply run_plus_greedy_max; [exact Hd|exact Htail|]. run_step.
  rewrite stops_dot_lineEnd by exact Htail.
  rewrite consumed_app. f_equal. f_equal. f_equal.
  cbn [rev app]. repeat (rewrite !rev_app_distr; cbn [rev app]).
  rewrite <- !app_assoc. reflexivity.
Qed.

(** ** The scan of the header block *)

Lemma hits_inr m items : hits (inr m :: items) = m :: hits items.
Proof. reflexivity. Qed.

Lemma hits_inl x items : hits (inl x :: items) = hits items.
Proof. reflexivity. Qed.

Lemma scan_skip r xs b rest :
  scan r b (xs ++ rest) (length xs) = scan r (rev xs ++ b) rest O.
Proof.
  revert b; induction xs as [|x xs IH]; intros b; [reflexivity|].
  cbn [app length rev]. rewrite <- app_assoc. cbn [app].
  rewrite <- IH. reflexivity.
Qed.

Lemma scan_hit r b x t c' caps n :
  exec r (Cursor b (x :: t)) = Some (c', caps) ->
  length (consumed (Cursor b (x :: t)) c') = S n ->
  scan r b (x :: t) O =
  inr {| matched := consumed (Cursor b (x :: t)) c'; groups := caps |}
  :: scan r (x :: b) t n.
Proof. intros He Hn. cbn [scan]. rewrite He. cbn [matched]. now rewrite Hn. Qed.

Lemma scan_miss r b x t :
  exec r (Cursor b (x :: t)) = None ->
  scan r b (x :: t) O = inl x :: scan r (x :: b) t O.
Proof. intros He. cbn [scan]. now rewrite He. Qed.

Lemma scan_end_miss r b :
  exec r (Cursor b []) = None -> scan r b [] O = [].
Proof. intros He. cbn [scan]. now rewrite He. Qed.

Lemma exec_header_not_lineStart b s :
  atLineStart (Cursor b []) = false -> exec headerRegex (Cursor b s) = None.
Proof.
  intros Hb. unfold exec, headerRegex. cbn [run].
  change (atLineStart (Cursor b s)) with (atLineStart (Cursor b [])).
  now rewrite Hb.
Qed.

Lemma exec_header_empty b : exec headerRegex (Cursor b []) = None.
Proof.
  unfold exec, headerRegex. cbn [run Plus rest]. now destruct (atLineStart _).
Qed.

(** After a well-formed line the scan is inside the line, not at the
    start of one. *)
Lemma not_lineStart_after_line (l : HeaderLine) b :
  wellFormedLine l = true ->
  atLineStart (Cursor (rev (renderLine l) ++ b) []) = false.
Proof.
  intros Hwf.
  destruct (wellFormedLine_inv l Hwf)
    as (k & ks & v & vs & Ek & Ev & Hk & Hg & _ & Hv & Hd).
  unfold renderLine. rewrite Ev, !rev_app_distr, <- !app_assoc.
  assert (forallb dot (rev (v :: vs)) = true) as Hr.
  { apply forallb_forall. intros x Hx%in_rev.
    rewrite forallb_forall in Hd. auto. }
  destruct (rev (v :: vs)) as [|y w] eqn:E.
  - apply (f_equal length) in E. rewrite length_rev in E. discriminate.
  - cbn [app atLineStart before]. simpl in Hr.
    apply andb_true_iff in Hr as [Hy _]. unfold dot in Hy.
    now apply negb_true_iff in Hy.
Qed.

Lemma scan_line (l : HeaderLine) b tail :
  wellFormedLine l = true ->
  atLineStart (Cursor b []) = true ->
  stops dot tail ->
  scan headerRegex b (renderLine l ++ tail) O =
  inr (lineMatch l) :: scan headerRegex (rev (renderLine l) ++ b) tail O.
Proof.
  intros Hwf Hb Htail.
  pose proof (exec_header_line l b tail Hwf Hb Htail) as He.
  destruct (renderLine l) as [|x t] eqn:El.
  { destruct (wellFormedLine_inv l Hwf) as (k & ks & ? & ? & Ek & _).
    unfold renderLine in El. rewrite Ek in El. discriminate. }
  cbn [app] in *.
  rewrite (scan_hit _ _ _ _ _ _ (length t) He).
  - change (x :: t ++ tail) with ((x :: t) ++ tail).
    rewrite consumed_app, scan_skip. unfold lineMatch. rewrite El.
    cbn [rev]. now rewrite <- app_assoc.
  - change (x :: t ++ tail) with ((x :: t) ++ tail).
    now rewrite consumed_app.
Qed.

Lemma scan_block (ls : list HeaderLine) b :
  forallb wellFormedLine ls = true ->
  atLineStart (Cursor b []) = true ->
  hits (scan headerRegex b (renderBlock ls) O) = List.map lineMatch ls.
Proof.
  revert b. induction ls as [|l ls IH]; intros b Hwf Hb.
  - unfold renderBlock. cbn [List.map join].
    now rewrite scan_end_miss by apply exec_header_empty.
  - cbn [forallb] in Hwf. apply andb_true_iff in Hwf as [Hl Hls].
    destruct ls as [|l2 ls].
    + unfold renderBlock. cbn [List.map join].
      rewrite <- (app_nil_r (renderLine l)).
      rewrite scan_line by (auto; exact I).
      rewrite scan_end_miss; [reflexivity|].
      apply exec_header_not_lineStart, not_lineStart_after_line, Hl.
    + change (renderBlock (l :: l2 :: ls))
        with (renderLine l ++ [LF] ++ renderBlock (l2 :: ls)).
      rewrite scan_line by (auto; reflexivity).
      cbn [app]. rewrite scan_miss
        by (apply exec_header_not_lineStart, not_lineStart_after_line, Hl).
      rewrite hits_inr, hits_inl.
      rewrite (IH (LF :: rev (renderLine l) ++ b) Hls); reflexivity.
Qed.

Lemma matchAll_header_block (ls : list HeaderLine) :
  forallb wellFormedLine ls = true ->
  matchAll headerRegex (renderBlock ls) = List.map lineMatch ls.
Proof. intros H. unfold matchAll. now apply scan_block. Qed.

(** ** The header block of an email *)

Lemma dot_not_LF c : dot c = true -> (LF =? c) = false.
Proof.
  unfold dot, isLineTerminator, LF. intros H%negb_true_iff.
  apply orb_false_iff in H as [H _]. apply orb_false_iff in H as [H _].
  apply orb_false_iff in H as [H _]. now rewrite N.eqb_sym.
Qed.

Lemma keyChar_dot c : keyChar c = true -> dot c = true.
Proof.
  unfold keyChar, dot, isLineTerminator. intros H.
  apply negb_true_iff. rewrite !orb_false_iff, !N.eqb_neq.
  rewrite !orb_true_iff, !andb_true_iff, !N.leb_le, N.eqb_eq in H. lia.
Qed.

Lemma renderLine_dot (l : HeaderLine) :
  wellFormedLine l = true -> forallb dot (renderLine l) = true.
Proof.
  intros Hwf.
  destruct (wellFormedLine_inv l Hwf)
    as (k & ks & v & vs & Ek & Ev & Hk & _ & Hg & _ & Hd).
  rewrite <- Ek in Hk. rewrite <- Ev in Hd.
  unfold renderLine. rewrite !forallb_app, Hg, Hd.
  rewrite !andb_true_r. apply forallb_forall. intros x Hx.
  rewrite forallb_forall in Hk. apply keyChar_dot; auto.
Qed.

Lemma splitGo_line line t cur :
  forallb dot line = true ->
  splitGo [LF; LF] (line ++ t) O cur = splitGo [LF; LF] t O (rev line ++ cur).
Proof.
  revert cur. induction line as [|x line IH]; intros cur H; [reflexivity|].
  simpl in H. apply andb_true_iff in H as [Hx H].
  cbn [app splitGo startsWith]. rewrite (dot_not_LF _ Hx). cbn [andb].
  rewrite IH by exact H. cbn [rev]. now rewrite <- app_assoc.
Qed.

Lemma renderBlock_head (l : HeaderLine) ls :
  wellFormedLine l = true ->
  exists y t, renderBlock (l :: ls) = y :: t /\ dot y = true.
Proof.
  intros Hwf. pose proof (renderLine_dot l Hwf) as Hd.
  destruct (wellFormedLine_inv l Hwf) as (k & ks & ? & ? & Ek & _).
  unfold renderBlock. cbn [List.map join].
  destruct (renderLine l) as [|y t] eqn:El.
  { unfold renderLine in El. rewrite Ek in El. discriminate. }
  simpl in Hd. apply andb_true_iff in Hd as [Hy _].
  destruct (List.map renderLine ls); eexists _, _; split; eauto; reflexivity.
Qed.

(** The header section of an email that starts with a well-formed header
    block is the block, when the email ends there or a blank line
    follows. *)
Lemma endsBlock_hd tail cur :
  endsBlock tail -> List.hd [] (splitGo [LF; LF] tail O cur) = rev cur.
Proof.
  intros [->|H]; [reflexivity|].
  destruct tail as [|x tail]; [discriminate|]. cbn [splitGo]. now rewrite H.
Qed.

Lemma headerSection_block (ls : list HeaderLine) tail cur :
  forallb wellFormedLine ls = true -> endsBlock tail ->
  List.hd [] (splitGo [LF; LF] (renderBlock ls ++ tail) O cur)
  = rev cur ++ renderBlock ls.
Proof.
  intros Hwf Htail. revert cur Hwf.
  induction ls as [|l ls IH]; intros cur Hwf.
  - unfold renderBlock. cbn [List.map join app].
    now rewrite endsBlock_hd, app_nil_r.
  - cbn [forallb] in Hwf. apply andb_true_iff in Hwf as [Hl Hls].
    destruct ls as [|l2 ls].
    + unfold renderBlock. cbn [List.map join].
      rewrite splitGo_line by now apply renderLine_dot.
      rewrite endsBlock_hd by exact Htail.
      now rewrite rev_app_distr, rev_involutive.
    + change (renderBlock (l :: l2 :: ls))
        with (renderLine l ++ [LF] ++ renderBlock (l2 :: ls)).
      rewrite <- !app_assoc.
      rewrite splitGo_line by now apply renderLine_dot.
      specialize (IH (LF :: rev (renderLine l) ++ cur) Hls).
      cbn [forallb] in Hls. apply andb_true_iff in Hls as [Hl2 _].
      destruct (renderBlock_head l2 ls Hl2) as (y & t & E & Hy).
      rewrite E in *. cbn [app splitGo startsWith].
      rewrite N.eqb_refl, (dot_not_LF _ Hy). cbn [andb].
      cbn [app splitGo startsWith] in IH.
      rewrite (dot_not_LF _ Hy) in IH. cbn [andb] in IH.
      rewrite IH. cbn [rev]. rewrite rev_app_distr, rev_involutive.
      now rewrite <- !app_assoc.
Qed.

Lemma group_lineMatch (l : HeaderLine) :
  group 1 (lineMatch l) = Some (hl_key l)
  /\ group 2 (lineMatch l) = Some (hl_value l).
Proof. split; reflexivity. Qed.

Lemma toLowerCase_cons x s : toLowerCase (x :: s) <> [].
Proof.
  unfold toLowerCase, lowerUnit. cbn [List.flat_map].
  repeat match goal with
         | |- context [if ?c then _ else _] => destruct c
         end; discriminate.
Qed.

Lemma setHeader_subject h (l : HeaderLine) :
  wellFormedLine l = true ->
  hdr_subject (setHeader h (lineMatch l)) =
  if eqb (toLowerCase (hl_key l)) (str "subject") then hl_value l
  else hdr_subject h.
Proof.
  intros Hwf.
  destruct (wellFormedLine_inv l Hwf) as (k & ks & v & vs & Ek & Ev & _).
  unfold setHeader. destruct (group_lineMatch l) as [-> ->].
  rewrite Ek, Ev. cbn [fmap option_fmap option_map].
  destruct (toLowerCase (k :: ks)) as [|k' key'] eqn:E.
  { now apply toLowerCase_cons in E. }
  repeat match goal with
         | |- context [if ?c then _ else _] => destruct c
         end; reflexivity.
Qed.

Lemma foldl_setHeader_subject (ls : list HeaderLine) h :
  forallb wellFormedLine ls = true ->
  hdr_subject (foldl setHeader h (List.map lineMatch ls)) =
  foldl (fun acc l =>
           if eqb (toLowerCase (hl_key l)) (str "subject")
           then hl_value l else acc)
        (hdr_subject h) ls.
Proof.
  revert h. induction ls as [|l ls IH]; intros h Hwf; [reflexivity|].
  cbn [forallb] in Hwf. apply andb_true_iff in Hwf as [Hl Hls].
  cbn [List.map foldl]. rewrite IH by exact Hls.
  now rewrite setHeader_subject.
Qed.

Lemma parseEmail_headers decode content :
  headers (parseEmail decode content) =
  parseHeaders (List.hd [] (split [LF; LF] content)).
Proof. reflexivity. Qed.

(** *** Emails without a Subject line *)

(** A match of the header pattern starts at the start of a line, with its
    key and a colon. *)
Lemma exec_header_sound b s c' caps :
  exec headerRegex (Cursor b s) = Some (c', caps) ->
  atLineStart (Cursor b []) = true
  /\ exists key value post,
       s = key ++ [58] ++ post /\ caps = [(2%nat, value); (1%nat, key)].
Proof.
  unfold exec, headerRegex, Plus, Lit. cbn [foldr].
  intros H. run_step_in H.
  change (atLineStart (Cursor b s)) with (atLineStart (Cursor b [])) in H.
  destruct (atLineStart (Cursor b [])); [|discriminate].
  split; [reflexivity|]. run_step_in H.
  destruct s as [|x s]; [discriminate|].
  destruct (keyChar x); [|discriminate].
  apply run_star_chr_sound in H as (pre & post & -> & _ & H).
  run_step_in H. destruct post as [|y post]; [discriminate|].
  destruct (58 =? y) eqn:Ey; [|discriminate]. apply N.eqb_eq in Ey as <-.
  run_step_in H.
  apply run_star_chr_sound in H as (gap & post2 & -> & _ & H).
  run_step_in H. destruct post2 as [|v post2]; [discriminate|].
  destruct (dot v); [|discriminate].
  apply run_star_chr_sound in H as (vs & tail & -> & _ & H).
  run_step_in H. destruct (atLineEnd _); [|discriminate]. inversion H; subst.
  change (x :: pre ++ 58 :: gap ++ v :: vs ++ tail)
    with ((x :: pre) ++ 58 :: gap ++ v :: vs ++ tail).
  rewrite consumed_app. eexists (x :: pre), _, _. split; reflexivity.
Qed.

Lemma scan_header_sound s b skip m :
  m ∈ hits (scan headerRegex b s skip) ->
  exists key value a post,
    s = a ++ key ++ [58] ++ post
    /\ atLineStart (Cursor (rev a ++ b) []) = true
    /\ groups m = [(2%nat, value); (1%nat, key)].
Proof.
  revert b skip. induction s as [|x s IH]; intros b skip Hm.
  - destruct skip; cbn [scan] in Hm.
    + rewrite exec_header_empty in Hm. inversion Hm.
    + inversion Hm.
  - assert (forall skip', m ∈ hits (scan headerRegex (x :: b) s skip') ->
              exists key value a post,
                x :: s = a ++ key ++ [58] ++ post
                /\ atLineStart (Cursor (rev a ++ b) []) = true
                /\ groups m = [(2%nat, value); (1%nat, key)]) as Hlater.
    { intros skip' H.
      destruct (IH _ _ H) as (key & value & a & post & -> & Hs & Hg).
      exists key, value, (x :: a), post. cbn [rev].
      now rewrite <- app_assoc. }
    destruct skip as [|skip]; cbn [scan] in Hm; [|eauto].
    destruct (exec headerRegex (Cursor b (x :: s))) as [[c' caps]|] eqn:He.
    + rewrite hits_inr in Hm. apply elem_of_cons in Hm as [->|Hm].
      * apply exec_header_sound in He as (Hs & key & value & post & -> & ->).
        now exists key, value, [], post.
      * destruct (length _); [rewrite hits_inl in Hm|]; eauto.
    + rewrite hits_inl in Hm. eauto.
Qed.

Lemma subjectLineFrom_eq lineStart s :
  subjectLineFrom lineStart s =
  (lineStart && startsWith (str "subject:") (toLowerCase s))
  || match s with
     | [] => false
     | x :: t => subjectLineFrom (isLineTerminator x) t
     end.
Proof. now destruct s. Qed.

Lemma subjectLineFrom_found a key post b :
  toLowerCase key = str "subject" ->
  atLineStart (Cursor (rev a ++ b) []) = true ->
  subjectLineFrom (atLineStart (Cursor b [])) (a ++ key ++ [58] ++ post)
  = true.
Proof.
  intros Hk. revert b. induction a as [|x a IH]; intros b Hs.
  - cbn [rev app] in *. rewrite subjectLineFrom_eq, Hs.
    assert (startsWith (str "subject:") (toLowerCase (key ++ 58 :: post))
            = true) as ->; [|reflexivity].
    apply startsWith_iff. exists (toLowerCase post).
    unfold toLowerCase in *. rewrite flat_map_app, Hk. reflexivity.
  - cbn [app subjectLineFrom]. cbn [rev] in Hs. rewrite <- app_assoc in Hs.
    change (isLineTerminator x) with (atLineStart (Cursor (x :: b) [])).
    pose proof (IH (x :: b) Hs) as Hrec. cbn [app] in Hrec.
    rewrite Hrec. apply orb_true_r.
Qed.

Lemma setHeader_other h m :
  (forall key, group 1 m = Some key -> toLowerCase key <> str "subject") ->
  hdr_subject (setHeader h m) = hdr_subject h.
Proof.
  intros H. unfold setHeader. destruct (group 1 m) as [key|]; [|reflexivity].
  specialize (H key eq_refl). cbn [fmap option_fmap option_map].
  destruct (toLowerCase key) as [|k ks] eqn:Ek; [reflexivity|].
  destruct (group 2 m) as [[|v vs]|]; try reflexivity.
  destruct (eqb (k :: ks) (str "subject")) eqn:E.
  - now apply eqb_eq in E.
  - repeat match goal with
           | |- context [if ?c then _ else _] => destruct c
           end; reflexivity.
Qed.

Lemma foldl_setHeader_other ms h :
  (forall m key, m ∈ ms -> group 1 m = Some key ->
                 toLowerCase key <> str "subject") ->
  hdr_subject (foldl setHeader h ms) = hdr_subject h.
Proof.
  revert h. induction ms as [|m ms IH]; intros h H; [reflexivity|].
  cbn [foldl]. rewrite IH.
  - apply setHeader_other. intros key. apply H. apply list_elem_of_here.
  - intros m' key Hm. apply H. now apply list_elem_of_further.
Qed.

Lemma parseHeaders_no_subject s :
  hasSubjectLine s = false -> hdr_subject (parseHeaders s) = [].
Proof.
  intros Hs. unfold parseHeaders. rewrite foldl_setHeader_other; [reflexivity|].
  intros m key Hm Hg Hk. unfold matchAll in Hm.
  apply scan_header_sound in Hm as (key' & value & a & post & -> & Hl & Hgs).
  unfold group in Hg. rewrite Hgs in Hg. cbn in Hg. inversion Hg; subst key'.
  rewrite app_nil_r in Hl.
  pose proof (subjectLineFrom_found a key post [] Hk) as Hf.
  rewrite app_nil_r in Hf. unfold hasSubjectLine in Hs.
  change (atLineStart (Cursor [] [])) with true in Hf.
  rewrite (Hf Hl) in Hs. discriminate.
Qed.

(** C4, as amended.  For an email that starts with a well-formed header
    block, at the end of the email or before a blank line,
    [headers.subject] is the value of the last line whose key is Subject
    in any letter case: the text from the first character that is not
    white space to the end of the line, with the white space before it
    skipped and the white space at its end kept; without such a line it
    is the empty string.  For any email at all whose header block has no
    line that starts with Subject and a colon, [headers.subject] is the
    empty string.  The parser is a total function. *)
Theorem C4_subject_of_header_block (decode : jsstring -> Result jsstring) :
  (forall (ls : list HeaderLine) (tail : jsstring),
      forallb wellFormedLine ls = true ->
      tail = [] \/ startsWith [LF; LF] tail = true ->
      hdr_subject (headers (parseEmail decode (renderBlock ls ++ tail)))
      = lastSubject ls)
  /\ (forall content : jsstring,
        hasSubjectLine (headerBlock content) = false ->
        hdr_subject (headers (parseEmail decode content)) = []).
Proof.
  split.
  - intros ls tail Hwf Htail. rewrite parseEmail_headers. unfold split.
    rewrite headerSection_block by assumption. cbn [rev app].
    unfold parseHeaders. rewrite matchAll_header_block by exact Hwf.
    now rewrite foldl_setHeader_subject.
  - intros content H. rewrite parseEmail_headers.
    now apply parseHeaders_no_subject.
Qed.

(** ** AttachmentDecoder *)

Lemma getIn_setIn {V} (key key' : jsstring) (value : V)
  (props : list (jsstring * V)) :
  getIn key' (setIn key value props) =
  if eqb key key' then Some value else getIn key' props.
Proof.
  induction props as [|[k v] props IH]; cbn [setIn getIn].
  - reflexivity.
  - destruct (eqb k key) eqn:Ek; cbn [getIn].
    + apply eqb_eq in Ek as ->. now destruct (eqb key key').
    + rewrite IH. destruct (eqb k key') eqn:Ek'; [|reflexivity].
      apply eqb_eq in Ek' as ->.
      destruct (eqb key key') eqn:E; [|reflexivity].
      apply eqb_eq in E as ->. now rewrite eqb_refl in Ek.
Qed.

Lemma spread_lookup (obj : JsObject (option jsstring))
  (line key : jsstring) :
  spread obj (csvItem line) !! key =
  if eqb (csvHeader line) key then Some (csvValue line) else obj !! key.
Proof.
  unfold spread, csvItem, lookup, object_lookup.
  fold (csvHeader line) (csvValue line). cbn [properties foldl fst snd].
  apply getIn_setIn.
Qed.

Lemma foldl_spread_lookup (lines : list jsstring)
  (obj : JsObject (option jsstring)) (key : jsstring) :
  foldl spread obj (List.map csvItem lines) !! key =
  match lastWrite key lines with
  | Some v => Some v
  | None => obj !! key
  end.
Proof.
  revert obj. induction lines as [|line lines IH]; intros obj; [reflexivity|].
  cbn [List.map foldl]. rewrite IH, spread_lookup. unfold lastWrite.
  cbn [List.filter]. destruct (eqb (csvHeader line) key); [|reflexivity].
  cbn [List.map]. rewrite last_cons. now destruct (last _).
Qed.

(** In a CSV attachment the mapping gives, for each header, the value of
    the last line with that header. *)
Lemma parseCsv_lookup (decodedContent key : jsstring) :
  parseCsv decodedContent !! key = lastWrite key (csvLines decodedContent).
Proof.
  unfold parseCsv. fold (csvLines decodedContent).
  rewrite foldl_spread_lookup. now destruct (lastWrite _ _).
Qed.

Lemma foldl_addAttachment decode ms acc :
  foldl (addAttachment decode) acc ms = acc ++ omap (attachmentOf decode) ms.
Proof.
  revert acc. induction ms as [|m ms IH]; intros acc.
  - now rewrite app_nil_r.
  - cbn [foldl]. rewrite IH. unfold addAttachment at 1.
    change (omap (attachmentOf decode) (m :: ms))
      with (match attachmentOf decode m with
            | Some a => a :: omap (attachmentOf decode) ms
            | None => omap (attachmentOf decode) ms
            end).
    unfold attachmentOf at 2, payload.
    destruct (decode _); [|reflexivity]. now rewrite <- app_assoc.
Qed.

Lemma parseEmail_attachments decode content :
  attachments (parseEmail decode content) =
  omap (attachmentOf decode) (attachmentBlocks content).
Proof.
  unfold parseEmail, attachmentBlocks. cbn [attachments].
  now rewrite foldl_addAttachment.
Qed.

(** C7.  What an attachment carries besides the decoded content depends
    on its content type alone: for [text/csv] the mapping that gives each
    header the value of the last non-blank line with that header, and no
    extracted text; for [application/pdf] the decoded content as
    extracted text, and no mapping; for any other type neither.  Every
    attachment of a parsed email is built this way. *)
Theorem C7_attachment_enrichment :
  (forall name type decoded,
      let a := makeAttachment name type decoded in
      att_content a = decoded
      /\ (type = str "text/csv" ->
          parsedContent a = Some (parseCsv decoded) /\ extractedText a = None)
      /\ (type = str "application/pdf" ->
          extractedText a = Some decoded /\ parsedContent a = None)
      /\ (type <> str "text/csv" -> type <> str "application/pdf" ->
          parsedContent a = None /\ extractedText a = None))
  /\ (forall decoded key,
        parseCsv decoded !! key = lastWrite key (csvLines decoded))
  /\ (forall decode content,
        Forall (fun a => a = makeAttachment (filename a) (contentType a)
                                            (att_content a))
               (attachments (parseEmail decode content))).
Proof.
  split; [|split].
  - intros name type decoded a. subst a. unfold makeAttachment. cbn.
    split; [reflexivity|]. split; [|split].
    + intros ->. rewrite eqb_refl. split; reflexivity.
    + intros ->. rewrite eqb_refl. split; reflexivity.
    + intros Hc Hp.
      destruct (eqb type (str "text/csv")) eqn:Ec;
        [now apply eqb_eq in Ec|].
      destruct (eqb type (str "application/pdf")) eqn:Ep;
        [now apply eqb_eq in Ep|].
      split; reflexivity.
  - apply parseCsv_lookup.
  - intros decode content. rewrite parseEmail_attachments.
    induction (attachmentBlocks content) as [|m ms IH]; [constructor|].
    change (omap (attachmentOf decode) (m :: ms))
      with (match attachmentOf decode m with
            | Some a => a :: omap (attachmentOf decode) ms
            | None => omap (attachmentOf decode) ms
            end).
    unfold attachmentOf at 1.
    destruct (decode _); [|exact IH]. constructor; [reflexivity|exact IH].
Qed.

(** ** Attachments whose payload is not base64 *)

(** Under a decoder that returns for every payload each block gives an
    attachment. *)
Lemma omap_attachmentOf_total (decode : jsstring -> jsstring)
  (ms : list Match) :
  omap (attachmentOf (fun p => Ok (decode p))) ms =
  List.map (fun m => makeAttachment (default [] (group 1 m))
                                    (default [] (group 2 m))
                                    (decode (payload m))) ms.
Proof.
  induction ms as [|m ms IH]; [reflexivity|].
  change (omap (attachmentOf (fun p => Ok (decode p))) (m :: ms))
    with (match attachmentOf (fun p => Ok (decode p)) m with
          | Some a => a :: omap (attachmentOf (fun p => Ok (decode p))) ms
          | None => omap (attachmentOf (fun p => Ok (decode p))) ms
          end).
  unfold attachmentOf at 1. cbn [List.map]. now rewrite IH.
Qed.

(** C8.  The decoder of the runtime returns for every payload, so the
    [catch] of the attachment loop is never entered and no attachment is
    dropped: for every decoder that returns, the parser gives one
    attachment for each attachment block, in the order of the blocks, with
    whatever the decoder made of the payload.  In the example the block
    [a.bin], whose payload "!!" is not base64, is kept with an empty
    content, next to [b.pdf]. *)
Theorem C8_bad_attachment_is_kept :
  (forall (decode : jsstring -> jsstring) (content : jsstring),
      attachments (parseEmail (fun p => Ok (decode p)) content) =
      List.map (fun m => makeAttachment (default [] (group 1 m))
                                        (default [] (group 2 m))
                                        (decode (payload m)))
               (attachmentBlocks content)
      /\ length (attachments (parseEmail (fun p => Ok (decode p)) content))
         = length (attachmentBlocks content))
  /\ List.map payload (attachmentBlocks twoAttachments)
     = [str "!!"; str "QUJD"]
  /\ fromBase64 (str "!!") = Ok []
  /\ attachments (parseEmail fromBase64 twoAttachments)
     = [ makeAttachment (str "a.bin") (str "application/octet-stream") [];
         makeAttachment (str "b.pdf") (str "application/pdf") (str "ABC") ].
Proof.
  split; [|split; [|split]].
  - intros decode content.
    rewrite parseEmail_attachments, omap_attachmentOf_total.
    split; [reflexivity|]. now rewrite length_map.
  - vm_compute. reflexivity.
  - reflexivity.
  - vm_compute. reflexivity.
Qed.

(** ** TicketSubmitter *)

Lemma submitJiraTicket_spec env ticket st :
  exists r,
    submitJiraTicket env ticket st = (r, called (JiraCreateIssue ticket) st)
    /\ match r with
       | Ok s =>
           exists key,
             jira_createIssue env (trace st) ticket = Ok (ResponseWith key)
             /\ s = str "Jira ticket created: " ++ show key
       | Throw e =>
           exists cause,
             e = ErrorObj (str "Failed to create Jira ticket: "
                           ++ errorMessage cause)
             /\ (jira_createIssue env (trace st) ticket = Throw cause
                 \/ (jira_createIssue env (trace st) ticket
                     = Ok UndefinedResponse
                     /\ cause = propertyOfUndefined (str "key"))
                 \/ (jira_createIssue env (trace st) ticket = Ok NullResponse
                     /\ cause = propertyOfNull (str "key")))
       end.
Proof.
  unfold submitJiraTicket, tryCatch, bind, external, throw, ret, called.
  destruct (jira_createIssue env (trace st) ticket) as [[| |key]|cause] eqn:E;
    eexists; (split; [reflexivity|]); cbn beta iota; eauto 6.
Qed.

Lemma submitServiceNowTicket_spec env ticket st :
  exists r,
    submitServiceNowTicket env ticket st
    = (r, called (ServiceNowCreateTicket ticket) st)
    /\ match r with
       | Ok s =>
           exists number,
             servicenow_createTicket env (trace st) ticket
             = Ok (ResponseWith number)
             /\ s = str "ServiceNow incident created: " ++ show number
       | Throw e =>
           exists cause,
             e = ErrorObj (str "Failed to create ServiceNow ticket: "
                           ++ errorMessage cause)
             /\ (servicenow_createTicket env (trace st) ticket = Throw cause
                 \/ (servicenow_createTicket env (trace st) ticket
                     = Ok UndefinedResponse
                     /\ cause = propertyOfUndefined (str "number"))
                 \/ (servicenow_createTicket env (trace st) ticket
                     = Ok NullResponse
                     /\ cause = propertyOfNull (str "number")))
       end.
Proof.
  unfold submitServiceNowTicket, tryCatch, bind, external, throw, ret, called.
  destruct (servicenow_createTicket env (trace st) ticket)
    as [[| |number]|cause] eqn:E;
    eexists; (split; [reflexivity|]); cbn beta iota; eauto 6.
Qed.

(** ** The single-email pipeline *)

Lemma includes_join w sep (lines : list jsstring) line :
  line ∈ lines -> includes w line = true ->
  includes w (join sep lines) = true.
Proof.
  intros Hin Hw. induction lines as [|l lines IH]; [inversion Hin|].
  apply elem_of_cons in Hin as [<-|Hin].
  - destruct lines; cbn [join]; [exact Hw|]. now apply includes_app_l.
  - destruct lines as [|l2 lines]; [inversion Hin|].
    cbn [join]. apply includes_app_r, includes_app_r, IH, Hin.
Qed.

(** An email whose analysis is missing: the provider's reply is [null],
    empty or "{}". *)
Lemma handleSingle_unanalyzable env this email st r :
  chat_open env (trace st) email = Ok r ->
  r = None \/ r = Some [] \/ r = Some (str "{}") ->
  handleSingleEmailAnalysis env this email st =
  (Ok analysisFailedLog,
   queued (humanReviewQueue this) (analysisFailedItem email)
          (called (ChatOpen email) st)).
Proof.
  intros Hc Hr. unfold handleSingleEmailAnalysis.
  unfold withLocals, bind, appendProgress, setLocals, lift, external, ret,
    joinedProgress, getLocals, addToHumanReviewQueue, pushArray.
  cbn [fst snd heap trace]. rewrite Hc.
  destruct Hr as [->|[->| ->]]; reflexivity.
Qed.

(** ** The heap *)

Lemma elementsOf_referenced (h : Heap) (l e : loc) :
  e ∈ elementsOf h l -> e ∈ referenced h.
Proof.
  unfold elementsOf, referenced.
  destruct (h !! l) as [[elements|item]|] eqn:E;
    [|intros H; inversion H|intros H; inversion H].
  intros He. apply elem_of_union_list.
  exists (list_to_set elements). split; [|now apply elem_of_list_to_set].
  apply list_elem_of_fmap. exists (ArrayObject elements). split; [reflexivity|].
  apply list_elem_of_fmap. exists (l, ArrayObject elements).
  split; [reflexivity|]. now apply elem_of_map_to_list.
Qed.

Lemma omap_ext_in {A B} (f g : A -> option B) (l : list A) :
  (forall x, x ∈ l -> f x = g x) -> omap f l = omap g l.
Proof.
  induction l as [|x l IH]; intros H; [reflexivity|].
  change (omap f (x :: l))
    with (match f x with Some y => y :: omap f l | None => omap f l end).
  change (omap g (x :: l))
    with (match g x with Some y => y :: omap g l | None => omap g l end).
  rewrite (H x) by apply list_elem_of_here.
  rewrite IH; [reflexivity|]. intros y Hy. apply H.
  now apply list_elem_of_further.
Qed.

(** The items of an array do not change when objects that it does not
    refer to are replaced, as long as the array object itself stays. *)
Lemma readArray_ext (h h' : Heap) (l : loc) :
  elementsOf h' l = elementsOf h l ->
  (forall e, e ∈ elementsOf h l -> itemAt h' e = itemAt h e) ->
  readArray h' l = readArray h l.
Proof.
  unfold readArray. intros -> H. now apply omap_ext_in.
Qed.

Lemma elementsOf_insert_array (h : Heap) (l : loc) (elements : list loc) :
  elementsOf (<[l := ArrayObject elements]> h) l = elements.
Proof. unfold elementsOf. now rewrite lookup_insert_eq. Qed.

Lemma elementsOf_insert_ne (h : Heap) (l l' : loc) (o : HeapObject) :
  l <> l' -> elementsOf (<[l := o]> h) l' = elementsOf h l'.
Proof. intros H. unfold elementsOf. now rewrite lookup_insert_ne. Qed.

Lemma itemAt_insert_ne (h : Heap) (l l' : loc) (o : HeapObject) :
  l <> l' -> itemAt (<[l := o]> h) l' = itemAt h l'.
Proof. intros H. unfold itemAt. now rewrite lookup_insert_ne. Qed.

Lemma itemAt_insert_array (h : Heap) (l l' : loc) (elements : list loc) :
  l' ∈ elementsOf h l ->
  itemAt (<[l := ArrayObject elements]> h) l' = itemAt h l'.
Proof.
  intros He. destruct (decide (l = l')) as [<-|Hne];
    [|now apply itemAt_insert_ne].
  unfold itemAt. rewrite lookup_insert_eq. unfold elementsOf in He.
  destruct (h !! l) as [[?|?]|]; try reflexivity; inversion He.
Qed.

Lemma pushedAt_fresh (l : loc) (h : Heap) :
  h !! (pushedAt l h) = None /\ (pushedAt l h ∉ referenced h)
  /\ pushedAt l h <> l.
Proof.
  pose proof (is_fresh (dom h ∪ referenced h ∪ {[l]})) as H.
  fold (pushedAt l h) in H. repeat split.
  - apply not_elem_of_dom. set_solver.
  - set_solver.
  - set_solver.
Qed.

(** [push] appends the item to the array. *)
Lemma readArray_pushed (q : loc) (item : HumanReviewItem) (h : Heap) :
  readArray (pushed q item h) q = readArray h q ++ [item].
Proof.
  destruct (pushedAt_fresh q h) as (Hdom & Href & Hne).
  unfold pushed. fold (pushedAt q h). unfold readArray at 1.
  rewrite elementsOf_insert_array, omap_app. f_equal.
  - unfold readArray.
    assert (forall e, e ∈ elementsOf h q ->
              itemAt (<[q := ArrayObject (elementsOf h q ++ [pushedAt q h])]>
                        (<[pushedAt q h := ItemObject item]> h)) e
              = itemAt h e) as H.
    { intros e He.
      assert (e <> pushedAt q h) as Hfresh.
      { intros ->. apply Href. exact (elementsOf_referenced h q _ He). }
      destruct (decide (q = e)) as [<-|Hqe].
      - unfold itemAt. rewrite lookup_insert_eq. unfold elementsOf in He.
        destruct (h !! q) as [[?|?]|]; try reflexivity; inversion He.
      - rewrite itemAt_insert_ne by exact Hqe.
        now rewrite itemAt_insert_ne by (intros E; now apply Hfresh). }
    now apply omap_ext_in.
  - simpl. rewrite itemAt_insert_ne by (intros E; now apply Hne).
    unfold itemAt. now rewrite lookup_insert_eq.
Qed.

(** [push] to an array leaves the items of every other array as they
    are. *)
Lemma readArray_pushed_ne (q l : loc) (item : HumanReviewItem) (h : Heap) :
  l <> q -> itemAt h q = None ->
  readArray (pushed q item h) l = readArray h l.
Proof.
  intros Hl Hq. destruct (pushedAt_fresh q h) as (Hdom & Href & Hne).
  unfold pushed. fold (pushedAt q h). apply readArray_ext.
  - rewrite elementsOf_insert_ne by (intros E; now apply Hl).
    unfold elementsOf. destruct (decide (pushedAt q h = l)) as [<-|Hpl].
    + now rewrite lookup_insert_eq, Hdom.
    + now rewrite lookup_insert_ne.
  - intros e He.
    assert (e <> pushedAt q h) as Hfresh.
    { intros ->. apply Href. exact (elementsOf_referenced h l _ He). }
    destruct (decide (q = e)) as [<-|Hqe].
    + rewrite Hq. unfold itemAt. now rewrite lookup_insert_eq.
    + rewrite itemAt_insert_ne by exact Hqe.
      now rewrite itemAt_insert_ne by (intros E; now apply Hfresh).
Qed.

Lemma ticket_prefix (t : jsstring) :
  t ∈ ticketTypes ->
  startsWith (str "jira-") t = true \/ startsWith (str "servicenow-") t = true.
Proof.
  unfold ticketTypes. rewrite !elem_of_cons, elem_of_nil.
  intros [->|[->|[->|[->|[->|[->|[->|[]]]]]]]]; vm_compute; auto.
Qed.

Lemma singleEffect_called q c st :
  readFiles [c] = [] -> singleEffect q st (called c st).
Proof.
  intros Hc. split.
  - exists []. cbn. rewrite app_nil_r. split; [reflexivity|lia].
  - now exists [c].
Qed.

Lemma singleEffect_queued q item st st' :
  singleEffect q st st' -> heap st' = heap st ->
  singleEffect q st (queued q item st').
Proof.
  intros [_ (calls & Ht & Hr)] Hh. split.
  - exists [item]. cbn [queued heap]. rewrite readArray_pushed, Hh. auto.
  - now exists calls.
Qed.

Lemma singleEffect_called_more q c st st' :
  singleEffect q st st' -> readFiles [c] = [] ->
  singleEffect q st (called c st').
Proof.
  intros [He (calls & Ht & Hr)] Hc. split; [exact He|].
  exists (calls ++ [c]). cbn [called trace]. rewrite Ht, <- app_assoc.
  split; [reflexivity|]. unfold readFiles in *. now rewrite omap_app, Hr, Hc.
Qed.

Ltac monad_unfold :=
  unfold withLocals, bind, appendProgress, setLocals, lift, ret,
    joinedProgress, getLocals, addToHumanReviewQueue, pushArray, tryCatch,
    throw;
  cbn [fst snd heap trace app].

(** Membership in a list literal, up to computation. *)
Ltac in_list :=
  solve [repeat first [apply list_elem_of_here | apply list_elem_of_further]].

(** The line of a progress log that shows how the email was resolved. *)
Ltac has_line line :=
  apply (includes_join _ _ _ line); [in_list|vm_compute; reflexivity].

Ltac resolved_by line :=
  unfold resolved;
  first [ left; has_line line
        | right; left; has_line line
        | right; right; left; has_line line
        | right; right; right; has_line line ].

(** Every run of the single-email pipeline: its effect on the shared
    state, and its result.  It returns a log that shows one of the three
    resolutions, unless the provider call, [JSON.parse] or the classifier
    throws; that exception is not caught. *)
Lemma handleSingle_spec env this email st :
  exists res st',
    handleSingleEmailAnalysis env this email st = (res, st')
    /\ singleEffect (humanReviewQueue this) st st'
    /\ match res with
       | Ok log => resolved log
       | Throw e =>
           chat_open env (trace st) email = Throw e
           \/ exists r, chat_open env (trace st) email = Ok (Some r)
                        /\ r <> [] /\ eqb r (str "{}") = false
                        /\ (JSON_parse env r = Throw e
                            \/ exists a, JSON_parse env r = Ok (Some a)
                                         /\ validateRequiredFields a = []
                                         /\ classifyTicketType a = Throw e)
       end.
Proof.
  pose proof (singleEffect_called (humanReviewQueue this) (ChatOpen email) st
                eq_refl) as Hchat.
  destruct (chat_open env (trace st) email) as [r|e] eqn:Hc.
  2:{ unfold handleSingleEmailAnalysis. monad_unfold. unfold external.
      rewrite Hc. eexists _, _. split; [reflexivity|]. split; auto. }
  assert (forall st', st' = queued (humanReviewQueue this)
                              (analysisFailedItem email)
                              (called (ChatOpen email) st) ->
            singleEffect (humanReviewQueue this) st st') as Hfailed.
  { intros st' ->. now apply singleEffect_queued. }
  destruct r as [[|c s]|].
  3:{ rewrite (handleSingle_unanalyzable _ _ _ _ None) by auto.
      eexists _, _. split; [reflexivity|]. split; [auto|].
      resolved_by (str "👤 Email has been queued for human review"). }
  { rewrite (handleSingle_unanalyzable _ _ _ _ (Some [])) by auto.
    eexists _, _. split; [reflexivity|]. split; [auto|].
    resolved_by (str "👤 Email has been queued for human review"). }
  destruct (eqb (c :: s) (str "{}")) eqn:He.
  { apply eqb_eq in He. rewrite He in Hc.
    rewrite (handleSingle_unanalyzable _ _ _ _ (Some (str "{}"))) by auto.
    eexists _, _. split; [reflexivity|]. split; [auto|].
    resolved_by (str "👤 Email has been queued for human review"). }
  unfold handleSingleEmailAnalysis. monad_unfold. unfold external at 1.
  rewrite Hc, He. cbn [negb].
  destruct (JSON_parse env (c :: s)) as [[a|]|e] eqn:Hj.
  3:{ eexists _, _. split; [reflexivity|]. split; [auto|]. right.
      exists (c :: s). repeat split; auto. }
  2:{ monad_unfold. eexists _, _. split; [reflexivity|].
      split; [now apply Hfailed|].
      resolved_by (str "👤 Email has been queued for human review"). }
  monad_unfold.
  destruct (validateRequiredFields a) as [|m ms] eqn:Hv.
  2:{ monad_unfold. eexists _, _. split; [reflexivity|].
      split; [now apply (singleEffect_queued _ _ st (called _ st))|].
      resolved_by (str "👤 Email has been queued for human review"). }
  monad_unfold.
  destruct (classifyTicketType a) as [ticketType|e] eqn:Hclass.
  2:{ eexists _, _. split; [reflexivity|]. split; [auto|]. right.
      exists (c :: s). split; [reflexivity|]. split; [discriminate|].
      split; [exact He|]. right. exists a. auto. }
  destruct (startsWith (str "jira-") ticketType) eqn:Hjira.
  { monad_unfold.
    destruct (submitJiraTicket_spec env
                (createJiraTicket a (second (str "-") ticketType))
                (called (ChatOpen email) st)) as (r & Hs & Hr).
    unfold called at 1 in Hs. cbn [heap trace] in Hs. rewrite Hs.
    destruct r as [result|err]; monad_unfold;
      (eexists _, _; split; [reflexivity|]);
      (split; [now apply singleEffect_called_more|]).
    - resolved_by (str "✅ Jira ticket created successfully!").
    - destruct Hr as (cause & -> & _).
      resolved_by (str "❌ Error creating ticket: "
                   ++ errorMessage (ErrorObj (str "Failed to create Jira ticket: "
                                              ++ errorMessage cause))). }
  destruct (startsWith (str "servicenow-") ticketType) eqn:Hsnow.
  2:{ destruct (ticket_prefix _ (classify_cases a _ Hclass)); congruence. }
  monad_unfold.
  destruct (submitServiceNowTicket_spec env
              (createServiceNowTicket a (second (str "-") ticketType))
              (called (ChatOpen email) st)) as (r & Hs & Hr).
  unfold called at 1 in Hs. cbn [heap trace] in Hs.
  destruct (eqb ticketType (str "servicenow-incident"));
    monad_unfold; rewrite Hs;
    (destruct r as [result|err]; monad_unfold;
      (eexists _, _; split; [reflexivity|]);
      (split; [now apply singleEffect_called_more|]));
    try resolved_by (str "✅ ServiceNow ticket created successfully!");
    destruct Hr as (cause & -> & _);
    resolved_by (str "❌ Error creating ticket: "
                 ++ errorMessage
                      (ErrorObj (str "Failed to create ServiceNow ticket: "
                                 ++ errorMessage cause))).
Qed.

(** ** Bulk mode *)

Lemma bulkEffect_nil q st : bulkEffect q [] st st.
Proof.
  split.
  - exists []. now rewrite app_nil_r.
  - now rewrite app_nil_r.
Qed.

Lemma bulkEffect_cons q file files st st1 st2 :
  bulkEffect q [file] st st1 -> bulkEffect q files st1 st2 ->
  bulkEffect q (file :: files) st st2.
Proof.
  intros [(e1 & H1 & L1) T1] [(e2 & H2 & L2) T2]. split.
  - exists (e1 ++ e2). rewrite H2, H1, <- app_assoc. split; [reflexivity|].
    rewrite length_app. cbn [length] in *. lia.
  - rewrite T2, T1, <- app_assoc. reflexivity.
Qed.

Lemma bulkEffect_read q file st st' :
  singleEffect q (called (ReadFile file) st) st' ->
  bulkEffect q [file] st st'.
Proof.
  intros [(extra & Hq & Hl) (calls & Ht & Hr)]. split.
  - exists extra. split; [exact Hq|exact Hl].
  - rewrite Ht. cbn [called trace]. unfold readFiles in *.
    rewrite !omap_app, Hr, app_nil_r. reflexivity.
Qed.

Lemma singleEffect_refl q st : singleEffect q st st.
Proof.
  split.
  - exists []. rewrite app_nil_r. split; [reflexivity|cbn; lia].
  - exists []. now rewrite app_nil_r.
Qed.

(** One turn of the loop returns, whatever happens to the file: a failed
    read or a failed pipeline is caught and leaves [results] as it was. *)
Lemma processFile_spec env this total i file pm results st :
  exists pm' results' st',
    processFile env this total i file (pm, (results, st))
    = (Ok tt, (pm', (results', st')))
    /\ bulkEffect (humanReviewQueue this) [file] st st'
    /\ (results' = results
        \/ exists result, results' = results ++ [{| be_file := fsPath file;
                                                   be_result := result |}]).
Proof.
  unfold processFile. monad_unfold. unfold external. cbn [fst snd].
  destruct (fs_readFile env (trace st) file) as [content|e] eqn:Hf.
  2:{ monad_unfold. eexists _, _, _. split; [reflexivity|]. split; [|now left].
      apply bulkEffect_read, singleEffect_refl. }
  destruct (handleSingle_spec env this content (called (ReadFile file) st))
    as (res & st' & Hs & He & _).
  unfold called at 1 in Hs. rewrite Hs.
  destruct res as [result|e]; monad_unfold;
    (eexists _, _, _; split; [reflexivity|]);
    (split; [now apply bulkEffect_read|]); eauto.
Qed.

Lemma forFiles_spec env this total files i pm results st :
  exists pm' entries st',
    forFiles env this total i files (pm, (results, st))
    = (Ok tt, (pm', (results ++ entries, st')))
    /\ bulkEffect (humanReviewQueue this) files st st'
    /\ List.map be_file entries `sublist_of` List.map fsPath files.
Proof.
  revert i pm results st.
  induction files as [|file files IH]; intros i pm results st.
  - exists pm, [], st. rewrite app_nil_r. split; [reflexivity|].
    split; [apply bulkEffect_nil|constructor].
  - cbn [forFiles]. unfold bind at 1.
    destruct (processFile_spec env this total i file pm results st)
      as (pm1 & results1 & st1 & -> & He1 & Hr1).
    destruct (IH (S i) pm1 results1 st1)
      as (pm2 & entries & st2 & -> & He2 & Hr2).
    destruct Hr1 as [->|[result ->]].
    + exists pm2, entries, st2. split; [reflexivity|].
      split; [now apply (bulkEffect_cons _ _ _ _ st1)|].
      cbn [List.map]. now constructor.
    + exists pm2, ({| be_file := fsPath file; be_result := result |} :: entries),
        st2.
      rewrite <- app_assoc. split; [reflexivity|].
      split; [now apply (bulkEffect_cons _ _ _ _ st1)|].
      cbn [List.map be_file]. now constructor.
Qed.

Lemma filter_split_length {A} (p : A -> bool) (l : list A) :
  (length (List.filter p l)
   + length (List.filter (fun x => negb (p x)) l))%nat = length l.
Proof.
  induction l as [|x l IH]; [reflexivity|]. cbn [List.filter].
  destruct (p x); cbn [negb length]; lia.
Qed.

(** The bulk run returns its log for every list of files and every
    environment.  The log ends with the summary; its two counts are taken
    from the entries of [results], one for each file whose processing
    returned, so together they count those files and not the ones whose
    processing threw. *)
Lemma handleBulk_spec env this files st :
  exists log st' lines entries,
    handleBulkAnalysis env this files st = (Ok log, st')
    /\ bulkEffect (humanReviewQueue this) files st st'
    /\ log = join [LF] (lines ++ [bulkSummary (length files) entries])
    /\ List.map be_file entries `sublist_of` List.map fsPath files
    /\ (length (List.filter createdSuccessfully entries)
        + length (List.filter (fun r => negb (createdSuccessfully r)) entries)
        = length entries)%nat
    /\ (length entries <= length files)%nat.
Proof.
  unfold handleBulkAnalysis. unfold withLocals at 1 2. unfold bind at 1.
  unfold appendProgress at 1, setLocals at 1. cbn [fst snd app].
  unfold bind at 1.
  lazymatch goal with
  | |- context [forFiles _ _ _ _ _ (?pm0, (?r0, _))] =>
      destruct (forFiles_spec env this (length files) files 0%nat pm0 r0 st)
        as (pm & entries & st' & -> & He & Hsub)
  end.
  monad_unfold. monad_unfold. eexists _, _.
  exists pm, entries. split; [reflexivity|]. split; [exact He|].
  split; [reflexivity|]. split; [exact Hsub|].
  split; [apply filter_split_length|].
  apply sublist_length in Hsub. now rewrite !length_map in Hsub.
Qed.

(** ** The single-email pipeline and the review queue *)

(** C3.  When the provider's reply is "{}", empty or [null], the pipeline
    returns the log of a failed analysis, which has the line "queued for
    human review" and no line of the classification; the review queue is
    one item longer, the new item is at its end and names "Analysis
    Failed" as missing; the only external call made is the provider call,
    so no ticket is submitted. *)
Theorem C3_empty_analysis_is_queued env this email st r :
  chat_open env (trace st) email = Ok r ->
  r = None \/ r = Some [] \/ r = Some (str "{}") ->
  exists log st' item,
    handleSingleEmailAnalysis env this email st = (Ok log, st')
    /\ includes (str "queued for human review") log = true
    /\ includes (str "Classifying request type") log = false
    /\ readArray (heap st') (humanReviewQueue this)
       = readArray (heap st) (humanReviewQueue this) ++ [item]
    /\ length (readArray (heap st') (humanReviewQueue this))
       = S (length (readArray (heap st) (humanReviewQueue this)))
    /\ str "Analysis Failed" ∈ missingFields item
    /\ trace st' = trace st ++ [ChatOpen email].
Proof.
  intros Hc Hr. rewrite (handleSingle_unanalyzable _ _ _ _ r Hc Hr).
  eexists _, _, (analysisFailedItem email). split; [reflexivity|].
  split; [vm_compute; reflexivity|]. split; [vm_compute; reflexivity|].
  cbn [queued called heap trace]. rewrite readArray_pushed.
  split; [reflexivity|]. split.
  - rewrite length_app. cbn [length]. lia.
  - split; [apply list_elem_of_here|reflexivity].
Qed.

(** The exceptions that leave the pipeline are those of the provider
    call, of [JSON.parse] and of the classifier: none of the three calls
    is inside a [try]. *)
Lemma handleSingle_escapes env this email st e :
  escapes env st email = Some e ->
  fst (handleSingleEmailAnalysis env this email st) = Throw e.
Proof.
  unfold escapes, handleSingleEmailAnalysis. monad_unfold. unfold external.
  destruct (chat_open env (trace st) email) as [[[|c s]|]|e'];
    try discriminate; [|now intros [= ->]].
  destruct (eqb (c :: s) (str "{}")) eqn:He; [discriminate|]. cbn [negb].
  destruct (JSON_parse env (c :: s)) as [[a|]|e'];
    try discriminate; [|now intros [= ->]].
  monad_unfold.
  destruct (validateRequiredFields a) as [|m ms]; [|discriminate].
  monad_unfold.
  destruct (classifyTicketType a) as [t|e']; [discriminate|].
  now intros [= ->].
Qed.

Lemma handleSingle_resolved_or_escapes env this email st :
  match fst (handleSingleEmailAnalysis env this email st) with
  | Ok log => resolved log /\ escapes env st email = None
  | Throw e => escapes env st email = Some e
  end.
Proof.
  destruct (handleSingle_spec env this email st) as (res & st' & Hs & _ & Hr).
  destruct (escapes env st email) as [e|] eqn:He.
  - rewrite (handleSingle_escapes _ this _ _ _ He). reflexivity.
  - rewrite Hs. cbn [fst]. destruct res as [log|e]; [now split|].
    exfalso. unfold escapes in He.
    destruct Hr as [Hc|(r & Hc & Hne & Hb & [Hj|(a & Hj & Hv & Hcl)])];
      rewrite Hc in He; [discriminate| |];
      (destruct r as [|c s]; [congruence|]); rewrite Hb in He.
    + rewrite Hj in He. discriminate.
    + rewrite Hj, Hv, Hcl in He. discriminate.
Qed.

(** A failed submission on the way of an analysed, valid email is caught:
    the pipeline returns, and its log has the error with the name of the
    ticket system and the message of the cause. *)
Lemma handleSingle_submission_error env this email st r a ticketType cause :
  chat_open env (trace st) email = Ok (Some r) ->
  r <> [] -> eqb r (str "{}") = false ->
  JSON_parse env r = Ok (Some a) ->
  validateRequiredFields a = [] ->
  classifyTicketType a = Ok ticketType ->
  let type := second (str "-") ticketType in
  let history := trace st ++ [ChatOpen email] in
  (startsWith (str "jira-") ticketType = true ->
   jira_createIssue env history (createJiraTicket a type) = Throw cause ->
   exists log,
     fst (handleSingleEmailAnalysis env this email st) = Ok log
     /\ includes (str "❌ Error creating ticket: Failed to create Jira ticket: "
                  ++ errorMessage cause) log = true)
  /\ (startsWith (str "jira-") ticketType = false ->
      servicenow_createTicket env history (createServiceNowTicket a type)
      = Throw cause ->
      exists log,
        fst (handleSingleEmailAnalysis env this email st) = Ok log
        /\ includes
             (str "❌ Error creating ticket: Failed to create ServiceNow ticket: "
              ++ errorMessage cause) log = true).
Proof.
  intros Hc Hr He Hj Hv Hcl type history. subst type history.
  destruct r as [|c s]; [congruence|].
  split; intros Hstart Hsub;
    unfold handleSingleEmailAnalysis; monad_unfold; unfold external at 1;
    rewrite Hc, He; cbn [negb]; rewrite Hj; monad_unfold; rewrite Hv;
    monad_unfold; rewrite Hcl, Hstart; monad_unfold.
  - unfold submitJiraTicket, tryCatch, bind, external, throw.
    cbn [fst snd heap trace]. rewrite Hsub. cbn [fst snd errorMessage].
    eexists. split; [reflexivity|].
    apply (includes_join _ _ _
             (str "❌ Error creating ticket: "
              ++ str "Failed to create Jira ticket: " ++ errorMessage cause));
      [in_list|cbn [app]; apply includes_refl].
  - destruct (startsWith (str "servicenow-") ticketType) eqn:Hs.
    2:{ destruct (ticket_prefix _ (classify_cases a _ Hcl)); congruence. }
    destruct (eqb ticketType (str "servicenow-incident"));
      monad_unfold;
      unfold submitServiceNowTicket, tryCatch, bind, external, throw;
      cbn [fst snd heap trace]; rewrite Hsub; cbn [fst snd errorMessage];
      (eexists; split; [reflexivity|]);
      (apply (includes_join _ _ _
                (str "❌ Error creating ticket: "
                 ++ str "Failed to create ServiceNow ticket: "
                 ++ errorMessage cause));
       [in_list|cbn [app]; apply includes_refl]).
Qed.

(** What the logger throws at the entry of the chat command leaves the
    command; nothing has been called by then. *)
Lemma handleChatCommand_logger_throws env this request st e :
  Logger_debug env (trace st)
    (str "Handling chat command: " ++ command request) = Throw e ->
  handleChatCommand env this request st = (Throw e, st).
Proof. intros H. unfold handleChatCommand, bind. now rewrite H. Qed.

(** Once the entry is logged, the chat command returns in every case:
    what the pipelines throw is caught and returned as a text that starts
    with "Error: ". *)
Lemma handleChatCommand_returns env this request st :
  Logger_debug env (trace st)
    (str "Handling chat command: " ++ command request) = Ok tt ->
  exists out st', handleChatCommand env this request st = (Ok out, st').
Proof.
  intros Hlog. unfold handleChatCommand, bind at 1. rewrite Hlog.
  destruct (negb (eqb (command request) (str "/start"))); [now eexists _, _|].
  destruct (activeTextEditor env (trace st)) as [text|]; [|now eexists _, _].
  unfold tryCatch, bind, external.
  destruct (workspace_findFiles env (trace st)) as [files|e];
    [|now eexists _, _].
  destruct (1 <? length files)%nat.
  - destruct (handleBulk_spec env this files (called FindFiles st))
      as (log & st' & lines & entries & Hb & _).
    unfold called in Hb. rewrite Hb. now eexists _, _.
  - destruct (handleSingle_spec env this text (called FindFiles st))
      as (res & st' & Hs & _).
    unfold called in Hs. rewrite Hs. destruct res; now eexists _, _.
Qed.

(** With an editor and at most one file in the workspace, the chat
    command gives the log of the single-email pipeline, or the message of
    what the pipeline threw after "Error: ". *)
Lemma handleChatCommand_single env this request st text files :
  Logger_debug env (trace st)
    (str "Handling chat command: " ++ command request) = Ok tt ->
  command request = str "/start" ->
  activeTextEditor env (trace st) = Some text ->
  workspace_findFiles env (trace st) = Ok files ->
  (length files <= 1)%nat ->
  fst (handleChatCommand env this request st) =
  match fst (handleSingleEmailAnalysis env this text (called FindFiles st)) with
  | Ok log => Ok log
  | Throw e => Ok (str "Error: " ++ errorMessage e)
  end.
Proof.
  intros Hlog Hc Ht Hf Hl. unfold handleChatCommand, bind at 1. rewrite Hlog.
  rewrite Hc, eqb_refl. cbn [negb]. rewrite Ht.
  unfold tryCatch, bind, external. rewrite Hf.
  destruct (1 <? length files)%nat eqn:E; [apply Nat.ltb_lt in E; lia|].
  unfold called.
  destruct (handleSingleEmailAnalysis _ _ _ _) as [[log|e] st']; reflexivity.
Qed.

(** C6.  A failed call to a ticket system is re-thrown by the submitter
    as an error that names the system, and so is any other exception
    inside the submitter: it returns a confirmation or throws such an
    error.  The pipeline catches that error and returns a log with it.
    The provider call, [JSON.parse] and the classifier are called outside
    the [try]: a run of the pipeline either returns a log that shows a
    created ticket, "queued for human review" or the submission error, or
    it throws what one of these three threw, and it does throw whenever
    one of them does.  The chat command throws what the logger throws at
    its entry; when the logger returns, the command returns, and for a
    single email it returns the log of the pipeline or the message of
    what the pipeline threw after "Error: ". *)
Theorem C6_errors_outside_the_try env this :
  (forall ticket st cause,
      jira_createIssue env (trace st) ticket = Throw cause ->
      fst (submitJiraTicket env ticket st)
      = Throw (ErrorObj (str "Failed to create Jira ticket: "
                         ++ errorMessage cause)))
  /\ (forall ticket st cause,
        servicenow_createTicket env (trace st) ticket = Throw cause ->
        fst (submitServiceNowTicket env ticket st)
        = Throw (ErrorObj (str "Failed to create ServiceNow ticket: "
                           ++ errorMessage cause)))
  /\ (forall ticket st,
        match fst (submitJiraTicket env ticket st) with
        | Ok confirmation =>
            startsWith (str "Jira ticket created: ") confirmation = true
        | Throw e =>
            exists cause,
              e = ErrorObj (str "Failed to create Jira ticket: "
                            ++ errorMessage cause)
        end)
  /\ (forall ticket st,
        match fst (submitServiceNowTicket env ticket st) with
        | Ok confirmation =>
            startsWith (str "ServiceNow incident created: ") confirmation
            = true
        | Throw e =>
            exists cause,
              e = ErrorObj (str "Failed to create ServiceNow ticket: "
                            ++ errorMessage cause)
        end)
  /\ (forall email st r a ticketType cause,
        chat_open env (trace st) email = Ok (Some r) ->
        r <> [] -> eqb r (str "{}") = false ->
        JSON_parse env r = Ok (Some a) ->
        validateRequiredFields a = [] ->
        classifyTicketType a = Ok ticketType ->
        let type := second (str "-") ticketType in
        let history := trace st ++ [ChatOpen email] in
        (startsWith (str "jira-") ticketType = true ->
         jira_createIssue env history (createJiraTicket a type) = Throw cause ->
         exists log,
           fst (handleSingleEmailAnalysis env this email st) = Ok log
           /\ includes
                (str "❌ Error creating ticket: Failed to create Jira ticket: "
                 ++ errorMessage cause) log = true)
        /\ (startsWith (str "jira-") ticketType = false ->
            servicenow_createTicket env history (createServiceNowTicket a type)
            = Throw cause ->
            exists log,
              fst (handleSingleEmailAnalysis env this email st) = Ok log
              /\ includes
                   (str "❌ Error creating ticket: Failed to create ServiceNow ticket: "
                    ++ errorMessage cause) log = true))
  /\ (forall email st,
        match fst (handleSingleEmailAnalysis env this email st) with
        | Ok log => resolved log /\ escapes env st email = None
        | Throw e => escapes env st email = Some e
        end)
  /\ (forall email st e,
        escapes env st email = Some e ->
        fst (handleSingleEmailAnalysis env this email st) = Throw e)
  /\ (forall request st e,
        Logger_debug env (trace st)
          (str "Handling chat command: " ++ command request) = Throw e ->
        handleChatCommand env this request st = (Throw e, st))
  /\ (forall request st,
        Logger_debug env (trace st)
          (str "Handling chat command: " ++ command request) = Ok tt ->
        exists out st', handleChatCommand env this request st = (Ok out, st'))
  /\ (forall request st text files,
        Logger_debug env (trace st)
          (str "Handling chat command: " ++ command request) = Ok tt ->
        command request = str "/start" ->
        activeTextEditor env (trace st) = Some text ->
        workspace_findFiles env (trace st) = Ok files ->
        (length files <= 1)%nat ->
        fst (handleChatCommand env this request st) =
        match fst (handleSingleEmailAnalysis env this text
                     (called FindFiles st)) with
        | Ok log => Ok log
        | Throw e => Ok (str "Error: " ++ errorMessage e)
        end).
Proof.
  split; [|split; [|split; [|split; [|split; [|split; [|split; [|split;
    [|split]]]]]]]].
  - intros ticket st cause H.
    unfold submitJiraTicket, tryCatch, bind, external, throw. now rewrite H.
  - intros ticket st cause H.
    unfold submitServiceNowTicket, tryCatch, bind, external, throw.
    now rewrite H.
  - intros ticket st.
    destruct (submitJiraTicket_spec env ticket st) as (r & -> & Hr).
    cbn [fst]. destruct r as [s|e].
    + destruct Hr as (key & _ & ->). apply startsWith_app.
    + destruct Hr as (cause & -> & _). now exists cause.
  - intros ticket st.
    destruct (submitServiceNowTicket_spec env ticket st) as (r & -> & Hr).
    cbn [fst]. destruct r as [s|e].
    + destruct Hr as (number & _ & ->). apply startsWith_app.
    + destruct Hr as (cause & -> & _). now exists cause.
  - intros email st r a ticketType cause.
    apply handleSingle_submission_error.
  - apply handleSingle_resolved_or_escapes.
  - intros email st e. apply handleSingle_escapes.
  - apply handleChatCommand_logger_throws.
  - apply handleChatCommand_returns.
  - apply handleChatCommand_single.
Qed.

(** ** HumanReviewQueue *)

(** An object put at a location that no array refers to changes the
    items of no other array. *)
Lemma readArray_insert_unreferenced (h : Heap) (l q : loc) (o : HeapObject) :
  l ∉ referenced h -> l <> q -> readArray (<[l := o]> h) q = readArray h q.
Proof.
  intros Href Hne. apply readArray_ext.
  - now apply elementsOf_insert_ne.
  - intros e He. apply itemAt_insert_ne. intros ->. apply Href.
    exact (elementsOf_referenced h q _ He).
Qed.

(** A new array with the elements of an array has its items. *)
Lemma readArray_copy (h : Heap) (l q : loc) :
  l ∉ referenced h ->
  readArray (<[l := ArrayObject (elementsOf h q)]> h) l = readArray h q.
Proof.
  intros Href. unfold readArray. rewrite elementsOf_insert_array.
  apply omap_ext_in. intros e He. apply itemAt_insert_ne. intros ->.
  apply Href. exact (elementsOf_referenced h q _ He).
Qed.

(** A change of an item leaves the elements of every array as they are. *)
Lemma elementsOf_mutateItem (h : Heap) (o l : loc)
  (f : HumanReviewItem -> HumanReviewItem) :
  elementsOf (mutateItem o f h) l = elementsOf h l.
Proof.
  unfold mutateItem, itemAt.
  destruct (h !! o) as [[elements|item]|] eqn:E; try reflexivity.
  destruct (decide (o = l)) as [<-|Hne].
  - unfold elementsOf. now rewrite lookup_insert_eq, E.
  - now apply elementsOf_insert_ne.
Qed.

Lemma itemAt_mutateItem (h : Heap) (o : loc) (item : HumanReviewItem)
  (f : HumanReviewItem -> HumanReviewItem) :
  itemAt h o = Some item -> itemAt (mutateItem o f h) o = Some (f item).
Proof.
  intros H. unfold mutateItem. rewrite H. unfold itemAt.
  now rewrite lookup_insert_eq.
Qed.

Lemma allocArray_fresh (h : Heap) :
  h !! fresh (dom h ∪ referenced h) = None
  /\ (fresh (dom h ∪ referenced h) ∉ referenced h).
Proof.
  pose proof (is_fresh (dom h ∪ referenced h)) as H. split.
  - apply not_elem_of_dom. set_solver.
  - set_solver.
Qed.

Lemma newChatCommandHandler_spec st :
  exists h st',
    newChatCommandHandler st = (Ok h, st')
    /\ heap st' !! humanReviewQueue h = Some (ArrayObject [])
    /\ readArray (heap st') (humanReviewQueue h) = []
    /\ heap st !! humanReviewQueue h = None.
Proof.
  unfold newChatCommandHandler, bind, allocArray, ret. eexists _, _.
  split; [reflexivity|]. cbn [heap humanReviewQueue].
  split; [apply lookup_insert_eq|].
  split; [|apply allocArray_fresh].
  unfold readArray. now rewrite elementsOf_insert_array.
Qed.

(** The snapshot is a new array with the elements of the queue, which
    are references to the items of the queue: no change of the array
    reaches the queue, every change of an item does. *)
Lemma getHumanReviewQueue_spec this st elements :
  heap st !! humanReviewQueue this = Some (ArrayObject elements) ->
  exists l st',
    getHumanReviewQueue this st = (Ok l, st')
    /\ trace st' = trace st
    /\ l <> humanReviewQueue this
    /\ heap st !! l = None
    /\ elementsOf (heap st') l = elements
    /\ elementsOf (heap st') (humanReviewQueue this) = elements
    /\ readArray (heap st') l = readArray (heap st) (humanReviewQueue this)
    /\ readArray (heap st') (humanReviewQueue this)
       = readArray (heap st) (humanReviewQueue this)
    /\ (forall f,
          readArray (mutateArray l f (heap st')) (humanReviewQueue this)
          = readArray (heap st) (humanReviewQueue this))
    /\ (forall item,
          readArray (pushed l item (heap st')) (humanReviewQueue this)
          = readArray (heap st) (humanReviewQueue this)
          /\ readArray (pushed (humanReviewQueue this) item (heap st')) l
             = readArray (heap st) (humanReviewQueue this))
    /\ (forall o f,
          readArray (mutateItem o f (heap st')) (humanReviewQueue this)
          = readArray (mutateItem o f (heap st')) l)
    /\ (forall o item f,
          o ∈ elements -> itemAt (heap st) o = Some item ->
          itemAt (heap st') o = Some item
          /\ itemAt (mutateItem o f (heap st')) o = Some (f item)).
Proof.
  intros Hq. unfold getHumanReviewQueue, allocArray.
  destruct (allocArray_fresh (heap st)) as [Hl Href].
  set (l := fresh (dom (heap st) ∪ referenced (heap st))) in *.
  assert (l <> humanReviewQueue this) as Hne by congruence.
  assert (elementsOf (heap st) (humanReviewQueue this) = elements) as He.
  { unfold elementsOf. now rewrite Hq. }
  exists l. eexists. split; [reflexivity|]. cbn [heap trace].
  split; [reflexivity|]. split; [exact Hne|]. split; [exact Hl|].
  split; [now rewrite elementsOf_insert_array|].
  split; [now rewrite elementsOf_insert_ne|].
  split; [now apply readArray_copy|].
  split; [now apply readArray_insert_unreferenced|].
  split; [|split; [|split]].
  - intros f. unfold mutateArray. rewrite insert_insert_eq.
    now apply readArray_insert_unreferenced.
  - intros item. split.
    + rewrite readArray_pushed_ne.
      * now apply readArray_insert_unreferenced.
      * intros E. now apply Hne.
      * unfold itemAt. now rewrite lookup_insert_eq.
    + rewrite readArray_pushed_ne.
      * now apply readArray_copy.
      * exact Hne.
      * unfold itemAt. now rewrite lookup_insert_ne, Hq.
  - intros o f. unfold readArray. rewrite !elementsOf_mutateItem.
    now rewrite elementsOf_insert_array, elementsOf_insert_ne.
  - intros o item f Ho Hitem.
    assert (itemAt (<[l := ArrayObject
                              (elementsOf (heap st) (humanReviewQueue this))]>
                      (heap st)) o = Some item) as H.
    { rewrite itemAt_insert_ne; [exact Hitem|]. intros <-.
      unfold itemAt in Hitem. now rewrite Hl in Hitem. }
    split; [exact H|]. now apply itemAt_mutateItem.
Qed.

Lemma handleChatCommand_queue env this request st :
  exists extra,
    readArray (heap (snd (handleChatCommand env this request st)))
              (humanReviewQueue this)
    = readArray (heap st) (humanReviewQueue this) ++ extra.
Proof.
  unfold handleChatCommand, bind at 1.
  destruct (Logger_debug env (trace st) _);
    [|exists []; now rewrite app_nil_r].
  destruct (negb (eqb (command request) (str "/start")));
    [exists []; now rewrite app_nil_r|].
  destruct (activeTextEditor env (trace st)) as [text|];
    [|exists []; now rewrite app_nil_r].
  unfold tryCatch, bind, external.
  destruct (workspace_findFiles env (trace st)) as [files|e];
    [|exists []; now rewrite app_nil_r].
  destruct (1 <? length files)%nat.
  - destruct (handleBulk_spec env this files (called FindFiles st))
      as (log & st' & lines & entries & Hb & [(extra & He & _) _] & _).
    unfold called in Hb. rewrite Hb. now exists extra.
  - destruct (handleSingle_spec env this text (called FindFiles st))
      as (res & st' & Hs & [(extra & He & _) _] & _).
    unfold called in Hs. rewrite Hs. destruct res; now exists extra.
Qed.

(** C9.  The queue changes by enqueueing only.  An enqueue puts exactly
    one item at the end and keeps the items before it; the single and the
    bulk pipeline leave the queue as it was or longer at its end; the
    same holds for the chat command, which runs one of them; the
    submitters and the snapshot leave it as it was.  The snapshot is a
    new array with the elements of the queue: whatever is done to that
    array, a [push] of a new item included, the queue keeps its items,
    and a later enqueue does not show in the snapshot.  The elements are
    references to
    the items of the queue, which the snapshot shares: a change made to
    an item reached through the snapshot is a change of the item in the
    queue. *)
Theorem C9_queue_is_append_only env this :
  (forall item st,
      exists st',
        addToHumanReviewQueue this item st = (Ok tt, st')
        /\ readArray (heap st') (humanReviewQueue this)
           = readArray (heap st) (humanReviewQueue this) ++ [item])
  /\ (forall email st,
        exists extra,
          readArray (heap (snd (handleSingleEmailAnalysis env this email st)))
                    (humanReviewQueue this)
          = readArray (heap st) (humanReviewQueue this) ++ extra)
  /\ (forall files st,
        exists extra,
          readArray (heap (snd (handleBulkAnalysis env this files st)))
                    (humanReviewQueue this)
          = readArray (heap st) (humanReviewQueue this) ++ extra)
  /\ (forall request st,
        exists extra,
          readArray (heap (snd (handleChatCommand env this request st)))
                    (humanReviewQueue this)
          = readArray (heap st) (humanReviewQueue this) ++ extra)
  /\ (forall ticket st,
        heap (snd (submitJiraTicket env ticket st)) = heap st
        /\ heap (snd (submitServiceNowTicket env ticket st)) = heap st)
  /\ (forall st elements,
        heap st !! humanReviewQueue this = Some (ArrayObject elements) ->
        exists snapshot st',
          getHumanReviewQueue this st = (Ok snapshot, st')
          /\ snapshot <> humanReviewQueue this
          /\ heap st !! snapshot = None
          /\ elementsOf (heap st') snapshot = elements
          /\ elementsOf (heap st') (humanReviewQueue this) = elements
          /\ readArray (heap st') snapshot
             = readArray (heap st) (humanReviewQueue this)
          /\ readArray (heap st') (humanReviewQueue this)
             = readArray (heap st) (humanReviewQueue this)
          /\ (forall f,
                readArray (mutateArray snapshot f (heap st'))
                          (humanReviewQueue this)
                = readArray (heap st) (humanReviewQueue this))
          /\ (forall item,
                readArray (pushed snapshot item (heap st'))
                          (humanReviewQueue this)
                = readArray (heap st) (humanReviewQueue this)
                /\ readArray (pushed (humanReviewQueue this) item (heap st'))
                             snapshot
                   = readArray (heap st) (humanReviewQueue this))
          /\ (forall o f,
                readArray (mutateItem o f (heap st')) (humanReviewQueue this)
                = readArray (mutateItem o f (heap st')) snapshot)
          /\ (forall o item f,
                o ∈ elements -> itemAt (heap st) o = Some item ->
                itemAt (heap st') o = Some item
                /\ itemAt (mutateItem o f (heap st')) o = Some (f item))).
Proof.
  split; [|split; [|split; [|split; [|split]]]].
  - intros item st. eexists. split; [reflexivity|].
    cbn [heap]. apply readArray_pushed.
  - intros email st.
    destruct (handleSingle_spec env this email st)
      as (res & st' & -> & [(extra & He & _) _] & _).
    now exists extra.
  - intros files st.
    destruct (handleBulk_spec env this files st)
      as (log & st' & lines & entries & -> & [(extra & He & _) _] & _).
    now exists extra.
  - apply handleChatCommand_queue.
  - intros ticket st.
    destruct (submitJiraTicket_spec env ticket st) as (r1 & -> & _).
    destruct (submitServiceNowTicket_spec env ticket st) as (r2 & -> & _).
    split; reflexivity.
  - intros st elements Hq.
    destruct (getHumanReviewQueue_spec this st elements Hq)
      as (l & st' & Hg & _ & Hne & Hl & H1 & H2 & H3 & H4 & H5 & Hp & H6 & H7).
    exists l, st'.
    repeat split; auto; try apply Hp; apply (H7 o item f); assumption.
Qed.

(** ** Bulk mode: the summary *)

(** C5, at a run over two files.  The provider analyses the first email
    and answers the second in prose, so [JSON.parse] throws for the
    second.  The run returns; both files are read, in order; the error of
    the second file is in the log under its file line; the summary counts
    two emails, one ticket created and none failed or queued. *)
Theorem C5_bulk_summary_omits_failed_file :
  exists log st',
    handleBulkAnalysis (stubEnv crashOnly jiraWorks) exampleHandler
                       [crashFile; helloFile] exampleState
    = (Ok log, st')
    /\ readFiles (trace st') = [crashFile; helloFile]
    /\ includes (str "📁 File: inbox/hello.eml" ++ [LF]
                 ++ str "❌ Error processing email: Unexpected token")
                log = true
    /\ includes (str "✅ Total emails processed: 2" ++ [LF]
                 ++ str "🎫 Tickets created: 1" ++ [LF]
                 ++ str "⚠️ Failed/Queued for review: 0")
                log = true.
Proof.
  eexists _, _. split; [vm_compute; reflexivity|].
  repeat split; vm_compute; reflexivity.
Qed.

(** ** The theorems at the example inputs *)

Lemma C1_witness :
  lowered mixedAnalysis.(requestType) = Some (str "bug report")
  /\ classifyTicketType mixedAnalysis = Ok (str "jira-bug").
Proof.
  split; [reflexivity|].
  apply (proj1 (proj2 (proj2
           (C1_classifier_rule_chain mixedAnalysis
              (str "bug report") (str "new feature request")
              (str "this task hits a bug in the epic story.")
              eq_refl eq_refl eq_refl)))).
  left. reflexivity.
Defined.

Lemma C10_witness :
  isMissing blankAnalysis.(requestType) = true
  /\ classifyTicketType blankAnalysis = Ok (str "servicenow-request").
Proof.
  split; [reflexivity|].
  apply (proj2 (proj2 (proj2 (C10_classifier_total_on_texts blankAnalysis))));
    reflexivity.
Defined.

(** C10 as stated fails: an analysis whose content is a number has no
    missing field, and the classifier throws on it. *)
Lemma C10_counterexample :
  stubParse numericJson = Ok (Some numericAnalysis)
  /\ validateRequiredFields numericAnalysis = []
  /\ classifyTicketType numericAnalysis
     = Throw (ErrorObj (str "analysis.content?.toLowerCase is not a function")).
Proof. repeat split; vm_compute; reflexivity. Qed.

Lemma C2_witness :
  truthy blankAnalysis.(accountNumber) = false
  /\ str "Account Number/Customer ID" ∈ validateRequiredFields blankAnalysis.
Proof.
  split; [reflexivity|].
  apply (proj2 (proj2 (C2_validator_missing_fields blankAnalysis)));
    reflexivity.
Defined.

Lemma C3_witness :
  exists log st' item,
    handleSingleEmailAnalysis (stubEnv emptyReply jiraWorks) exampleHandler
                              helloEmail exampleState = (Ok log, st')
    /\ includes (str "queued for human review") log = true
    /\ includes (str "Classifying request type") log = false
    /\ readArray (heap st') (humanReviewQueue exampleHandler)
       = readArray (heap exampleState) (humanReviewQueue exampleHandler)
         ++ [item]
    /\ length (readArray (heap st') (humanReviewQueue exampleHandler))
       = S (length (readArray (heap exampleState)
                              (humanReviewQueue exampleHandler)))
    /\ str "Analysis Failed" ∈ missingFields item
    /\ trace st' = trace exampleState ++ [ChatOpen helloEmail].
Proof.
  apply (C3_empty_analysis_is_queued (stubEnv emptyReply jiraWorks)
           exampleHandler helloEmail exampleState (Some (str "{}"))).
  - reflexivity.
  - right. right. reflexivity.
Defined.

Lemma C4_witness :
  forallb wellFormedLine exampleLines = true
  /\ hdr_subject
       (headers (parseEmail fromBase64
                   (renderBlock exampleLines ++ [LF; LF] ++ str "body")))
     = str "Hi  ".
Proof.
  split; [reflexivity|].
  exact (proj1 (C4_subject_of_header_block fromBase64)
               exampleLines ([LF; LF] ++ str "body") eq_refl
               (or_intror eq_refl)).
Defined.

(** C4 as stated fails: the white space at the end of a Subject value is
    kept, and a Subject line after a header without value is taken for
    the value of that header. *)
Lemma C4_counterexample :
  hdr_subject
    (headers (parseEmail fromBase64
                (str "Subject: Hi " ++ [LF; LF] ++ str "body")))
  = str "Hi "
  /\ str "Hi " <> trim (str " Hi ")
  /\ hdr_subject
       (headers (parseEmail fromBase64
                   (str "To:" ++ [LF] ++ str "Subject: Hi" ++ [LF; LF]
                    ++ str "body")))
     = [].
Proof.
  split; [vm_compute; reflexivity|]. split; [|vm_compute; reflexivity].
  vm_compute. discriminate.
Qed.

Lemma C6_witness :
  exists log,
    fst (handleSingleEmailAnalysis (stubEnv crashOnly jiraDown)
           exampleHandler crashEmail exampleState) = Ok log
    /\ includes
         (str "❌ Error creating ticket: Failed to create Jira ticket: HTTP 503")
         log = true.
Proof.
  pose proof (C6_errors_outside_the_try
                (stubEnv crashOnly jiraDown) exampleHandler)
    as (_ & _ & _ & _ & Hpath & _).
  apply (proj1 (Hpath crashEmail exampleState bugJson bugAnalysis
                      (str "jira-bug") (ErrorObj (str "HTTP 503"))
                      eq_refl ltac:(discriminate) eq_refl eq_refl eq_refl
                      eq_refl));
    reflexivity.
Defined.

(** C6 as stated fails.  A reply of the provider in prose makes
    [JSON.parse] throw; the exception leaves the pipeline, and the chat
    command returns its message, which is none of the three resolutions.
    A reply whose content is a number parses and has no missing field;
    the classifier throws on it, with the same outcome. *)
Lemma C6_counterexample :
  chat_open (stubEnv crashOnly jiraWorks) (trace exampleState) helloEmail
  = Ok (Some (str "I cannot analyze this email."))
  /\ fst (handleSingleEmailAnalysis (stubEnv crashOnly jiraWorks)
            exampleHandler helloEmail exampleState)
     = Throw (ErrorObj (str "Unexpected token 'I', is not valid JSON"))
  /\ fst (handleChatCommand (stubEnv crashOnly jiraWorks) exampleHandler
            {| command := str "/start"; participants := [str "user"];
               prompt := Some (str "Analyze this email") |}
            exampleState)
     = Ok (str "Error: Unexpected token 'I', is not valid JSON")
  /\ ~ resolved (str "Error: Unexpected token 'I', is not valid JSON")
  /\ fst (handleSingleEmailAnalysis (stubEnv numericReply jiraWorks)
            exampleHandler helloEmail exampleState)
     = Throw (ErrorObj
                (str "analysis.content?.toLowerCase is not a function"))
  /\ fst (handleChatCommand (stubEnv numericReply jiraWorks) exampleHandler
            {| command := str "/start"; participants := [str "user"];
               prompt := Some (str "Analyze this email") |}
            exampleState)
     = Ok (str "Error: analysis.content?.toLowerCase is not a function")
  /\ ~ resolved (str "Error: analysis.content?.toLowerCase is not a function").
Proof.
  repeat split; try (vm_compute; reflexivity);
    intros [H|[H|[H|H]]]; vm_compute in H; discriminate.
Qed.

Lemma C7_witness :
  (parsedContent (makeAttachment (str "a.csv") (str "text/csv") csvText)
   = Some (parseCsv csvText)
   /\ extractedText (makeAttachment (str "a.csv") (str "text/csv") csvText)
      = None)
  /\ parseCsv csvText !! str "a" = Some (Some (str "2"))
  /\ parseCsv csvText !! str "b" = Some None.
Proof.
  pose proof C7_attachment_enrichment as (Hmake & Hcsv & _).
  split; [|split].
  - apply (proj1 (proj2 (Hmake (str "a.csv") (str "text/csv") csvText))).
    reflexivity.
  - rewrite Hcsv. vm_compute. reflexivity.
  - rewrite Hcsv. vm_compute. reflexivity.
Defined.

Lemma C9_witness :
  readArray (heap queuedState) (humanReviewQueue exampleHandler)
  = [analysisFailedItem (str "Hi")]
  /\ exists snapshot st',
       getHumanReviewQueue exampleHandler queuedState = (Ok snapshot, st')
       /\ snapshot <> humanReviewQueue exampleHandler
       /\ readArray (heap st') snapshot
          = readArray (heap queuedState) (humanReviewQueue exampleHandler)
       /\ (forall f,
             readArray (mutateArray snapshot f (heap st'))
                       (humanReviewQueue exampleHandler)
             = readArray (heap queuedState) (humanReviewQueue exampleHandler))
       /\ (forall item,
             readArray (pushed snapshot item (heap st'))
                       (humanReviewQueue exampleHandler)
             = readArray (heap queuedState) (humanReviewQueue exampleHandler)
             /\ readArray (pushed (humanReviewQueue exampleHandler) item
                                  (heap st')) snapshot
                = readArray (heap queuedState)
                            (humanReviewQueue exampleHandler))
       /\ (forall o f,
             readArray (mutateItem o f (heap st'))
                       (humanReviewQueue exampleHandler)
             = readArray (mutateItem o f (heap st')) snapshot).
Proof.
  split; [vm_compute; reflexivity|].
  destruct (proj2 (proj2 (proj2 (proj2 (proj2
              (C9_queue_is_append_only (stubEnv emptyReply jiraWorks)
                                       exampleHandler)))))
              queuedState
              (elementsOf (heap queuedState) (humanReviewQueue exampleHandler))
              ltac:(vm_compute; reflexivity))
    as (snapshot & st' & Hg & Hne & _ & _ & _ & Hcopy & _ & Harr & Hpush
        & Hitem & _).
  exists snapshot, st'. repeat split; try assumption; apply Hpush.
Defined.

(** The snapshot at a queue of one item: the array is new, the item is
    the one of the queue.  Emptying the snapshot leaves the queue as it
    is; an assignment to the reason of the item of the snapshot shows in
    the queue. *)
Lemma snapshot_shares_items :
  exists snapshot st' o,
    getHumanReviewQueue exampleHandler queuedState = (Ok snapshot, st')
    /\ elementsOf (heap st') snapshot = [o]
    /\ elementsOf (heap st') (humanReviewQueue exampleHandler) = [o]
    /\ readArray (mutateArray snapshot (fun _ => []) (heap st'))
                 (humanReviewQueue exampleHandler)
       = [analysisFailedItem (str "Hi")]
    /\ readArray (mutateItem o (setReason (str "changed")) (heap st'))
                 (humanReviewQueue exampleHandler)
       = [setReason (str "changed") (analysisFailedItem (str "Hi"))].
Proof.
  eexists _, _, _. split; [reflexivity|]. repeat split; vm_compute; reflexivity.
Qed.

(** ** The pipeline in detail *)

Lemma splitGo_nonempty sep s skip cur : splitGo sep s skip cur <> [].
Proof.
  revert skip cur. induction s as [|c t IH]; intros skip cur; [easy|].
  cbn [splitGo]. destruct skip; [|apply IH].
  destruct (startsWith sep (c :: t)); [easy|apply IH].
Qed.

Lemma head_split sep s :
  splitGo sep s 0 [] !! 0%nat = Some (List.hd [] (split sep s)).
Proof.
  unfold split. pose proof (splitGo_nonempty sep s 0 []) as H.
  now destruct (splitGo sep s 0 []).
Qed.

(** A text without the separator is one piece. *)
Lemma splitGo_no_sep sep s cur :
  includes sep s = false -> splitGo sep s 0 cur = [rev cur ++ s].
Proof.
  revert cur. induction s as [|c t IH]; intros cur H.
  - cbn. now rewrite app_nil_r.
  - cbn [includes] in H. apply orb_false_iff in H as [H1 H2].
    cbn [splitGo]. rewrite H1, IH by exact H2. cbn [rev].
    now rewrite <- app_assoc.
Qed.

Lemma split_no_sep sep s : includes sep s = false -> split sep s = [s].
Proof. intros H. unfold split. now rewrite splitGo_no_sep. Qed.

(** The first piece is a prefix of the text. *)
Lemma splitGo_hd_prefix sep s cur :
  exists more, rev cur ++ s = List.hd [] (splitGo sep s 0 cur) ++ more.
Proof.
  revert cur. induction s as [|c t IH]; intros cur.
  - exists []. reflexivity.
  - cbn [splitGo]. destruct (startsWith sep (c :: t)).
    + now exists (c :: t).
    + destruct (IH (c :: cur)) as (more & Hm). exists more.
      rewrite <- Hm. cbn [rev]. now rewrite <- app_assoc.
Qed.

Lemma split_hd_prefix sep s : exists more, s = List.hd [] (split sep s) ++ more.
Proof. apply (splitGo_hd_prefix sep s []). Qed.

(** The second piece of a confirmation is the first piece of the key. *)
Lemma second_jira_confirmation (k : jsstring) :
  second (str ": ") (str "Jira ticket created: " ++ k)
  = Some (List.hd [] (split (str ": ") k)).
Proof. unfold second. cbn. apply head_split. Qed.

Lemma second_snow_confirmation (k : jsstring) :
  second (str ": ") (str "ServiceNow incident created: " ++ k)
  = Some (List.hd [] (split (str ": ") k)).
Proof. unfold second. cbn. apply head_split. Qed.

Lemma second_snow_renamed (k : jsstring) :
  second (str ": ")
         (replaceFirst (str "incident") (str "ticket")
                       (str "ServiceNow incident created: " ++ k))
  = Some (List.hd [] (split (str ": ") k)).
Proof. unfold second. cbn. apply head_split. Qed.

(** A category names a system and one of its ticket types. *)
Lemma ticketType_route (t : jsstring) :
  t ∈ ticketTypes ->
  exists s type,
    routeOf t = Some (s, type)
    /\ t = systemPrefix s ++ type
    /\ second (str "-") t = Some type
    /\ startsWith (str "jira-") t
       = match s with Jira => true | ServiceNow => false end
    /\ startsWith (str "servicenow-") t
       = match s with Jira => false | ServiceNow => true end
    /\ type ∈ match s with Jira => jiraTypes | ServiceNow => serviceNowTypes end.
Proof.
  intros H. unfold ticketTypes in H.
  rewrite !elem_of_cons, elem_of_nil in H.
  destruct H as [->|[->|[->|[->|[->|[->|[->|[]]]]]]]];
    [exists Jira|exists Jira|exists Jira|exists Jira|exists Jira
     |exists ServiceNow|exists ServiceNow];
    eexists; (split; [vm_compute; reflexivity|]);
    (split; [reflexivity|]); (split; [reflexivity|]);
    (split; [reflexivity|]); (split; [reflexivity|]);
    unfold jiraTypes, serviceNowTypes; in_list.
Qed.

Lemma classify_route (a : EmailAnalysis) (t : jsstring) :
  classifyTicketType a = Ok t ->
  exists s type,
    routeOf t = Some (s, type)
    /\ t = systemPrefix s ++ type
    /\ second (str "-") t = Some type
    /\ startsWith (str "jira-") t
       = match s with Jira => true | ServiceNow => false end
    /\ startsWith (str "servicenow-") t
       = match s with Jira => false | ServiceNow => true end
    /\ type ∈ match s with Jira => jiraTypes | ServiceNow => serviceNowTypes end.
Proof. intros H. apply ticketType_route. exact (classify_cases a t H). Qed.

Lemma classifiable_returns (a : EmailAnalysis) :
  classifiable a = true <-> exists t, classifyTicketType a = Ok t.
Proof.
  unfold classifiable. rewrite !andb_true_iff.
  rewrite classify_returns_iff. tauto.
Qed.

(** The single-email pipeline, case by case: the provider call throws;
    there is nothing to analyse; [JSON.parse] throws; the analysis has
    missing fields; the classifier throws on the complete analysis; a
    ticket is submitted to the system that the category names. *)
Lemma handleSingle_exact env this email st :
  let st1 := called (ChatOpen email) st in
  let q := humanReviewQueue this in
  handleSingleEmailAnalysis env this email st =
  match chat_open env (trace st) email with
  | Throw e => (Throw e, st1)
  | Ok reply =>
      match readReply env reply with
      | Throw e => (Throw e, st1)
      | Ok None =>
          (Ok analysisFailedLog, queued q (analysisFailedItem email) st1)
      | Ok (Some a) =>
          match validateRequiredFields a with
          | _ :: _ =>
              (Ok (missingFieldsLog a), queued q (missingFieldsItem email a) st1)
          | [] =>
              match classifyTicketType a with
              | Throw e => (Throw e, st1)
              | Ok ticketType =>
                  match routeOf ticketType with
                  | Some (s, type) =>
                      let t := createJiraTicket a (Some type) in
                      (Ok (join [LF]
                             (validatedLines a s type
                              ++ submittedLines s type a
                                   (systemAnswer env s (trace st1) t))),
                       called (submitCall s t) st1)
                  | None => (Ok [], st1)
                  end
              end
          end
      end
  end.
Proof.
  intros st1 q.
  destruct (chat_open env (trace st) email) as [reply|e] eqn:Hc.
  2:{ unfold handleSingleEmailAnalysis. monad_unfold. unfold external.
      now rewrite Hc. }
  destruct reply as [[|c s]|]; cbn [readReply].
  3:{ now rewrite (handleSingle_unanalyzable _ _ _ _ None) by auto. }
  { now rewrite (handleSingle_unanalyzable _ _ _ _ (Some [])) by auto. }
  destruct (eqb (c :: s) (str "{}")) eqn:He.
  { apply eqb_eq in He. rewrite He in Hc.
    now rewrite (handleSingle_unanalyzable _ _ _ _ (Some (str "{}"))) by auto. }
  unfold handleSingleEmailAnalysis. monad_unfold. unfold external at 1.
  rewrite Hc, He. cbn [negb].
  destruct (JSON_parse env (c :: s)) as [[a|]|e] eqn:Hj;
    [|monad_unfold; reflexivity|reflexivity].
  monad_unfold.
  destruct (validateRequiredFields a) as [|m ms] eqn:Hv.
  2:{ monad_unfold. unfold missingFieldsLog, missingFieldsItem.
      rewrite Hv. reflexivity. }
  monad_unfold.
  destruct (classifyTicketType a) as [ticketType|e] eqn:Hcl; [|reflexivity].
  destruct (classify_route a ticketType Hcl)
    as (sys & type & -> & _ & -> & -> & Hsnow & _).
  destruct sys.
  - monad_unfold. unfold submitJiraTicket, tryCatch, bind, external, throw, ret.
    cbn [fst snd systemAnswer submitCall].
    cbn [st1 called trace].
    destruct (jira_createIssue env _ _) as [[| |key]|cause];
      cbn [fst snd submittedLines]; [reflexivity|reflexivity| |reflexivity].
    rewrite second_jira_confirmation. reflexivity.
  - rewrite Hsnow. monad_unfold.
    destruct (eqb ticketType (str "servicenow-incident"));
      monad_unfold;
      unfold submitServiceNowTicket, tryCatch, bind, external, throw, ret;
      cbn [fst snd systemAnswer submitCall]; cbn [st1 called trace];
      (destruct (servicenow_createTicket env _ _) as [[| |key]|cause];
       cbn [fst snd submittedLines]; [reflexivity|reflexivity| |reflexivity]).
    + rewrite second_snow_confirmation. reflexivity.
    + rewrite second_snow_renamed. reflexivity.
Qed.

Lemma validate_nil (a : EmailAnalysis) :
  validateRequiredFields a = [] ->
  truthy a.(requestType) = true /\ truthy a.(priority) = true
  /\ (truthy a.(accountNumber) || truthy a.(customerId)) = true
  /\ truthy a.(subject) = true.
Proof.
  unfold validateRequiredFields, pushIf.
  destruct (truthy a.(requestType)), (truthy a.(priority)),
    (truthy a.(accountNumber)), (truthy a.(customerId)),
    (truthy a.(subject)); cbn; intros H; try discriminate H; auto.
Qed.

Lemma truthy_orElse (f : field) d : truthy f = true -> orElse f d = f.
Proof. intros H. unfold orElse. now rewrite H. Qed.

Lemma submissions_chat email : submissions [ChatOpen email] = [].
Proof. reflexivity. Qed.

(** X1. No ticket without a complete analysis.  Whatever the provider and the
    ticket systems answer, a run of the single-email pipeline calls the
    provider once and then submits at most one ticket.  A ticket is
    submitted only for an analysis that the provider's reply parses to and
    that passes the validation; the ticket has the fields of that
    analysis, its title is the analysis's subject (the default title
    "No Subject" is never used), and its request type, priority, subject
    and account number or customer id are not empty.  A run that submits
    a ticket leaves the review queue as it was. *)
Theorem X1_ticket_only_for_complete_analysis env this email st :
  let st' := snd (handleSingleEmailAnalysis env this email st) in
  exists calls,
    trace st' = trace st ++ ChatOpen email :: calls
    /\ (length calls <= 1)%nat
    /\ forall s t,
         (s, t) ∈ submissions calls ->
         calls = [submitCall s t]
         /\ heap st' = heap st
         /\ exists reply a,
              chat_open env (trace st) email = Ok reply
              /\ readReply env reply = Ok (Some a)
              /\ validateRequiredFields a = []
              /\ t = createJiraTicket a (tk_type t)
              /\ t = createServiceNowTicket a (tk_type t)
              /\ tk_title t = a.(subject)
              /\ truthy (tk_priority t) = true
              /\ (truthy (tk_accountNumber t) || truthy (tk_customerId t))
                 = true
              /\ truthy a.(requestType) = true.
Proof.
  intros st'. subst st'. rewrite handleSingle_exact.
  destruct (chat_open env (trace st) email) as [reply|e] eqn:Hc.
  2:{ exists []. cbn. split; [reflexivity|]. split; [lia|].
      intros s t H. inversion H. }
  destruct (readReply env reply) as [[a|]|e] eqn:Hr.
  2,3: exists []; cbn; (split; [reflexivity|]); (split; [lia|]);
       intros s t H; inversion H.
  destruct (validateRequiredFields a) as [|m ms] eqn:Hv.
  2:{ exists []. cbn. split; [reflexivity|]. split; [lia|].
      intros s t H. inversion H. }
  destruct (classifyTicketType a) as [ticketType|e] eqn:Hcl.
  2:{ exists []. cbn. split; [reflexivity|]. split; [lia|].
      intros s t H. inversion H. }
  destruct (classify_route a ticketType Hcl) as (sys & type & -> & _).
  cbn [snd called trace heap].
  exists [submitCall sys (createJiraTicket a (Some type))].
  split; [now rewrite <- app_assoc|]. split; [cbn; lia|].
  intros s t H.
  assert ((s, t) = (sys, createJiraTicket a (Some type))) as E.
  { destruct sys; cbn in H; apply list_elem_of_singleton in H; exact H. }
  inversion E; subst s t. split; [reflexivity|]. split; [reflexivity|].
  exists reply, a. destruct (validate_nil a Hv) as (Hrt & Hp & Hacc & Hs).
  repeat split; auto. cbn. now apply truthy_orElse.
Qed.

(** X2. Every complete analysis is routed by its category, when it has
    one.  For an analysis without missing fields whose request type,
    subject and content are strings (or missing), the category is the
    prefix of a ticket system and one of the ticket types that the system
    declares; the pipeline submits exactly one ticket, to that system, of
    that type, built from the analysis; the review queue is left as it
    was; the pipeline returns a log, also when the ticket system rejects
    the ticket.  When one of the three is a value of another type the
    classifier throws, and so does the pipeline, after the provider call:
    nothing is submitted and nothing is queued. *)
Theorem X2_complete_analysis_is_routed env this email st reply a :
  chat_open env (trace st) email = Ok reply ->
  readReply env reply = Ok (Some a) ->
  validateRequiredFields a = [] ->
  (classifiable a = true ->
   exists s type log,
     classifyTicketType a = Ok (systemPrefix s ++ type)
     /\ type ∈ match s with
               | Jira => jiraTypes
               | ServiceNow => serviceNowTypes
               end
     /\ handleSingleEmailAnalysis env this email st
        = (Ok log,
           called (submitCall s (createJiraTicket a (Some type)))
                  (called (ChatOpen email) st))
     /\ createJiraTicket a (Some type) = createServiceNowTicket a (Some type))
  /\ (classifiable a = false ->
      exists callee,
        classifyTicketType a = Throw (notAFunction callee)
        /\ handleSingleEmailAnalysis env this email st
           = (Throw (notAFunction callee), called (ChatOpen email) st)).
Proof.
  intros Hc Hr Hv. rewrite handleSingle_exact, Hc, Hr, Hv. split.
  - intros [t Ht]%classifiable_returns. rewrite Ht.
    destruct (classify_route a t Ht) as (s & type & -> & -> & _ & _ & _ & Hin).
    exists s, type. eexists. repeat split; auto.
  - intros Hn.
    destruct (classifyTicketType a) as [t|e] eqn:Hcl.
    { assert (classifiable a = true) as H
        by (apply classifiable_returns; now exists t).
      congruence. }
    revert Hcl. unfold classifyTicketType.
    destruct (lowered a.(content)); [|intros [= <-]; now eexists].
    destruct (lowered a.(subject)); [|intros [= <-]; now eexists].
    destruct (lowered a.(requestType)); [discriminate|].
    intros [= <-]; now eexists.
Qed.

(** X3. The log of a created ticket.  When the ticket system answers with a
    ticket key, the log is the lines up to the submission, the line
    "... ticket created successfully!" and the ticket details, whose ID is
    the text of the key before its first ": " (a key without ": " is shown
    whole).  A response object without key is reported as a created
    ticket just the same, with the ID "undefined".  For a ServiceNow
    request the word "incident" of the confirmation is replaced, which
    does not change the ID. *)
Theorem X3_created_ticket_log env this email st reply a s type key :
  chat_open env (trace st) email = Ok reply ->
  readReply env reply = Ok (Some a) ->
  validateRequiredFields a = [] ->
  classifyTicketType a = Ok (systemPrefix s ++ type) ->
  systemAnswer env s (trace st ++ [ChatOpen email])
               (createJiraTicket a (Some type)) = Ok (ResponseWith key) ->
  fst (handleSingleEmailAnalysis env this email st)
  = Ok (join [LF]
          (validatedLines a s type
           ++ [createdLine s; detailsLine s type a (ticketId key)]))
  /\ (includes (str ": ") (show key) = false -> ticketId key = show key)
  /\ (exists more, show key = ticketId key ++ more)
  /\ (key = Absent -> ticketId key = str "undefined").
Proof.
  intros Hc Hr Hv Hcl Ha. rewrite handleSingle_exact, Hc, Hr, Hv, Hcl.
  destruct (classify_route a _ Hcl) as (s' & type' & -> & Hcl' & _ & Hj & _).
  assert (s' = s /\ type' = type) as [-> ->].
  { destruct s, s'; cbn in Hcl';
      first [ now inversion Hcl' | discriminate Hcl' ]. }
  cbn [fst called trace]. rewrite Ha. cbn [submittedLines].
  split; [reflexivity|]. split; [|split].
  - unfold ticketId. intros Hn. now rewrite split_no_sep.
  - unfold ticketId. apply split_hd_prefix.
  - intros ->. reflexivity.
Qed.

Lemma includes_join_elem (m sep : jsstring) (l : list jsstring) :
  m ∈ l -> includes m (join sep l) = true.
Proof. intros H. apply (includes_join _ _ _ m H), includes_refl. Qed.

(** X4. What is queued, beyond a missing reply.  A reply that parses to
    [null] or another falsy value is handled like a missing reply.  An
    analysis with missing fields is queued with the raw email, the list
    of the validator and the analysis itself, at the end of the queue; no
    ticket system is called; the log names every missing field and ends
    with the notice of the queue. *)
Theorem X4_incomplete_analysis_is_queued env this email st reply :
  chat_open env (trace st) email = Ok reply ->
  let q := humanReviewQueue this in
  let st1 := called (ChatOpen email) st in
  (readReply env reply = Ok None ->
   handleSingleEmailAnalysis env this email st
   = (Ok analysisFailedLog, queued q (analysisFailedItem email) st1))
  /\ (forall a,
        readReply env reply = Ok (Some a) ->
        validateRequiredFields a <> [] ->
        let item := {| reason := str "Missing required fields";
                       emailContent := email;
                       missingFields := validateRequiredFields a;
                       partialAnalysis := Some a |} in
        exists log st',
          handleSingleEmailAnalysis env this email st = (Ok log, st')
          /\ readArray (heap st') q = readArray (heap st) q ++ [item]
          /\ trace st' = trace st ++ [ChatOpen email]
          /\ (forall m, m ∈ validateRequiredFields a -> includes m log = true)
          /\ includes (str "Missing required fields: ") log = true
          /\ includes (str "Validating required fields") log = true
          /\ exists lines,
               log = join [LF]
                       (lines
                        ++ [str "👤 Email has been queued for human review"])).
Proof.
  intros Hc q st1. split.
  - intros Hr. now rewrite handleSingle_exact, Hc, Hr.
  - intros a Hr Hv item. rewrite handleSingle_exact, Hc, Hr.
    destruct (validateRequiredFields a) as [|m0 ms] eqn:E; [easy|].
    eexists _, _. split; [reflexivity|]. cbn [queued heap trace st1 called].
    split; [subst item; rewrite readArray_pushed; unfold missingFieldsItem;
            now rewrite E|].
    split; [reflexivity|]. unfold missingFieldsLog. rewrite E.
    split; [|split; [|split]].
    + intros m Hm.
      apply (includes_join _ _ _
               (str "⚠️ Missing required fields: "
                ++ join (str ", ") (m0 :: ms))).
      * unfold analysedLines. cbn [app]. in_list.
      * apply includes_app_r. now apply includes_join_elem.
    + apply (includes_join _ _ _
               (str "⚠️ Missing required fields: "
                ++ join (str ", ") (m0 :: ms))).
      * unfold analysedLines. cbn [app]. in_list.
      * apply includes_app_l. vm_compute. reflexivity.
    + apply (includes_join _ _ _ (str "🔍 Validating required fields..."));
        [unfold analysedLines; cbn [app]; in_list|vm_compute; reflexivity].
    + exists (analysedLines a
              ++ [str "⚠️ Missing required fields: "
                  ++ join (str ", ") (m0 :: ms)]).
      now rewrite <- app_assoc.
Qed.

(** X5. The guards of the chat command.  The command first logs its
    name; when the logger throws, the command throws that error, and
    nothing is called or changed.  When the logger returns: a command
    other than "/start" and a missing editor are answered at once,
    nothing is called and the state stays as it is, whatever the
    workspace holds; when the file search rejects, its message is
    returned after "Error: "; with two files or more the command is the
    bulk run over the files found, and the text of the editor is not
    used. *)
Theorem X5_chat_command_guards env this request st :
  let entry :=
    Logger_debug env (trace st)
      (str "Handling chat command: " ++ command request) in
  (forall e, entry = Throw e ->
             handleChatCommand env this request st = (Throw e, st))
  /\ (entry = Ok tt ->
      command request <> str "/start" ->
      handleChatCommand env this request st
      = (Ok (str "Unknown command. Available commands: /start"), st))
  /\ (entry = Ok tt ->
      command request = str "/start" ->
      activeTextEditor env (trace st) = None ->
      handleChatCommand env this request st
      = (Ok (str "Please open an email file first."), st))
  /\ (forall text e,
        entry = Ok tt ->
        command request = str "/start" ->
        activeTextEditor env (trace st) = Some text ->
        workspace_findFiles env (trace st) = Throw e ->
        handleChatCommand env this request st
        = (Ok (str "Error: " ++ errorMessage e), called FindFiles st))
  /\ (forall text files,
        entry = Ok tt ->
        command request = str "/start" ->
        activeTextEditor env (trace st) = Some text ->
        workspace_findFiles env (trace st) = Ok files ->
        (2 <= length files)%nat ->
        handleChatCommand env this request st
        = handleBulkAnalysis env this files (called FindFiles st)).
Proof.
  intros entry. subst entry.
  split; [|split; [|split; [|split]]].
  - intros e Hlog. unfold handleChatCommand, bind at 1. now rewrite Hlog.
  - intros Hlog Hc. unfold handleChatCommand, bind at 1. rewrite Hlog.
    destruct (eqb (command request) (str "/start")) eqn:E;
      [now apply eqb_eq in E|reflexivity].
  - intros Hlog Hc He. unfold handleChatCommand, bind at 1.
    rewrite Hlog, Hc, eqb_refl. cbn [negb]. now rewrite He.
  - intros text e Hlog Hc Ht Hf. unfold handleChatCommand, bind at 1.
    rewrite Hlog, Hc, eqb_refl. cbn [negb].
    rewrite Ht. unfold tryCatch, bind, external. now rewrite Hf.
  - intros text files Hlog Hc Ht Hf Hl. unfold handleChatCommand, bind at 1.
    rewrite Hlog, Hc, eqb_refl. cbn [negb]. rewrite Ht.
    unfold tryCatch, bind, external. rewrite Hf.
    destruct (1 <? length files)%nat eqn:E;
      [|apply Nat.ltb_ge in E; lia].
    destruct (handleBulk_spec env this files (called FindFiles st))
      as (log & st' & lines & entries & Hb & _).
    unfold called in Hb. unfold called. now rewrite Hb.
Qed.

(** ** Bulk mode without failures *)

Lemma handleSingle_reliable env this email st :
  reliable env ->
  exists log st', handleSingleEmailAnalysis env this email st = (Ok log, st').
Proof.
  intros (Hchat & Hparse & Htexts & _). rewrite handleSingle_exact.
  destruct (Hchat (trace st) email) as (reply & ->).
  assert (exists a, readReply env reply = Ok a
                    /\ forall a', a = Some a' -> classifiable a' = true)
    as (a & -> & Ha).
  { destruct reply as [[|c s]|]; cbn [readReply];
      try (exists None; split; [reflexivity|discriminate]).
    destruct (eqb _ _); [exists None; split; [reflexivity|discriminate]|].
    destruct (Hparse (c :: s)) as (a & Hp). exists a. split; [exact Hp|].
    intros a' ->. exact (Htexts _ _ Hp). }
  destruct a as [a|]; [|eauto].
  destruct (validateRequiredFields a); [|eauto].
  destruct (proj1 (classifiable_returns a) (Ha a eq_refl)) as (t & Ht).
  rewrite Ht.
  destruct (classify_route a t Ht) as (sys & type & -> & _). eauto.
Qed.

Lemma processFile_reliable env this total i file pm results st :
  reliable env ->
  exists pm' result st',
    processFile env this total i file (pm, (results, st))
    = (Ok tt, (pm', (results ++ [{| be_file := fsPath file;
                                    be_result := result |}], st'))).
Proof.
  intros Hrel. unfold processFile. monad_unfold. unfold external.
  cbn [fst snd].
  destruct (proj2 (proj2 (proj2 Hrel)) (trace st) file) as (content & ->).
  destruct (handleSingle_reliable env this content
              (called (ReadFile file) st) Hrel) as (log & st' & Hs).
  unfold called at 1 in Hs. rewrite Hs. monad_unfold. now eexists _, _, _.
Qed.

Lemma forFiles_reliable env this total files i pm results st :
  reliable env ->
  exists pm' entries st',
    forFiles env this total i files (pm, (results, st))
    = (Ok tt, (pm', (results ++ entries, st')))
    /\ List.map be_file entries = List.map fsPath files.
Proof.
  intros Hrel. revert i pm results st.
  induction files as [|file files IH]; intros i pm results st.
  - exists pm, [], st. now rewrite app_nil_r.
  - cbn [forFiles]. unfold bind at 1.
    destruct (processFile_reliable env this total i file pm results st Hrel)
      as (pm1 & result & st1 & ->).
    destruct (IH (S i) pm1 (results ++ [{| be_file := fsPath file;
                                           be_result := result |}]) st1)
      as (pm2 & entries & st2 & -> & Hm).
    exists pm2, ({| be_file := fsPath file; be_result := result |} :: entries),
      st2.
    rewrite <- app_assoc. split; [reflexivity|]. cbn [List.map be_file].
    now rewrite Hm.
Qed.

(** X6. When nothing throws, the summary covers every file.  In an
    environment in which the provider, [JSON.parse] and the file system
    never throw, and in which the analyses that [JSON.parse] returns have
    strings (or nothing) as request type, subject and content, so that
    the classifier does not throw either, the bulk run records one entry
    for each file, in the order of the files, and the two counts of the
    summary add up to the number of files. *)
Theorem X6_bulk_summary_covers_all_files env this files st :
  reliable env ->
  exists log st' lines entries,
    handleBulkAnalysis env this files st = (Ok log, st')
    /\ log = join [LF] (lines ++ [bulkSummary (length files) entries])
    /\ List.map be_file entries = List.map fsPath files
    /\ (length (List.filter createdSuccessfully entries)
        + length (List.filter (fun r => negb (createdSuccessfully r)) entries)
        = length files)%nat.
Proof.
  intros Hrel.
  unfold handleBulkAnalysis. unfold withLocals at 1 2. unfold bind at 1.
  unfold appendProgress at 1, setLocals at 1. cbn [fst snd app].
  unfold bind at 1.
  lazymatch goal with
  | |- context [forFiles _ _ _ _ _ (?pm0, (?r0, _))] =>
      destruct (forFiles_reliable env this (length files) files 0%nat pm0 r0
                  st Hrel) as (pm & entries & st' & -> & Hm)
  end.
  monad_unfold. monad_unfold. eexists _, _.
  exists pm, entries. split; [reflexivity|]. split; [reflexivity|].
  split; [exact Hm|]. rewrite filter_split_length.
  apply (f_equal length) in Hm. now rewrite !length_map in Hm.
Qed.

(** ** The parser in detail *)

Lemma setHeader_lineMatch h (l : HeaderLine) :
  wellFormedLine l = true ->
  setHeader h (lineMatch l) =
  let key := toLowerCase (hl_key l) in
  if eqb key (str "subject") then
    {| hdr_subject := hl_value l; hdr_from := hdr_from h;
       hdr_to := hdr_to h; hdr_date := hdr_date h |}
  else if eqb key (str "from") then
    {| hdr_subject := hdr_subject h; hdr_from := Some (hl_value l);
       hdr_to := hdr_to h; hdr_date := hdr_date h |}
  else if eqb key (str "to") then
    {| hdr_subject := hdr_subject h; hdr_from := hdr_from h;
       hdr_to := Some (hl_value l); hdr_date := hdr_date h |}
  else if eqb key (str "date") then
    {| hdr_subject := hdr_subject h; hdr_from := hdr_from h;
       hdr_to := hdr_to h; hdr_date := Some (hl_value l) |}
  else h.
Proof.
  intros Hwf.
  destruct (wellFormedLine_inv l Hwf) as (k & ks & v & vs & Ek & Ev & _).
  unfold setHeader. destruct (group_lineMatch l) as [-> ->].
  rewrite Ek, Ev. cbn [fmap option_fmap option_map].
  destruct (toLowerCase (k :: ks)) as [|k' key'] eqn:E.
  { now apply toLowerCase_cons in E. }
  reflexivity.
Qed.

Lemma lastValue_cons key (l : HeaderLine) ls :
  lastValue key (l :: ls) =
  match lastValue key ls with
  | Some v => Some v
  | None => if eqb (toLowerCase (hl_key l)) key then Some (hl_value l) else None
  end.
Proof.
  unfold lastValue. cbn [List.filter].
  destruct (eqb (toLowerCase (hl_key l)) key).
  - cbn [List.map]. rewrite last_cons. now destruct (last _).
  - now destruct (last _).
Qed.

(** The optional field kept or overwritten. *)
Lemma foldl_setHeader_block (ls : list HeaderLine) h :
  forallb wellFormedLine ls = true ->
  foldl setHeader h (List.map lineMatch ls) =
  {| hdr_subject := default (hdr_subject h) (lastValue (str "subject") ls);
     hdr_from := match lastValue (str "from") ls with
                 | Some v => Some v
                 | None => hdr_from h
                 end;
     hdr_to := match lastValue (str "to") ls with
               | Some v => Some v
               | None => hdr_to h
               end;
     hdr_date := match lastValue (str "date") ls with
                 | Some v => Some v
                 | None => hdr_date h
                 end |}.
Proof.
  revert h. induction ls as [|l ls IH]; intros h Hwf; [now destruct h|].
  cbn [forallb] in Hwf. apply andb_true_iff in Hwf as [Hl Hls].
  cbn [List.map foldl]. rewrite IH by exact Hls.
  rewrite setHeader_lineMatch by exact Hl. rewrite !lastValue_cons.
  cbn zeta.
  destruct (eqb (toLowerCase (hl_key l)) (str "subject")) eqn:E1.
  { apply eqb_eq in E1. rewrite E1.
    change (eqb (str "subject") (str "from")) with false.
    change (eqb (str "subject") (str "to")) with false.
    change (eqb (str "subject") (str "date")) with false.
    cbn [hdr_subject hdr_from hdr_to hdr_date].
    destruct (lastValue _ ls), (lastValue _ ls), (lastValue _ ls),
      (lastValue _ ls); reflexivity. }
  destruct (eqb (toLowerCase (hl_key l)) (str "from")) eqn:E2.
  { apply eqb_eq in E2. rewrite E2.
    change (eqb (str "from") (str "to")) with false.
    change (eqb (str "from") (str "date")) with false.
    cbn [hdr_subject hdr_from hdr_to hdr_date].
    destruct (lastValue _ ls), (lastValue _ ls), (lastValue _ ls),
      (lastValue _ ls); reflexivity. }
  destruct (eqb (toLowerCase (hl_key l)) (str "to")) eqn:E3.
  { apply eqb_eq in E3. rewrite E3.
    change (eqb (str "to") (str "date")) with false.
    cbn [hdr_subject hdr_from hdr_to hdr_date].
    destruct (lastValue _ ls), (lastValue _ ls), (lastValue _ ls),
      (lastValue _ ls); reflexivity. }
  destruct (eqb (toLowerCase (hl_key l)) (str "date")) eqn:E4;
    cbn [hdr_subject hdr_from hdr_to hdr_date];
    destruct (lastValue _ ls), (lastValue _ ls), (lastValue _ ls),
      (lastValue _ ls); reflexivity.
Qed.

(** X7. The header fields of a header block.  For an email that starts with
    a well-formed header block, at the end of the email or before a blank
    line, each of [from], [to] and [date] is the value of the last line
    with that key, in any letter case, and is missing when there is no
    such line; [subject] is read in the same way and is the empty string
    when there is no such line.  Lines with any other key change
    nothing: the result depends on the lines with these four keys
    only. *)
Theorem X7_header_fields_of_header_block (decode : jsstring -> Result jsstring)
  (ls : list HeaderLine) (tail : jsstring) :
  forallb wellFormedLine ls = true ->
  tail = [] \/ startsWith [LF; LF] tail = true ->
  headers (parseEmail decode (renderBlock ls ++ tail))
  = {| hdr_subject := default [] (lastValue (str "subject") ls);
       hdr_from := lastValue (str "from") ls;
       hdr_to := lastValue (str "to") ls;
       hdr_date := lastValue (str "date") ls |}.
Proof.
  intros Hwf Htail. rewrite parseEmail_headers. unfold split.
  rewrite headerSection_block by assumption. cbn [rev app].
  unfold parseHeaders. rewrite matchAll_header_block by exact Hwf.
  rewrite foldl_setHeader_block by exact Hwf. cbn [hdr_subject hdr_from hdr_to hdr_date].
  f_equal; now destruct (lastValue _ ls).
Qed.

(** *** Header section and body *)

Lemma splitGo_skip sep xs t cur :
  splitGo sep (xs ++ t) (length xs) cur = splitGo sep t 0 cur.
Proof.
  induction xs as [|x xs IH]; [reflexivity|]. cbn [app length splitGo].
  exact IH.
Qed.

Lemma splitGo_at_sep sep t cur :
  sep <> [] ->
  splitGo sep (sep ++ t) 0 cur = rev cur :: splitGo sep t 0 [].
Proof.
  intros Hs. destruct sep as [|x sep]; [easy|].
  change ((x :: sep) ++ t) with (x :: (sep ++ t)).
  cbn [splitGo]. change (x :: sep ++ t) with ((x :: sep) ++ t).
  rewrite startsWith_app.
  replace (length (x :: sep) - 1)%nat with (length sep) by (cbn [length]; lia).
  now rewrite splitGo_skip.
Qed.

Lemma join_cons sep p (l : list jsstring) :
  l <> [] -> join sep (p :: l) = p ++ sep ++ join sep l.
Proof. now destruct l. Qed.

(** Splitting at a separator and joining with it gives the text back. *)
Lemma join_splitGo sep n s cur :
  sep <> [] -> (length s <= n)%nat ->
  join sep (splitGo sep s 0 cur) = rev cur ++ s.
Proof.
  intros Hs. revert s cur. induction n as [|n IH]; intros s cur Hn.
  - destruct s; [|cbn in Hn; lia]. cbn. now rewrite app_nil_r.
  - destruct s as [|c t]; [cbn; now rewrite app_nil_r|].
    destruct (startsWith sep (c :: t)) eqn:E.
    + apply startsWith_iff in E as [t' E]. rewrite E.
      rewrite splitGo_at_sep by exact Hs.
      rewrite join_cons by apply splitGo_nonempty.
      rewrite (IH t' []); [reflexivity|].
      apply (f_equal length) in E. rewrite length_app in E.
      destruct sep; [easy|]. cbn [length] in *. lia.
    + cbn [splitGo]. rewrite E. rewrite IH by (cbn in Hn; lia).
      cbn [rev]. now rewrite <- app_assoc.
Qed.

Lemma join_split sep s : sep <> [] -> join sep (split sep s) = s.
Proof. intros H. apply (join_splitGo sep (length s) s [] H). lia. Qed.

(** A text is a prefix of [d ++ x :: t] only inside [d], when [x] is not
    one of its units. *)
Lemma startsWith_before (w d : jsstring) x t :
  x ∉ w -> startsWith w (d ++ x :: t) = true -> startsWith w d = true.
Proof.
  revert d. induction w as [|y w IH]; intros d Hx H; [reflexivity|].
  destruct d as [|z d].
  - cbn in H. apply andb_true_iff in H as [H _]. apply N.eqb_eq in H.
    subst y. exfalso. apply Hx, list_elem_of_here.
  - cbn in H. cbn. apply andb_true_iff in H as [-> H]. cbn.
    apply IH; [|exact H]. intros Hin. apply Hx. now apply list_elem_of_further.
Qed.

Lemma includes_cons_false w c s :
  includes w (c :: s) = false ->
  startsWith w (c :: s) = false /\ includes w s = false.
Proof. cbn [includes]. apply orb_false_iff. Qed.

(** The header section is the text before the first blank line. *)
Lemma splitGo_header h b cur :
  includes [LF; LF] (h ++ [LF]) = false ->
  splitGo [LF; LF] (h ++ [LF; LF] ++ b) 0 cur
  = (rev cur ++ h) :: splitGo [LF; LF] b 0 [].
Proof.
  revert cur. induction h as [|x h IH]; intros cur H.
  - change ([] ++ [LF; LF] ++ b) with ([LF; LF] ++ b).
    rewrite (splitGo_at_sep [LF; LF] b cur) by easy.
    now rewrite app_nil_r.
  - cbn [app] in H. apply includes_cons_false in H as [H1 H2].
    cbn [app splitGo].
    assert (startsWith [LF; LF] (x :: h ++ LF :: LF :: b) = false) as ->.
    { destruct (startsWith [LF; LF] (x :: h ++ LF :: LF :: b)) eqn:E;
        [|reflexivity].
      exfalso.
      assert (startsWith [LF; LF] (x :: h ++ [LF]) = true) as E2;
        [|cbn [app] in H1; congruence].
      destruct h as [|y h]; cbn [startsWith app] in E |- *; exact E. }
    rewrite IH by exact H2. cbn [rev]. now rewrite <- app_assoc.
Qed.

(** *** A text without the attachment marker *)

Lemma run_lit_fail {R} (w : jsstring) (r : re) b s caps
  (k : cursor -> captures -> option R) :
  startsWith w s = false -> run (Seq (Lit w) r) (Cursor b s) caps k = None.
Proof.
  revert b s. induction w as [|x w IH]; intros b s H; [discriminate|].
  destruct s as [|y s]; [reflexivity|].
  cbn in H. unfold Lit. cbn [foldr]. run_step.
  destruct (x =? y) eqn:E; [|reflexivity]. cbn [andb] in H.
  apply (IH (y :: b) s H).
Qed.

Lemma exec_attachment_fail b s :
  startsWith attachmentMarker s = false ->
  exec attachmentRegex (Cursor b s) = None.
Proof. intros H. apply (run_lit_fail attachmentMarker), H. Qed.

Lemma exec_block_fail b s :
  startsWith attachmentMarker s = false ->
  exec attachmentBlockRegex (Cursor b s) = None.
Proof. intros H. apply (run_lit_fail attachmentMarker), H. Qed.

Lemma scan_no_marker (r : re) b s :
  (forall b' s', startsWith attachmentMarker s' = false ->
                 exec r (Cursor b' s') = None) ->
  includes attachmentMarker s = false ->
  scan r b s 0 = List.map inl s.
Proof.
  intros Hr. revert b. induction s as [|x s IH]; intros b H.
  - cbn [scan]. now rewrite Hr.
  - apply includes_cons_false in H as [H1 H2].
    rewrite scan_miss by now apply Hr. cbn [List.map]. now rewrite IH.
Qed.

Lemma hits_inl_all (s : jsstring) : hits (List.map inl s) = [].
Proof. induction s; [reflexivity|exact IHs]. Qed.

Lemma concat_inl_all (rep s : jsstring) :
  List.concat
    (List.map (fun i : N + Match => match i with inr _ => rep | inl x => [x] end)
              (List.map inl s)) = s.
Proof. induction s as [|x s IH]; [reflexivity|]. cbn. now rewrite IH. Qed.

(** X8. An email without a blank line.  The whole text is the header
    section: there is no body and there are no attachments, also when
    the text holds attachment blocks. *)
Theorem X8_email_without_blank_line (decode : jsstring -> Result jsstring)
  (content : jsstring) :
  includes [LF; LF] content = false ->
  parseEmail decode content
  = {| headers := parseHeaders content; body := None; attachments := [] |}.
Proof.
  intros H. unfold parseEmail. rewrite split_no_sep by exact H. reflexivity.
Qed.

(** ** The attachment pattern on a written attachment *)

Section MatcherSteps.
Context {R : Type}.
Implicit Types (k : cursor -> captures -> option R).

Lemma Lit_cons x w : Lit (x :: w) = Seq (Chr (N.eqb x)) (Lit w).
Proof. reflexivity. Qed.

Lemma run_lit w b s caps k :
  run (Lit w) (Cursor b s) caps k =
  if startsWith w s
  then k (Cursor (rev w ++ b) (drop (length w) s)) caps
  else None.
Proof.
  revert b s. induction w as [|x w IH]; intros b s.
  - reflexivity.
  - rewrite Lit_cons, run_seq, run_chr. cbn [rest before].
    destruct s as [|y s]; [reflexivity|]. cbn [startsWith length drop].
    destruct (x =? y) eqn:E; [|reflexivity]. apply N.eqb_eq in E as <-.
    rewrite IH. cbn [andb rev]. now rewrite <- app_assoc.
Qed.

Lemma run_lit_app w b s caps k :
  run (Lit w) (Cursor b (w ++ s)) caps k = k (Cursor (rev w ++ b) s) caps.
Proof. now rewrite run_lit, startsWith_app, drop_app_length. Qed.

(** [\r?] before a unit that is not a carriage return. *)
Lemma run_opt_skip p b x s caps k :
  p x = false ->
  run (Opt (Chr p)) (Cursor b (x :: s)) caps k = k (Cursor b (x :: s)) caps.
Proof. intros H. unfold Opt. cbn [run rest]. now rewrite H. Qed.

(** A lazy star over a class stops at the first position at which the
    rest of the pattern matches. *)
Lemma run_star_lazy_first p pre post b caps k res :
  forallb p pre = true ->
  (forall p1 x p2, pre = p1 ++ x :: p2 ->
                   k (Cursor (rev p1 ++ b) (x :: p2 ++ post)) caps = None) ->
  k (Cursor (rev pre ++ b) post) caps = Some res ->
  run (Star false (Chr p)) (Cursor b (pre ++ post)) caps k = Some res.
Proof.
  revert b. induction pre as [|x pre IH]; intros b Hp Hfail Hk.
  - cbn [rev app] in *. destruct post as [|y t]; [exact Hk|].
    now rewrite run_star_lazy_cons, Hk.
  - cbn [forallb] in Hp. apply andb_true_iff in Hp as [Hx Hp].
    change ((x :: pre) ++ post) with (x :: (pre ++ post)).
    rewrite run_star_lazy_cons.
    pose proof (Hfail [] x pre eq_refl) as H0. cbn [rev app] in H0.
    rewrite H0, Hx.
    apply IH; [exact Hp| |].
    + intros p1 y p2 ->. specialize (Hfail (x :: p1) y p2 eq_refl).
      cbn [rev] in Hfail. now rewrite <- app_assoc in Hfail.
    + cbn [rev] in Hk. now rewrite <- app_assoc in Hk.
Qed.

(** [\r?\n+] at a unit that ends no line. *)
Lemma run_eol_fail (r : re) b x s caps k :
  dot x = true ->
  run (Seq (Opt (Chr (N.eqb CR))) (Seq (Plus (Chr (N.eqb LF))) r))
      (Cursor b (x :: s)) caps k = None.
Proof.
  intros Hx. unfold dot, isLineTerminator in Hx.
  apply negb_true_iff in Hx. rewrite !orb_false_iff in Hx.
  destruct Hx as [[[H10 H13] _] _].
  rewrite run_seq, run_opt_skip by (now rewrite N.eqb_sym).
  unfold Plus. rewrite !run_seq, run_chr. cbn [rest].
  unfold LF. now rewrite N.eqb_sym, H10.
Qed.

(** What [\r?\n+] has passed when the rest of the pattern matched. *)
Lemma run_eol_sound (r : re) b s caps k res :
  run (Seq (Opt (Chr (N.eqb CR))) (Seq (Plus (Chr (N.eqb LF))) r))
      (Cursor b s) caps k = Some res ->
  exists ends t,
    s = ends ++ t /\ ends <> []
    /\ forallb (fun c => (c =? CR) || (c =? LF)) ends = true
    /\ run r (Cursor (rev ends ++ b) t) caps k = Some res.
Proof.
  intros H. rewrite run_seq in H. unfold Opt in H. cbn [run] in H.
  assert (forall b' s',
            run (Plus (Chr (N.eqb LF))) (Cursor b' s') caps
                (fun c' caps' => run r c' caps' k) = Some res ->
            exists lfs t, s' = lfs ++ t /\ lfs <> []
                          /\ forallb (N.eqb LF) lfs = true
                          /\ run r (Cursor (rev lfs ++ b') t) caps k = Some res)
    as Hplus.
  { intros b' s' Hp. unfold Plus in Hp. rewrite run_seq, run_chr in Hp.
    cbn [rest before] in Hp. destruct s' as [|y s']; [discriminate|].
    destruct (LF =? y) eqn:Ey; [|discriminate].
    apply run_star_chr_sound in Hp as (pre & post & -> & Hpre & Hr).
    exists (y :: pre), post. cbn [forallb]. rewrite Ey, Hpre.
    repeat split; [easy|]. cbn [rev]. now rewrite <- app_assoc. }
  assert (forall lfs, forallb (N.eqb LF) lfs = true ->
            forallb (fun c => (c =? CR) || (c =? LF)) lfs = true) as Hweak.
  { intros lfs Hl. apply forallb_forall. intros c Hc.
    rewrite forallb_forall in Hl. specialize (Hl c Hc).
    rewrite N.eqb_sym in Hl. now rewrite Hl, orb_true_r. }
  cbn [rest before] in H.
  destruct s as [|x s].
  { apply Hplus in H as (lfs & t & E & Hn & Hl & Hr).
    exists lfs, t. auto. }
  destruct (CR =? x) eqn:Ex.
  - apply N.eqb_eq in Ex as <-.
    destruct (run (Plus _) (Cursor (CR :: b) s) _ _) eqn:E1.
    + inversion H; subst. apply Hplus in E1 as (lfs & t & -> & Hn & Hl & Hr).
      exists (CR :: lfs), t. cbn [forallb]. rewrite (Hweak _ Hl).
      repeat split; [easy|]. cbn [rev]. now rewrite <- app_assoc.
    + apply Hplus in H as (lfs & t & E & Hn & Hl & Hr).
      exists lfs, t. auto.
  - apply Hplus in H as (lfs & t & E & Hn & Hl & Hr).
    exists lfs, t. auto.
Qed.

End MatcherSteps.

Lemma forallb_anyUnit (s : jsstring) : forallb anyUnit s = true.
Proof. now induction s. Qed.

Lemma oneLine_inv (s : jsstring) :
  oneLine s = true ->
  exists c t, s = c :: t /\ isSpace c = false /\ forallb dot s = true
              /\ includes endMarker s = false.
Proof.
  unfold oneLine. destruct s as [|c t]; [discriminate|].
  rewrite !andb_true_iff, !negb_true_iff. intros [[H1 H2] H3].
  now exists c, t.
Qed.

Lemma payloadText_inv (s : jsstring) :
  payloadText s = true ->
  exists c t l, s = c :: t /\ isSpace c = false /\ last s = Some l
                /\ l <> CR /\ l <> LF /\ includes endMarker s = false.
Proof.
  unfold payloadText. destruct s as [|c t]; [discriminate|].
  destruct (last (c :: t)) as [l|]; [|discriminate].
  rewrite !andb_true_iff, !negb_true_iff, orb_false_iff, !N.eqb_neq.
  intros [[H1 [H2 H3]] H4]. now exists c, t, l.
Qed.

(** A line of the block with a field on one line: the label, white
    space, the field, the end of the line. *)
Lemma run_field_line {R} (label value : jsstring) (i : nat) (r : re) b post
  caps (k : cursor -> captures -> option R) res :
  oneLine value = true ->
  stops (N.eqb LF) post ->
  run r (Cursor (LF :: rev value ++ 32 :: rev label ++ b) post)
      ((i, value) :: caps) k = Some res ->
  run (Seq (Lit label)
      (Seq (Star true (Chr isSpace))
      (Seq (Group i (Star false (Chr anyUnit)))
      (Seq (Opt (Chr (N.eqb CR))) (Seq (Plus (Chr (N.eqb LF))) r)))))
      (Cursor b (label ++ [32] ++ value ++ [LF] ++ post)) caps k = Some res.
Proof.
  intros Hv Hpost Hr.
  destruct (oneLine_inv value Hv) as (c & t & E & Hc & Hdot & _).
  rewrite run_seq, run_lit_app, run_seq.
  apply (run_star_greedy_max isSpace [32]); [reflexivity| |].
  { rewrite E. exact Hc. }
  rewrite run_seq, run_group.
  apply run_star_lazy_first; [apply forallb_anyUnit| |].
  - intros p1 x p2 Ev. apply run_eol_fail.
    rewrite forallb_forall in Hdot. apply Hdot. rewrite Ev.
    apply in_or_app. right. now left.
  - rewrite consumed_app. rewrite run_seq.
    change ([LF] ++ post) with (LF :: post).
    rewrite run_opt_skip by reflexivity. rewrite run_seq.
    apply (run_plus_greedy_max (N.eqb LF) LF []); [reflexivity|exact Hpost|].
    cbn [rev app]. cbn [rev app] in Hr. exact Hr.
Qed.

Lemma startsWith_endMarker_before (d : jsstring) t :
  startsWith endMarker (d ++ LF :: t) = true -> startsWith endMarker d = true.
Proof.
  apply startsWith_before. unfold endMarker.
  rewrite !elem_of_cons, elem_of_nil. unfold LF.
  intros H; repeat (destruct H as [H|H]; [discriminate H|]); exact H.
Qed.

(** Inside a payload the end of the block does not match. *)
Lemma no_early_end (p1 p2 : jsstring) x tail ends t :
  payloadText (p1 ++ x :: p2) = true ->
  x :: p2 ++ LF :: endMarker ++ tail = ends ++ t ->
  ends <> [] ->
  forallb (fun c => (c =? CR) || (c =? LF)) ends = true ->
  startsWith endMarker t = true -> False.
Proof.
  intros Hp E Hn He Ht.
  destruct (payloadText_inv _ Hp) as (c & s & l & _ & _ & Hl & Hcr & Hlf & Hinc).
  change (x :: p2 ++ LF :: endMarker ++ tail)
    with ((x :: p2) ++ LF :: endMarker ++ tail) in E.
  apply app_eq_inv in E as [(d & E1 & E2)|(d & E1 & E2)].
  - rewrite E2 in Ht. apply startsWith_endMarker_before in Ht.
    apply startsWith_iff in Ht as [d' ->].
    assert (includes endMarker (p1 ++ x :: p2) = true); [|congruence].
    rewrite E1. apply includes_iff. exists (p1 ++ ends), d'.
    now rewrite <- !app_assoc.
  - rewrite last_app_cons in Hl.
    assert (l ∈ ends) as Hin.
    { rewrite E1. apply elem_of_app. left.
      apply last_Some in Hl as [l' ->]. apply elem_of_app. right.
      apply list_elem_of_here. }
    rewrite forallb_forall in He. apply list_elem_of_In in Hin.
    specialize (He l Hin). apply orb_true_iff in He as [H|H];
      apply N.eqb_eq in H; congruence.
Qed.

(** The last line of the block, with the payload, and the end marker. *)
Lemma run_payload_line {R} (label value : jsstring) b tail caps
  (k : cursor -> captures -> option R) res :
  payloadText value = true ->
  k (Cursor (rev endMarker ++ LF :: rev value ++ 32 :: rev label ++ b) tail)
    ((3%nat, value) :: caps) = Some res ->
  run (Seq (Lit label)
      (Seq (Star true (Chr isSpace))
      (Seq (Group 3 (Star false (Chr anyUnit)))
      (Seq (Opt (Chr (N.eqb CR)))
      (Seq (Plus (Chr (N.eqb LF))) (Lit endMarker))))))
      (Cursor b (label ++ [32] ++ value ++ [LF] ++ endMarker ++ tail)) caps k
  = Some res.
Proof.
  intros Hv Hk.
  destruct (payloadText_inv value Hv) as (c & t & l & E & Hc & _).
  rewrite run_seq, run_lit_app, run_seq.
  apply (run_star_greedy_max isSpace [32]); [reflexivity| |].
  { rewrite E. exact Hc. }
  rewrite run_seq, run_group.
  apply run_star_lazy_first; [apply forallb_anyUnit| |].
  - intros p1 x p2 Ev.
    lazymatch goal with |- ?lhs = None => destruct lhs as [res'|] eqn:Hrun end;
      [|reflexivity].
    exfalso. apply run_eol_sound in Hrun as (ends & t' & Es & Hn & He & Hrun).
    rewrite run_lit in Hrun.
    destruct (startsWith endMarker t') eqn:Ht; [|discriminate].
    rewrite Ev in Hv. cbn [app] in Es.
    exact (no_early_end p1 p2 x tail ends t' Hv Es Hn He Ht).
  - rewrite consumed_app. rewrite run_seq.
    change ([LF] ++ endMarker ++ tail) with (LF :: endMarker ++ tail).
    rewrite run_opt_skip by reflexivity. rewrite run_seq.
    apply (run_plus_greedy_max (N.eqb LF) LF []); [reflexivity|reflexivity|].
    cbn [rev app]. rewrite run_lit_app. exact Hk.
Qed.

Lemma parseable_inv (a : Attachment) :
  parseable a = true ->
  oneLine (at_filename a) = true /\ oneLine (at_contentType a) = true
  /\ payloadText (at_content a) = true.
Proof. unfold parseable. rewrite !andb_true_iff. tauto. Qed.

(** The attachment pattern matches a written block as a whole and
    captures the three fields as they were written. *)
Lemma exec_attachment_block (a : Attachment) b tail :
  parseable a = true ->
  exec attachmentRegex (Cursor b (blockText a ++ tail))
  = Some (Cursor (rev (blockText a) ++ b) tail, groups (blockMatch a)).
Proof.
  intros Hwf. destruct (parseable_inv a Hwf) as (Hn & Ht & Hp).
  unfold exec, attachmentRegex, blockText.
  rewrite <- !app_assoc.
  rewrite run_seq, run_lit_app, run_seq.
  change ([LF] ++ str "Filename: " ++ at_filename a ++ [LF]
          ++ str "Content-Type: " ++ at_contentType a ++ [LF]
          ++ str "Content: " ++ at_content a ++ [LF]
          ++ str "--END-ATTACHMENT--" ++ tail)
    with (LF :: (str "Filename:" ++ [32] ++ at_filename a ++ [LF]
          ++ (str "Content-Type:" ++ [32] ++ at_contentType a ++ [LF]
          ++ (str "Content:" ++ [32] ++ at_content a ++ [LF]
          ++ endMarker ++ tail)))).
  rewrite run_opt_skip by reflexivity. rewrite run_seq.
  apply (run_plus_greedy_max (N.eqb LF) LF []); [reflexivity|reflexivity|].
  apply run_field_line; [exact Hn|reflexivity|].
  apply run_field_line; [exact Ht|reflexivity|].
  apply run_payload_line; [exact Hp|].
  f_equal. f_equal. f_equal.
  cbn [rev app]. unfold endMarker.
  repeat (rewrite !rev_app_distr; cbn [rev app]).
  rewrite <- !app_assoc. reflexivity.
Qed.

(** An occurrence of a text does not cross a unit that the text does not
    have. *)
Lemma includes_split_at (w a b : jsstring) x :
  x ∉ w -> includes w a = false -> includes w b = false ->
  includes w (a ++ x :: b) = false.
Proof.
  intros Hx Ha Hb. induction a as [|c a IH].
  - cbn [app includes]. rewrite Hb, orb_false_r.
    destruct (startsWith w (x :: b)) eqn:E; [|reflexivity].
    apply (startsWith_before w [] x b Hx) in E.
    destruct w; [destruct b; discriminate Hb|discriminate E].
  - apply includes_cons_false in Ha as [H1 H2].
    cbn [app includes]. rewrite (IH H2), orb_false_r.
    destruct (startsWith w (c :: a ++ x :: b)) eqn:E; [|reflexivity].
    apply (startsWith_before w (c :: a) x b Hx) in E. congruence.
Qed.

Lemma LF_not_in_endMarker : LF ∉ endMarker.
Proof.
  unfold endMarker. rewrite !elem_of_cons, elem_of_nil. unfold LF.
  intros H; repeat (destruct H as [H|H]; [discriminate H|]); exact H.
Qed.

Lemma space_not_in_endMarker : 32 ∉ endMarker.
Proof.
  unfold endMarker. rewrite !elem_of_cons, elem_of_nil.
  intros H; repeat (destruct H as [H|H]; [discriminate H|]); exact H.
Qed.

(** The text of a block between its two markers. *)
Lemma blockText_inner (a : Attachment) :
  parseable a = true ->
  exists inner,
    blockText a = attachmentMarker ++ inner ++ [LF] ++ endMarker
    /\ includes endMarker (inner ++ [LF]) = false.
Proof.
  intros Hwf. destruct (parseable_inv a Hwf) as (Hn & Ht & Hp).
  destruct (oneLine_inv _ Hn) as (? & ? & _ & _ & _ & In).
  destruct (oneLine_inv _ Ht) as (? & ? & _ & _ & _ & It).
  destruct (payloadText_inv _ Hp) as (? & ? & ? & _ & _ & _ & _ & _ & Ip).
  exists ([LF] ++ str "Filename: " ++ at_filename a ++ [LF]
          ++ str "Content-Type: " ++ at_contentType a ++ [LF]
          ++ str "Content: " ++ at_content a).
  split.
  - unfold blockText, attachmentMarker, endMarker.
    now rewrite <- !app_assoc.
  - rewrite <- !app_assoc.
    apply (includes_split_at endMarker [] _ LF LF_not_in_endMarker eq_refl).
    apply (includes_split_at endMarker (str "Filename:") _ 32
             space_not_in_endMarker eq_refl).
    apply (includes_split_at endMarker _ _ LF LF_not_in_endMarker In).
    apply (includes_split_at endMarker (str "Content-Type:") _ 32
             space_not_in_endMarker eq_refl).
    apply (includes_split_at endMarker _ _ LF LF_not_in_endMarker It).
    apply (includes_split_at endMarker (str "Content:") _ 32
             space_not_in_endMarker eq_refl).
    apply (includes_split_at endMarker _ [] LF LF_not_in_endMarker Ip).
    reflexivity.
Qed.

(** The pattern that strips the blocks matches a written block as a
    whole. *)
Lemma exec_strip_block (a : Attachment) b tail :
  parseable a = true ->
  exec attachmentBlockRegex (Cursor b (blockText a ++ tail))
  = Some (Cursor (rev (blockText a) ++ b) tail, []).
Proof.
  intros Hwf. destruct (blockText_inner a Hwf) as (inner & E & Hinc).
  rewrite E. unfold exec, attachmentBlockRegex.
  fold attachmentMarker. fold endMarker.
  rewrite <- !app_assoc. rewrite run_seq, run_lit_app, run_seq.
  rewrite (app_assoc inner [LF]).
  apply run_star_lazy_first; [apply forallb_anyUnit| |].
  - intros p1 x p2 Ev. rewrite run_lit.
    destruct (startsWith endMarker (x :: p2 ++ endMarker ++ tail)) eqn:Hs;
      [|reflexivity].
    exfalso.
    assert (exists d, x :: p2 = d ++ [LF]) as (d & Ed).
    { destruct (rev (x :: p2)) as [|l r] eqn:Er.
      - apply (f_equal length) in Er. rewrite length_rev in Er. discriminate.
      - assert (x :: p2 = rev r ++ [l]) as Ex.
        { rewrite <- (rev_involutive (x :: p2)), Er. reflexivity. }
        exists (rev r). rewrite Ex. f_equal. f_equal.
        rewrite Ex in Ev. rewrite app_assoc in Ev.
        apply app_inj_tail in Ev as [_ Ev]. congruence. }
    change (x :: p2 ++ endMarker ++ tail)
      with ((x :: p2) ++ endMarker ++ tail) in Hs.
    rewrite Ed, <- app_assoc in Hs. cbn [app] in Hs.
    apply startsWith_endMarker_before in Hs.
    apply startsWith_iff in Hs as [d' ->].
    assert (includes endMarker (inner ++ [LF]) = true); [|congruence].
    rewrite Ev. change (x :: p2) with ([] ++ x :: p2) at 1.
    rewrite Ed. apply includes_iff. exists p1, (d' ++ [LF]).
    now rewrite <- !app_assoc.
  - rewrite run_lit_app. f_equal. f_equal. f_equal.
    repeat (rewrite !rev_app_distr; cbn [rev app]).
    rewrite <- !app_assoc. reflexivity.
Qed.

(** *** The scan of a body with written attachments *)

Lemma scan_match r b (m : jsstring) tail caps :
  m <> [] ->
  exec r (Cursor b (m ++ tail)) = Some (Cursor (rev m ++ b) tail, caps) ->
  scan r b (m ++ tail) 0
  = inr {| matched := m; groups := caps |} :: scan r (rev m ++ b) tail 0.
Proof.
  intros Hm He. destruct m as [|x t]; [easy|]. cbn [app] in *.
  rewrite (scan_hit _ _ _ _ _ _ (length t) He).
  - change (x :: t ++ tail) with ((x :: t) ++ tail).
    rewrite consumed_app, scan_skip. cbn [rev]. now rewrite <- app_assoc.
  - change (x :: t ++ tail) with ((x :: t) ++ tail).
    now rewrite consumed_app.
Qed.

Lemma scan_misses r b pre post :
  (forall p1 x p2, pre = p1 ++ x :: p2 ->
                   exec r (Cursor (rev p1 ++ b) (x :: p2 ++ post)) = None) ->
  scan r b (pre ++ post) 0 = List.map inl pre ++ scan r (rev pre ++ b) post 0.
Proof.
  revert b. induction pre as [|x pre IH]; intros b H; [reflexivity|].
  cbn [app List.map]. rewrite scan_miss by apply (H [] x pre eq_refl).
  rewrite IH.
  - cbn [rev]. now rewrite <- app_assoc.
  - intros p1 y p2 ->. specialize (H (x :: p1) y p2 eq_refl).
    cbn [rev] in H. now rewrite <- app_assoc in H.
Qed.

Lemma attachmentText_block (a : Attachment) :
  attachmentText a = [LF] ++ blockText a ++ [LF].
Proof. unfold attachmentText, blockText. now rewrite <- !app_assoc. Qed.

Lemma blockText_nonempty (a : Attachment) : blockText a <> [].
Proof. unfold blockText. discriminate. Qed.

Lemma LF_not_in_marker : LF ∉ attachmentMarker.
Proof.
  unfold attachmentMarker. rewrite !elem_of_cons, elem_of_nil. unfold LF.
  intros H; repeat (destruct H as [H|H]; [discriminate H|]); exact H.
Qed.

Section WrittenAttachments.

(** One of the two patterns of the attachment loop: it starts with the
    start marker and matches a written block as a whole. *)
Variable r : re.
Variable capsOf : Attachment -> captures.
Hypothesis r_marker :
  forall b s, startsWith attachmentMarker s = false ->
              exec r (Cursor b s) = None.
Hypothesis r_block :
  forall a b tail,
    parseable a = true ->
    exec r (Cursor b (blockText a ++ tail))
    = Some (Cursor (rev (blockText a) ++ b) tail, capsOf a).

Lemma scan_written (atts : list Attachment) b :
  forallb parseable atts = true ->
  scan r b (List.concat (List.map attachmentText atts)) 0
  = List.flat_map
      (fun a => [inl LF; inr {| matched := blockText a; groups := capsOf a |};
                 inl LF]) atts.
Proof.
  revert b. induction atts as [|a atts IH]; intros b Hwf.
  - cbn [List.map List.concat List.flat_map scan].
    now rewrite r_marker.
  - cbn [forallb] in Hwf. apply andb_true_iff in Hwf as [Ha Hwf].
    cbn [List.map List.concat List.flat_map].
    rewrite attachmentText_block, <- !app_assoc. cbn [app].
    rewrite scan_miss by (apply r_marker; reflexivity).
    rewrite (scan_match r _ (blockText a) _ (capsOf a)
               (blockText_nonempty a) (r_block a _ _ Ha)).
    cbn [app]. rewrite scan_miss by (apply r_marker; reflexivity).
    now rewrite IH.
Qed.

Lemma written_starts_LF (atts : list Attachment) :
  List.concat (List.map attachmentText atts) = []
  \/ exists t, List.concat (List.map attachmentText atts) = LF :: t.
Proof.
  destruct atts as [|a atts]; [now left|right].
  cbn [List.map List.concat]. unfold attachmentText. cbn [app]. eauto.
Qed.

Lemma scan_text (text rest : jsstring) b :
  includes attachmentMarker text = false ->
  rest = [] \/ (exists t, rest = LF :: t) ->
  scan r b (text ++ rest) 0
  = List.map inl text ++ scan r (rev text ++ b) rest 0.
Proof.
  intros Ht Hrest. apply scan_misses. intros p1 x p2 Ev. apply r_marker.
  destruct (startsWith attachmentMarker (x :: p2 ++ rest)) eqn:E;
    [|reflexivity].
  assert (startsWith attachmentMarker (x :: p2) = true) as Hs.
  { destruct Hrest as [->|[t ->]].
    - now rewrite app_nil_r in E.
    - apply (startsWith_before _ (x :: p2) LF t LF_not_in_marker E). }
  assert (includes attachmentMarker text = true); [|congruence].
  rewrite Ev. apply includes_app_r. cbn [includes]. now rewrite Hs.
Qed.

Lemma scan_body (text : jsstring) (atts : list Attachment) :
  includes attachmentMarker text = false ->
  forallb parseable atts = true ->
  scan r [] (text ++ List.concat (List.map attachmentText atts)) 0
  = List.map inl text
    ++ List.flat_map
         (fun a => [inl LF; inr {| matched := blockText a; groups := capsOf a |};
                    inl LF]) atts.
Proof.
  intros Ht Hwf. rewrite scan_text by (auto using written_starts_LF).
  now rewrite scan_written.
Qed.

End WrittenAttachments.

Lemma hits_app (a b : list (N + Match)) : hits (a ++ b) = hits a ++ hits b.
Proof. apply omap_app. Qed.

Lemma hits_written (capsOf : Attachment -> captures) (atts : list Attachment) :
  hits (List.flat_map
          (fun a => [inl LF; inr {| matched := blockText a; groups := capsOf a |};
                     inl LF]) atts)
  = List.map (fun a => {| matched := blockText a; groups := capsOf a |}) atts.
Proof.
  induction atts as [|a atts IH]; [reflexivity|].
  cbn [List.flat_map List.map app]. rewrite hits_inl, hits_inr, hits_inl.
  now rewrite IH.
Qed.

Lemma strip_written (capsOf : Attachment -> captures) (atts : list Attachment) :
  List.concat
    (List.map (fun i : N + Match => match i with inr _ => [] | inl x => [x] end)
       (List.flat_map
          (fun a => [inl LF; inr {| matched := blockText a; groups := capsOf a |};
                     inl LF]) atts))
  = List.flat_map (fun _ => [LF; LF]) atts.
Proof.
  induction atts as [|a atts IH]; [reflexivity|].
  cbn [List.flat_map List.map app List.concat]. now rewrite IH.
Qed.

(** *** White space at the end of a text *)

Lemma trimStart_spaces (w a : jsstring) :
  forallb isSpace w = true -> trimStart (w ++ a) = trimStart a.
Proof.
  induction w as [|x w IH]; [reflexivity|]. cbn [forallb app trimStart].
  intros [-> H]%andb_true_iff. now apply IH.
Qed.

Lemma trimStart_app (s t : jsstring) :
  trimStart (s ++ t) =
  if forallb isSpace s then trimStart t else trimStart s ++ t.
Proof.
  induction s as [|x s IH]; [reflexivity|]. cbn [forallb app trimStart].
  destruct (isSpace x); [exact IH|reflexivity].
Qed.

Lemma forallb_rev (p : N -> bool) (s : jsstring) :
  forallb p (rev s) = forallb p s.
Proof.
  induction s as [|x s IH]; [reflexivity|]. cbn [rev forallb].
  rewrite forallb_app, IH. cbn [forallb]. rewrite andb_true_r.
  apply andb_comm.
Qed.

Lemma trimEnd_spaces (a w : jsstring) :
  forallb isSpace w = true -> trimEnd (a ++ w) = trimEnd a.
Proof.
  intros H. unfold trimEnd. rewrite rev_app_distr, trimStart_spaces;
    [reflexivity|]. now rewrite forallb_rev.
Qed.

Lemma trim_spaces (s w : jsstring) :
  forallb isSpace w = true -> trim (s ++ w) = trim s.
Proof.
  intros H. unfold trim. rewrite trimStart_app.
  destruct (forallb isSpace s) eqn:E.
  - pose proof (trimStart_spaces s [] E) as H1. rewrite app_nil_r in H1.
    pose proof (trimStart_spaces w [] H) as H2. rewrite app_nil_r in H2.
    now rewrite H1, H2.
  - now apply trimEnd_spaces.
Qed.

Lemma attachmentOf_blockMatch decode (a : Attachment) :
  attachmentOf decode (blockMatch a) = decoded decode a.
Proof. reflexivity. Qed.

(** The parse of an email made of a header text, a text without the
    start marker and written attachments. *)
Lemma parse_written_email
  (decode : jsstring -> Result jsstring) (h text : jsstring)
  (atts : list Attachment) :
  includes [LF; LF] (h ++ [LF]) = false ->
  includes attachmentMarker text = false ->
  forallb parseable atts = true ->
  parseEmail decode
    (h ++ [LF; LF] ++ text ++ List.concat (List.map attachmentText atts))
  = {| headers := parseHeaders h;
       body := nonEmpty (trim text);
       attachments := omap (decoded decode) atts |}.
Proof.
  intros Hh Ht Hwf. unfold parseEmail, split.
  rewrite splitGo_header by exact Hh. cbn [List.hd List.tl rev app].
  set (bodyContent := text ++ List.concat (List.map attachmentText atts)).
  rewrite (join_splitGo [LF; LF] (length bodyContent) bodyContent [])
    by (easy || lia).
  cbn [rev app]. unfold matchAll, replaceAll. subst bodyContent.
  rewrite (scan_body attachmentRegex (fun a => groups (blockMatch a))
             exec_attachment_fail exec_attachment_block text atts Ht Hwf).
  rewrite (scan_body attachmentBlockRegex (fun _ => [])
             exec_block_fail exec_strip_block text atts Ht Hwf).
  rewrite hits_app, hits_inl_all, hits_written. cbn [app].
  rewrite foldl_addAttachment. cbn [app].
  rewrite List.map_app, List.concat_app, concat_inl_all, strip_written.
  rewrite trim_spaces.
  2:{ clear. induction atts as [|a atts IH]; [reflexivity|exact IH]. }
  f_equal.
  clear. induction atts as [|a atts IH]; [reflexivity|].
  cbn [List.map].
  change (omap (attachmentOf decode) (?m :: ?ms))
    with (match attachmentOf decode m with
          | Some x => x :: omap (attachmentOf decode) ms
          | None => omap (attachmentOf decode) ms
          end).
  change (omap (decoded decode) (a :: atts))
    with (match decoded decode a with
          | Some x => x :: omap (decoded decode) atts
          | None => omap (decoded decode) atts
          end).
  rewrite IH. reflexivity.
Qed.

(** X9. Written attachments are read back.  Take an email with the text [h]
    before its first blank line and, after it, a text without the start
    marker followed by attachments in the format in which
    [generateTestEmail] writes them.  When every file name and content
    type is on one line and every payload starts and ends with a
    character of its own, none of them with the end marker, the parser
    returns the attachments in the order written, each with its file
    name and content type as written and the decoder's result for its
    payload, leaving out those that the decoder rejects; the body is the
    text before the first block, and the headers are read from [h]
    alone. *)
Theorem X9_written_attachments_are_read_back
  (decode : jsstring -> Result jsstring) (h text : jsstring)
  (atts : list Attachment) :
  includes [LF; LF] (h ++ [LF]) = false ->
  includes attachmentMarker text = false ->
  forallb parseable atts = true ->
  parseEmail decode
    (h ++ [LF; LF] ++ text ++ List.concat (List.map attachmentText atts))
  = {| headers := parseHeaders h;
       body := nonEmpty (trim text);
       attachments := omap (decoded decode) atts |}.
Proof. apply parse_written_email. Qed.

(** ** AnalysisClient: what is handed to [JSON.parse] *)

Section GreedyStar.
Context {R : Type}.
Implicit Types (k : cursor -> captures -> option R).

(** A greedy star hands over where it stands when the rest of the
    pattern matches at no later position. *)
Lemma run_star_greedy_none p s b caps k :
  (forall q1 q2, s = q1 ++ q2 -> q1 <> [] ->
                 k (Cursor (rev q1 ++ b) q2) caps = None) ->
  run (Star true (Chr p)) (Cursor b s) caps k = k (Cursor b s) caps.
Proof.
  revert b. induction s as [|x t IH]; intros b H; [apply run_star_nil|].
  rewrite run_star_greedy_cons. destruct (p x); [|reflexivity].
  rewrite IH.
  - pose proof (H [x] t eq_refl) as H1. cbn [rev app] in H1.
    now rewrite H1.
  - intros q1 q2 -> Hq. specialize (H (x :: q1) q2 eq_refl).
    cbn [rev] in H. rewrite <- app_assoc in H. now apply H.
Qed.

(** A greedy star goes to the last position at which the rest of the
    pattern matches. *)
Lemma run_star_greedy_last p pre post b caps k res :
  forallb p pre = true ->
  (forall q1 q2, post = q1 ++ q2 -> q1 <> [] ->
                 k (Cursor (rev q1 ++ rev pre ++ b) q2) caps = None) ->
  k (Cursor (rev pre ++ b) post) caps = Some res ->
  run (Star true (Chr p)) (Cursor b (pre ++ post)) caps k = Some res.
Proof.
  revert b. induction pre as [|x pre IH]; intros b Hp Hlater Hk.
  - cbn [rev app] in *. now rewrite run_star_greedy_none.
  - cbn [forallb] in Hp. apply andb_true_iff in Hp as [Hx Hp].
    change ((x :: pre) ++ post) with (x :: (pre ++ post)).
    rewrite run_star_greedy_cons, Hx. rewrite (IH (x :: b)); auto.
    + intros q1 q2 E Hq. specialize (Hlater q1 q2 E Hq).
      cbn [rev] in Hlater. now rewrite <- app_assoc in Hlater.
    + cbn [rev] in Hk. now rewrite <- app_assoc in Hk.
Qed.

End GreedyStar.

(** *** The first match *)

Lemma search_first r b pre post c' caps :
  (forall p1 x p2, pre = p1 ++ x :: p2 ->
                   exec r (Cursor (rev p1 ++ b) (x :: p2 ++ post)) = None) ->
  exec r (Cursor (rev pre ++ b) post) = Some (c', caps) ->
  search r b (pre ++ post)
  = Some {| matched := consumed (Cursor (rev pre ++ b) post) c';
            groups := caps |}.
Proof.
  revert b. induction pre as [|x pre IH]; intros b Hfail He.
  - cbn [rev app] in *. destruct post; cbn [search]; now rewrite He.
  - cbn [app search]. pose proof (Hfail [] x pre eq_refl) as H0.
    cbn [rev app] in H0. rewrite H0. cbn [rev] in He |- *.
    rewrite <- app_assoc in He |- *. apply IH; [|exact He].
    intros p1 y p2 ->. specialize (Hfail (x :: p1) y p2 eq_refl).
    cbn [rev] in Hfail. now rewrite <- app_assoc in Hfail.
Qed.

Lemma search_none r b s :
  (forall p1 p2, s = p1 ++ p2 -> exec r (Cursor (rev p1 ++ b) p2) = None) ->
  search r b s = None.
Proof.
  revert b. induction s as [|x t IH]; intros b H.
  - cbn [search]. pose proof (H [] [] eq_refl) as H0. cbn [rev app] in H0.
    now rewrite H0.
  - cbn [search]. pose proof (H [] (x :: t) eq_refl) as H0.
    cbn [rev app] in H0. rewrite H0. apply IH.
    intros p1 p2 ->. specialize (H (x :: p1) p2 eq_refl).
    cbn [rev] in H. now rewrite <- app_assoc in H.
Qed.

Lemma includes_false_suffix (w a b : jsstring) :
  includes w (a ++ b) = false -> startsWith w b = false.
Proof.
  intros H. destruct (startsWith w b) eqn:E; [|reflexivity].
  rewrite includes_app_r in H; [discriminate|].
  destruct b; cbn [includes]; now rewrite E.
Qed.

(** A pattern that starts with a text matches nowhere in a text without
    it. *)
Lemma search_lit_none (w : jsstring) (r : re) b s :
  includes w s = false -> search (Seq (Lit w) r) b s = None.
Proof.
  intros H. apply search_none. intros p1 p2 ->.
  apply run_lit_fail. now apply (includes_false_suffix w p1).
Qed.

(** *** The fenced block *)

Lemma startsWith_before_cons (c0 : N) (w d : jsstring) x t :
  x ∉ w -> d <> [] ->
  startsWith (c0 :: w) (d ++ x :: t) = true -> startsWith (c0 :: w) d = true.
Proof.
  intros Hx Hd H. destruct d as [|z d]; [easy|]. cbn [app startsWith] in *.
  apply andb_true_iff in H as [-> H]. cbn [andb].
  now apply (startsWith_before w d x t).
Qed.

(** An occurrence of the opening fence that starts before another one
    ends before it. *)
Lemma startsWith_fenceOpen_before (d t : jsstring) :
  d <> [] ->
  startsWith fenceOpen (d ++ fenceOpen ++ t) = true ->
  startsWith fenceOpen d = true.
Proof.
  intros Hd H. unfold fenceOpen in *.
  do 8 (destruct d as [|? d];
        [ cbn [app startsWith] in H;
          repeat match goal with
                 | H : (_ && _) = true |- _ =>
                     let H1 := fresh in
                     apply andb_true_iff in H as [H1 H]
                 end;
          try easy;
          match goal with
          | H : _ = true |- _ => vm_compute in H; discriminate H
          end
        | ]).
  cbn [app startsWith] in H |- *. exact H.
Qed.

Lemma exec_fenced (payload post b : jsstring) :
  includes fenceClose payload = false ->
  exec fencedJsonRegex (Cursor b (fenceOpen ++ payload ++ fenceClose ++ post))
  = Some (Cursor (rev (fenceOpen ++ payload ++ fenceClose) ++ b) post,
          [(1%nat, payload)]).
Proof.
  intros Hp. unfold exec, fencedJsonRegex.
  rewrite run_seq, run_lit_app, run_seq, run_group.
  apply run_star_lazy_first; [apply forallb_anyUnit| |].
  - intros p1 x p2 Ev. rewrite run_lit.
    destruct (startsWith fenceClose (x :: p2 ++ fenceClose ++ post)) eqn:E;
      [|reflexivity].
    exfalso.
    assert (LF ∉ [96; 96; 96]) as Hnot.
    { rewrite !elem_of_cons, elem_of_nil. unfold LF.
      intros H; repeat (destruct H as [H|H]; [discriminate H|]); exact H. }
    pose proof (startsWith_before_cons LF [96; 96; 96] (x :: p2) LF
                  ([96; 96; 96] ++ post) Hnot ltac:(easy) E) as E2.
    assert (includes fenceClose payload = true); [|congruence].
    rewrite Ev. apply includes_app_r. cbn [includes].
    apply orb_true_iff. left. exact E2.
  - rewrite run_lit_app, consumed_app. f_equal. f_equal. f_equal.
    repeat (rewrite !rev_app_distr; cbn [rev app]).
    rewrite <- !app_assoc. reflexivity.
Qed.

Lemma jsonText_fenced (pre payload post : jsstring) :
  includes fenceOpen pre = false ->
  includes fenceClose payload = false ->
  jsonText (pre ++ fenceOpen ++ payload ++ fenceClose ++ post)
  = Some match payload with
         | [] => fenceOpen ++ fenceClose
         | _ :: _ => payload
         end.
Proof.
  intros Hpre Hp. unfold jsonText, matchOnce.
  assert (forall p1 x p2, pre = p1 ++ x :: p2 ->
            exec fencedJsonRegex
              (Cursor (rev p1 ++ [])
                      (x :: p2 ++ fenceOpen ++ payload ++ fenceClose ++ post))
            = None) as Hfail.
  { intros p1 x p2 Ev. apply run_lit_fail.
    destruct (startsWith fenceOpen (x :: p2 ++ fenceOpen ++ payload
                                    ++ fenceClose ++ post)) eqn:E;
      [|reflexivity].
    change (x :: p2 ++ fenceOpen ++ payload ++ fenceClose ++ post)
      with ((x :: p2) ++ fenceOpen ++ payload ++ fenceClose ++ post) in E.
    apply startsWith_fenceOpen_before in E; [|easy].
    assert (includes fenceOpen pre = true); [|congruence].
    rewrite Ev. apply includes_app_r. cbn [includes]. now rewrite E. }
  rewrite (search_first fencedJsonRegex [] pre
             (fenceOpen ++ payload ++ fenceClose ++ post)
             _ _ Hfail (exec_fenced payload post _ Hp)).
  cbn [group groups List.find fst snd Nat.eqb fmap option_fmap option_map].
  rewrite !app_assoc, consumed_app. cbn [matched].
  destruct payload; [|reflexivity]. now rewrite app_nil_r.
Qed.

Lemma search_fenced_none b s :
  includes fenceOpen s = false -> search fencedJsonRegex b s = None.
Proof. apply search_lit_none. Qed.

Lemma search_object_none b s :
  includes (str "{") s = false -> search jsonObjectRegex b s = None.
Proof. apply search_lit_none. Qed.

(** *** The braces *)

Lemma startsWith_singleton (x : N) (s : jsstring) :
  startsWith [x] s = true -> exists t, s = x :: t.
Proof.
  destruct s as [|y s]; [discriminate|]. cbn [startsWith].
  rewrite andb_true_r. intros ->%N.eqb_eq. now exists s.
Qed.

Lemma includes_singleton_false (x : N) (s : jsstring) :
  x ∉ s -> includes [x] s = false.
Proof.
  intros H. destruct (includes [x] s) eqn:E; [|reflexivity].
  apply includes_iff in E as (a & b & ->). exfalso. apply H.
  apply elem_of_app. right. apply list_elem_of_here.
Qed.

Lemma exec_object (mid post b : jsstring) :
  125 ∉ post ->
  exec jsonObjectRegex (Cursor b ([123] ++ mid ++ [125] ++ post))
  = Some (Cursor (rev ([123] ++ mid ++ [125]) ++ b) post, []).
Proof.
  intros Hpost. unfold exec, jsonObjectRegex.
  rewrite run_seq, (run_lit_app [123]), run_seq.
  apply run_star_greedy_last; [apply forallb_anyUnit| |].
  - intros q1 q2 E Hq. rewrite run_lit.
    destruct (startsWith (str "}") q2) eqn:Es; [|reflexivity].
    exfalso. apply startsWith_singleton in Es as [t ->].
    destruct q1 as [|y q1]; [easy|]. cbn [app] in E. inversion E; subst.
    apply Hpost. apply elem_of_app. right. apply list_elem_of_here.
  - rewrite (run_lit_app [125]). f_equal. f_equal. f_equal.
    repeat (rewrite !rev_app_distr; cbn [rev app]).
    rewrite <- !app_assoc. reflexivity.
Qed.

Lemma jsonText_object (pre mid post : jsstring) :
  includes fenceOpen (pre ++ [123] ++ mid ++ [125] ++ post) = false ->
  123 ∉ pre -> 125 ∉ post ->
  jsonText (pre ++ [123] ++ mid ++ [125] ++ post)
  = Some ([123] ++ mid ++ [125]).
Proof.
  intros Hf Hpre Hpost. unfold jsonText, matchOnce.
  rewrite search_fenced_none by exact Hf.
  assert (forall p1 x p2, pre = p1 ++ x :: p2 ->
            exec jsonObjectRegex
              (Cursor (rev p1 ++ [])
                      (x :: p2 ++ [123] ++ mid ++ [125] ++ post)) = None)
    as Hfail.
  { intros p1 x p2 Ev. apply (run_lit_fail [123]). cbn [startsWith].
    rewrite andb_true_r. apply N.eqb_neq. intros <-. apply Hpre.
    rewrite Ev. apply elem_of_app. right. apply list_elem_of_here. }
  rewrite (search_first jsonObjectRegex [] pre ([123] ++ mid ++ [125] ++ post)
             _ _ Hfail (exec_object mid post _ Hpost)).
  cbn [group groups List.find fmap option_fmap option_map matched].
  now rewrite !app_assoc, consumed_app.
Qed.

Lemma jsonText_none (response : jsstring) :
  includes fenceOpen response = false ->
  123 ∉ response \/ 125 ∉ response ->
  jsonText response = None.
Proof.
  intros Hf Hb. unfold jsonText, matchOnce.
  rewrite search_fenced_none by exact Hf.
  destruct Hb as [Hb|Hb].
  - rewrite search_object_none; [reflexivity|].
    now apply includes_singleton_false.
  - rewrite search_none; [reflexivity|]. intros p1 p2 ->.
    destruct (exec jsonObjectRegex (Cursor (rev p1 ++ []) p2))
      as [[c' caps]|] eqn:E; [|reflexivity].
    exfalso. unfold exec, jsonObjectRegex in E.
    rewrite run_seq, run_lit in E.
    destruct (startsWith (str "{") p2); [|discriminate].
    rewrite run_seq in E.
    apply run_star_chr_sound in E as (a & b & Ed & _ & E).
    rewrite run_lit in E.
    destruct (startsWith (str "}") b) eqn:Es; [|discriminate].
    apply startsWith_singleton in Es as [t ->]. apply Hb.
    apply elem_of_app. right.
    rewrite <- (take_drop (length (str "{")) p2), Ed.
    apply elem_of_app. right. apply elem_of_app. right.
    apply list_elem_of_here.
Qed.

(** *** [analyzeEmail] *)

(** What [analyzeEmail] makes of the result of [JSON.parse]. *)
Lemma analyzeEmailContent_string chat parse email st c s :
  chat (trace st) (EmailAnalyzer.analysisPrompt email) = Ok (VString (c :: s)) ->
  EmailAnalyzer.analyzeEmail chat parse email st
  = (match jsonText (c :: s) with
     | None => Throw (ErrorObj (str "No JSON found in response"))
     | Some text =>
         match parse text with
         | Ok analysis => Ok analysis
         | Throw e => Throw (analysisError e)
         end
     end,
     called (ChatOpen (EmailAnalyzer.analysisPrompt email)) st).
Proof.
  intros Hc. unfold EmailAnalyzer.analyzeEmail, tryCatch, bind, external,
    parseResponse, throw, ret, called.
  rewrite Hc. destruct (jsonText (c :: s)) as [text|]; [|reflexivity].
  now destruct (parse text).
Qed.

Lemma analyzeEmail_string chat parse stringify parsedEmail st c s :
  chat (trace st) (Extension.analysisPrompt stringify parsedEmail)
  = Ok (VString (c :: s)) ->
  Extension.analyzeEmail chat parse stringify parsedEmail st
  = (match jsonText (c :: s) with
     | None => Throw (ErrorObj (str "No JSON found in response"))
     | Some text =>
         match parse text with
         | Ok analysis =>
             Extension.setAttachments analysis (attachments parsedEmail)
         | Throw e => Throw (analysisError e)
         end
     end,
     called (ChatOpen (Extension.analysisPrompt stringify parsedEmail)) st).
Proof.
  intros Hc. unfold Extension.analyzeEmail, tryCatch, bind, external,
    parseResponse, throw, ret, called.
  rewrite Hc. destruct (jsonText (c :: s)) as [text|]; [|reflexivity].
  destruct (parse text) as [j|e]; [|reflexivity].
  now destruct j.
Qed.

(** X10. The failures of [analyzeEmail] before [JSON.parse], in both
    versions.  A response that is not a string, or is the empty string,
    is refused with "Invalid response from chat model".  A rejection of
    the chat command is passed on when it is an [Error] and replaced by
    the error "Unknown error during analysis" when it is not.  Whatever
    happens, [analyzeEmail] rejects with an [Error] only, and it calls
    the chat command exactly once. *)
Theorem X10_analyzeEmail_failures
  (chat : list Call -> jsstring -> Result JsValue)
  (parse : jsstring -> Result Json)
  (stringify : JsObject (option jsstring) -> jsstring) :
  (forall email st v,
      chat (trace st) (EmailAnalyzer.analysisPrompt email) = Ok v ->
      (forall c s, v <> VString (c :: s)) ->
      EmailAnalyzer.analyzeEmail chat parse email st
      = (Throw (ErrorObj (str "Invalid response from chat model")),
         called (ChatOpen (EmailAnalyzer.analysisPrompt email)) st))
  /\ (forall parsedEmail st v,
        chat (trace st) (Extension.analysisPrompt stringify parsedEmail) = Ok v ->
        (forall c s, v <> VString (c :: s)) ->
        Extension.analyzeEmail chat parse stringify parsedEmail st
        = (Throw (ErrorObj (str "Invalid response from chat model")),
           called (ChatOpen (Extension.analysisPrompt stringify parsedEmail)) st))
  /\ (forall email st e,
        chat (trace st) (EmailAnalyzer.analysisPrompt email) = Throw e ->
        EmailAnalyzer.analyzeEmail chat parse email st
        = (Throw match e with
                 | ErrorObj message => ErrorObj message
                 | NonError => ErrorObj (str "Unknown error during analysis")
                 end,
           called (ChatOpen (EmailAnalyzer.analysisPrompt email)) st))
  /\ (forall parsedEmail st e,
        chat (trace st) (Extension.analysisPrompt stringify parsedEmail) = Throw e ->
        Extension.analyzeEmail chat parse stringify parsedEmail st
        = (Throw match e with
                 | ErrorObj message => ErrorObj message
                 | NonError => ErrorObj (str "Unknown error during analysis")
                 end,
           called (ChatOpen (Extension.analysisPrompt stringify parsedEmail)) st))
  /\ (forall email st,
        fst (EmailAnalyzer.analyzeEmail chat parse email st) <> Throw NonError
        /\ snd (EmailAnalyzer.analyzeEmail chat parse email st)
           = called (ChatOpen (EmailAnalyzer.analysisPrompt email)) st)
  /\ (forall parsedEmail st,
        fst (Extension.analyzeEmail chat parse stringify parsedEmail st)
        <> Throw NonError
        /\ snd (Extension.analyzeEmail chat parse stringify parsedEmail st)
           = called (ChatOpen (Extension.analysisPrompt stringify parsedEmail)) st).
Proof.
  split; [|split; [|split; [|split; [|split]]]].
  - intros email st v Hc Hv.
    unfold EmailAnalyzer.analyzeEmail, tryCatch, bind, external,
      parseResponse, throw, ret, called. rewrite Hc.
    destruct v as [| |[|c s]|]; try reflexivity. now destruct (Hv c s).
  - intros parsedEmail st v Hc Hv.
    unfold Extension.analyzeEmail, tryCatch, bind, external,
      parseResponse, throw, ret, called. rewrite Hc.
    destruct v as [| |[|c s]|]; try reflexivity. now destruct (Hv c s).
  - intros email st e Hc.
    unfold EmailAnalyzer.analyzeEmail, tryCatch, bind, external, throw.
    now rewrite Hc.
  - intros parsedEmail st e Hc.
    unfold Extension.analyzeEmail, tryCatch, bind, external, throw.
    now rewrite Hc.
  - intros email st.
    unfold EmailAnalyzer.analyzeEmail, tryCatch, bind, external,
      parseResponse, throw, ret, called.
    destruct (chat (trace st) _) as [[| |[|c s]|]|e]; cbn [fst snd];
      try (split; [discriminate|reflexivity]).
    + destruct (jsonText (c :: s)) as [text|]; cbn [fst snd];
        [|split; [discriminate|reflexivity]].
      destruct (parse text) as [j|[m|]]; cbn [fst snd];
        split; (discriminate || reflexivity).
    + destruct e; cbn [fst snd]; split; (discriminate || reflexivity).
  - intros parsedEmail st.
    unfold Extension.analyzeEmail, tryCatch, bind, external,
      parseResponse, throw, ret, called.
    destruct (chat (trace st) _) as [[| |[|c s]|]|e]; cbn [fst snd];
      try (split; [discriminate|reflexivity]).
    + destruct (jsonText (c :: s)) as [text|]; cbn [fst snd];
        [|split; [discriminate|reflexivity]].
      destruct (parse text) as [[| |]|[m|]]; cbn [fst snd];
        split; (discriminate || reflexivity).
    + destruct e; cbn [fst snd]; split; (discriminate || reflexivity).
Qed.

Lemma fenced_nonempty (pre payload post : jsstring) :
  exists c s, pre ++ fenceOpen ++ payload ++ fenceClose ++ post = c :: s.
Proof. destruct pre; cbn; eauto. Qed.

(** X11. A fenced block wins.  When the response holds a block between
    "```json" with a line feed and a line feed with "```", both
    versions of [analyzeEmail] hand the text of the first such block to
    [JSON.parse], whatever braces stand before or after it; what
    [JSON.parse] throws is passed on.  A block with nothing in it is
    handed over together with its two fences.  The version of
    src/extension.ts then stores the attachments of the parsed email in
    the analysis. *)
Theorem X11_fenced_json_is_parsed
  (chat : list Call -> jsstring -> Result JsValue)
  (parse : jsstring -> Result Json)
  (stringify : JsObject (option jsstring) -> jsstring)
  (pre payload post : jsstring) :
  includes fenceOpen pre = false ->
  includes fenceClose payload = false ->
  let response := pre ++ fenceOpen ++ payload ++ fenceClose ++ post in
  let text := match payload with
              | [] => fenceOpen ++ fenceClose
              | _ :: _ => payload
              end in
  (forall email st,
      chat (trace st) (EmailAnalyzer.analysisPrompt email) = Ok (VString response) ->
      fst (EmailAnalyzer.analyzeEmail chat parse email st)
      = match parse text with
        | Ok analysis => Ok analysis
        | Throw e => Throw (analysisError e)
        end)
  /\ (forall parsedEmail st,
        chat (trace st) (Extension.analysisPrompt stringify parsedEmail)
        = Ok (VString response) ->
        fst (Extension.analyzeEmail chat parse stringify parsedEmail st)
        = match parse text with
          | Ok analysis =>
              Extension.setAttachments analysis (attachments parsedEmail)
          | Throw e => Throw (analysisError e)
          end).
Proof.
  intros Hpre Hp response text.
  pose proof (jsonText_fenced pre payload post Hpre Hp) as Hj.
  fold response in Hj. fold text in Hj.
  destruct (fenced_nonempty pre payload post) as (c & s & E).
  fold response in E. rewrite E in *. split.
  - intros email st Hc.
    now rewrite (analyzeEmailContent_string _ _ _ _ c s Hc), Hj.
  - intros parsedEmail st Hc.
    now rewrite (analyzeEmail_string _ _ _ _ _ c s Hc), Hj.
Qed.

(** X12. Without a fenced block, the braces decide.  When the response has no
    opening fence, both versions of [analyzeEmail] hand to [JSON.parse]
    the text from the first opening brace to the last closing brace,
    with whatever stands between them. *)
Theorem X12_braces_delimit_json
  (chat : list Call -> jsstring -> Result JsValue)
  (parse : jsstring -> Result Json)
  (stringify : JsObject (option jsstring) -> jsstring)
  (pre mid post : jsstring) :
  let response := pre ++ str "{" ++ mid ++ str "}" ++ post in
  let text := str "{" ++ mid ++ str "}" in
  includes fenceOpen response = false ->
  123 ∉ pre -> 125 ∉ post ->
  (forall email st,
      chat (trace st) (EmailAnalyzer.analysisPrompt email) = Ok (VString response) ->
      fst (EmailAnalyzer.analyzeEmail chat parse email st)
      = match parse text with
        | Ok analysis => Ok analysis
        | Throw e => Throw (analysisError e)
        end)
  /\ (forall parsedEmail st,
        chat (trace st) (Extension.analysisPrompt stringify parsedEmail)
        = Ok (VString response) ->
        fst (Extension.analyzeEmail chat parse stringify parsedEmail st)
        = match parse text with
          | Ok analysis =>
              Extension.setAttachments analysis (attachments parsedEmail)
          | Throw e => Throw (analysisError e)
          end).
Proof.
  intros response text Hf Hpre Hpost.
  pose proof (jsonText_object pre mid post Hf Hpre Hpost) as Hj.
  fold response in Hj. fold text in Hj.
  assert (exists c s, response = c :: s) as (c & s & E).
  { subst response. destruct pre; cbn; eauto. }
  rewrite E in *. split.
  - intros email st Hc.
    now rewrite (analyzeEmailContent_string _ _ _ _ c s Hc), Hj.
  - intros parsedEmail st Hc.
    now rewrite (analyzeEmail_string _ _ _ _ _ c s Hc), Hj.
Qed.

(** X13. No JSON, no call of [JSON.parse].  A response that is a string
    without an opening fence and without an opening brace, or without a
    closing brace, is refused by both versions with "No JSON found in
    response". *)
Theorem X13_response_without_json
  (chat : list Call -> jsstring -> Result JsValue)
  (parse : jsstring -> Result Json)
  (stringify : JsObject (option jsstring) -> jsstring)
  (response : jsstring) :
  response <> [] ->
  includes fenceOpen response = false ->
  123 ∉ response \/ 125 ∉ response ->
  (forall email st,
      chat (trace st) (EmailAnalyzer.analysisPrompt email) = Ok (VString response) ->
      fst (EmailAnalyzer.analyzeEmail chat parse email st)
      = Throw (ErrorObj (str "No JSON found in response")))
  /\ (forall parsedEmail st,
        chat (trace st) (Extension.analysisPrompt stringify parsedEmail)
        = Ok (VString response) ->
        fst (Extension.analyzeEmail chat parse stringify parsedEmail st)
        = Throw (ErrorObj (str "No JSON found in response"))).
Proof.
  intros Hne Hf Hb. pose proof (jsonText_none response Hf Hb) as Hj.
  destruct response as [|c s]; [easy|]. split.
  - intros email st Hc.
    now rewrite (analyzeEmailContent_string _ _ _ _ c s Hc), Hj.
  - intros parsedEmail st Hc.
    now rewrite (analyzeEmail_string _ _ _ _ _ c s Hc), Hj.
Qed.

(** ** The commands of the extension *)

Lemma analyzeEmail_state chat parse stringify parsedEmail st :
  snd (Extension.analyzeEmail chat parse stringify parsedEmail st)
  = called (ChatOpen (Extension.analysisPrompt stringify parsedEmail)) st.
Proof.
  unfold Extension.analyzeEmail, tryCatch, bind, external, parseResponse,
    throw, ret, called.
  destruct (chat (trace st) _) as [[| |[|c s]|]|e]; cbn [fst snd];
    try reflexivity.
  destruct (jsonText (c :: s)) as [text|]; [|reflexivity].
  destruct (parse text) as [[| |]|e]; reflexivity.
Qed.

Section ExtensionCommands.

Variable env : Env.
Variable chat : list Call -> jsstring -> Result JsValue.
Variable parse : jsstring -> Result Json.
Variable stringify : JsObject (option jsstring) -> jsstring.
Variable lowerCase : jsstring -> jsstring.
Variable decode : jsstring -> Result jsstring.
Variable openDocument : list UiEvent -> Uri -> Result jsstring.
Variable chatHandler : ChatCommandHandler.

Local Abbreviation analyzeCommand :=
  (Extension.analyzeCommand env chat parse stringify lowerCase decode).
Local Abbreviation analyzeEmail := (Extension.analyzeEmail chat parse stringify).
Local Abbreviation analyzeEach :=
  (Extension.analyzeEach chat parse stringify decode openDocument).
Local Abbreviation bulkAnalyzeCommand :=
  (Extension.bulkAnalyzeCommand chat parse stringify decode openDocument).

(** X14. The command "Analyze Email" asks for an editor and a subject.  It
    returns in every case.  Without an editor it shows "Please open an
    email file first."; for an email whose header block has no Subject
    line it shows "Error analyzing email: Email subject is mandatory".
    In both cases the chat command is not called and no panel is
    created. *)
Theorem X14_analyze_command_needs_subject (h : Host) :
  (exists h', analyzeCommand h = (Ok tt, h'))
  /\ (activeTextEditor env (trace (shared h)) = None ->
      analyzeCommand h
      = (Ok tt,
         {| shared := shared h;
            window := window h
                      ++ [ShowErrorMessage
                            (str "Please open an email file first.")] |}))
  /\ (forall emailContent,
        activeTextEditor env (trace (shared h)) = Some emailContent ->
        hasSubjectLine (headerBlock emailContent) = false ->
        analyzeCommand h
        = (Ok tt,
           {| shared := shared h;
              window := window h
                        ++ [ShowErrorMessage
                              (str "Error analyzing email: Email subject is mandatory")] |})).
Proof.
  unfold Extension.analyzeCommand. split; [|split].
  - destruct (activeTextEditor env (trace (shared h))) as [text|];
      [|now eexists].
    unfold tryCatch.
    destruct (hdr_subject (headers (parseEmail decode text)));
      [now eexists|].
    unfold bind, inShared.
    destruct (Extension.analyzeEmail _ _ _ _ _) as [[a|e] st'];
      [|now eexists].
    unfold Extension.displayAnalysis, bind, ui. cbn [shared window].
    destruct (Extension.analysisPage lowerCase a); now eexists.
  - intros ->. reflexivity.
  - intros text -> Hs. rewrite parseEmail_headers.
    fold (headerBlock text). now rewrite parseHeaders_no_subject.
Qed.

(** X15. The command "Analyze Email" on an email with a subject.  The chat
    command is called once, with the prompt of the parsed email.  What
    [analyzeEmail] throws is shown as "Error analyzing email: ..." and no
    panel is created.  For an analysis the panel is created first.  When
    the page builds, it is stored in the panel; it builds exactly when
    the priority is a string, the key points and the action items are
    arrays and the additional fields are neither missing nor [null].
    Otherwise the panel stays empty and the error of the first part of
    the page that fails is shown: for a priority that is missing, [null]
    or not a string the one of [toLowerCase], and with a priority but
    without key points the one of reading [map] of [undefined]. *)
Theorem X15_analyze_command_outcomes (h : Host) (emailContent : jsstring) :
  activeTextEditor env (trace (shared h)) = Some emailContent ->
  let parsedEmail := parseEmail decode emailContent in
  hdr_subject (headers parsedEmail) <> [] ->
  (exists shown,
     analyzeCommand h
     = (Ok tt,
        {| shared := called (ChatOpen (Extension.analysisPrompt stringify
                                         parsedEmail)) (shared h);
           window := window h ++ shown |})
     /\ match fst (analyzeEmail parsedEmail (shared h)) with
        | Throw e =>
            shown = [ShowErrorMessage (str "Error analyzing email: "
                                       ++ errorMessage e)]
        | Ok analysis =>
            match Extension.analysisPage lowerCase analysis with
            | Ok page => shown = [CreateWebviewPanel; SetWebviewHtml page]
            | Throw e =>
                shown = [CreateWebviewPanel;
                         ShowErrorMessage (str "Error analyzing email: "
                                           ++ errorMessage e)]
            end
        end)
  /\ (forall analysis : EmailAnalysis,
        ((exists page, Extension.analysisPage lowerCase analysis = Ok page)
         <-> (exists p points items entries,
                priority analysis = Str p
                /\ keyPoints analysis = ArrayOf points
                /\ actionItems analysis = ArrayOf items
                /\ additionalFields analysis = ObjectWith entries))
        /\ (forall p points items entries,
              priority analysis = Str p ->
              keyPoints analysis = ArrayOf points ->
              actionItems analysis = ArrayOf items ->
              additionalFields analysis = ObjectWith entries ->
              exists page,
                Extension.analysisPage lowerCase analysis = Ok page
                /\ includes (strq "<span class=~priority-" ++ lowerCase p
                             ++ strq "~>" ++ p ++ str "</span>") page = true)
        /\ (priority analysis = Absent ->
            Extension.analysisPage lowerCase analysis
            = Throw (ErrorObj (str "Cannot read properties of undefined (reading 'toLowerCase')")))
        /\ (priority analysis = Null ->
            Extension.analysisPage lowerCase analysis
            = Throw (ErrorObj (str "Cannot read properties of null (reading 'toLowerCase')")))
        /\ (forall text isTruthy,
              priority analysis = Other text isTruthy ->
              Extension.analysisPage lowerCase analysis
              = Throw (ErrorObj (str "analysis.priority.toLowerCase is not a function")))
        /\ (forall p,
              priority analysis = Str p ->
              keyPoints analysis = MissingArray ->
              Extension.analysisPage lowerCase analysis
              = Throw (ErrorObj (str "Cannot read properties of undefined (reading 'map')")))).
Proof.
  intros He parsedEmail Hs. split.
  - unfold Extension.analyzeCommand. rewrite He.
    fold parsedEmail. unfold tryCatch.
    destruct (hdr_subject (headers parsedEmail)) as [|c s]; [easy|].
    unfold bind, inShared.
    pose proof (analyzeEmail_state chat parse stringify parsedEmail (shared h))
      as Hst.
    destruct (Extension.analyzeEmail _ _ _ _ _) as [[a|e] st'];
      cbn [fst snd] in *; subst st'.
    + unfold Extension.displayAnalysis, bind, ui, throw. cbn [shared window].
      destruct (Extension.analysisPage lowerCase a) as [page|e];
        cbn [shared window]; eexists;
        (split; [rewrite <- app_assoc; reflexivity|reflexivity]).
    + unfold ui. cbn [shared window]. eexists. split; reflexivity.
  - intros analysis. unfold Extension.analysisPage.
    split; [|split; [|split; [|split; [|split]]]].
    + split.
      * intros [page H].
        destruct (priority analysis) as [| |p|]; try discriminate H.
        destruct (keyPoints analysis) as [| |points|]; try discriminate H.
        destruct (actionItems analysis) as [| |items|]; try discriminate H.
        destruct (additionalFields analysis) as [| |entries];
          try discriminate H.
        now exists p, points, items, entries.
      * intros (p & points & items & entries & -> & -> & -> & ->).
        cbn. destruct entries; now eexists.
    + intros p points items entries Hp -> -> ->. rewrite Hp.
      cbn [Extension.priorityClass Extension.listItems].
      destruct (Extension.fieldsSection (ObjectWith entries)) as [fields|e] eqn:E;
        [|destruct entries; discriminate E].
      eexists. split; [reflexivity|].
      apply (includes_join _ _ _
               (strq "                <span class=~priority-" ++ lowerCase p
                ++ strq "~>" ++ show (Str p) ++ str "</span>")).
      * unfold Extension.analysisHtml. rewrite Hp. in_list.
      * apply includes_iff. exists (str "                "), [].
        rewrite app_nil_r. reflexivity.
    + intros ->. reflexivity.
    + intros ->. reflexivity.
    + intros text isTruthy ->. reflexivity.
    + intros p -> ->. reflexivity.
Qed.

Lemma analyzeEach_spec (uris : list Uri) results (h : Host) :
  exists r h' done,
    analyzeEach uris results h = (r, h')
    /\ window h' = window h ++ List.map OpenTextDocument done
    /\ done `prefix_of` uris
    /\ match r with
       | Ok res =>
           done = uris
           /\ List.map fst res = List.map fst results ++ List.map fsPath uris
       | Throw _ => done <> []
       end.
Proof.
  revert results h. induction uris as [|uri uris IH]; intros results h.
  - exists (Ok results), h, []. cbn. rewrite !app_nil_r. repeat split.
    apply prefix_nil.
  - cbn [Extension.analyzeEach]. unfold bind at 1.
    destruct (openDocument (window h) uri) as [text|e].
    2:{ eexists _, _, [uri]. split; [reflexivity|]. cbn [window List.map].
        split; [reflexivity|]. split; [|easy].
        now apply prefix_cons, prefix_nil. }
    unfold bind at 1. unfold inShared at 1. cbn [shared window].
    destruct (Extension.analyzeEmail _ _ _ _ _) as [[a|e] st'].
    2:{ eexists _, _, [uri]. split; [reflexivity|]. cbn [window List.map].
        split; [reflexivity|]. split; [|easy].
        now apply prefix_cons, prefix_nil. }
    destruct (IH (results ++ [(fsPath uri, a)])
                 {| shared := st'; window := window h ++ [OpenTextDocument uri] |})
      as (r & h' & done & -> & Hw & Hp & Hr).
    exists r, h', (uri :: done). split; [reflexivity|]. cbn [window] in Hw.
    split; [rewrite Hw, <- app_assoc; reflexivity|].
    split; [now apply prefix_cons|].
    destruct r as [res|e]; [|easy]. destruct Hr as [-> Hr].
    split; [reflexivity|]. rewrite Hr, List.map_app, <- app_assoc.
    reflexivity.
Qed.


Local Abbreviation startCommand := (Extension.startCommand env chatHandler).
Local Abbreviation chatCommand := (Extension.chatCommand env chatHandler).
Local Abbreviation chatParticipant :=
  (Extension.chatParticipant env chatHandler).

(** The message that the handler logs at its entry. *)
Lemma inShared_handleChatCommand request (h : Host) :
  match Logger_debug env (trace (shared h))
          (str "Handling chat command: " ++ command request) with
  | Ok _ =>
      exists out st',
        handleChatCommand env chatHandler request (shared h) = (Ok out, st')
        /\ inShared (handleChatCommand env chatHandler request) h
           = (Ok out, {| shared := st'; window := window h |})
  | Throw e =>
      handleChatCommand env chatHandler request (shared h)
      = (Throw e, shared h)
      /\ inShared (handleChatCommand env chatHandler request) h = (Throw e, h)
  end.
Proof.
  destruct (Logger_debug env (trace (shared h)) _) as [[]|e] eqn:Hlog.
  - destruct (handleChatCommand_returns env chatHandler request (shared h)
                Hlog) as (out & st' & E).
    exists out, st'. split; [exact E|]. unfold inShared. now rewrite E.
  - pose proof (handleChatCommand_logger_throws env chatHandler request
                  (shared h) e Hlog) as E.
    split; [exact E|]. unfold inShared. rewrite E. now destruct h.
Qed.

Lemma startCommand_logged (h : Host) :
  startCommand h
  = match Logger_debug env (trace (shared h))
            (str "Processing /start command") with
    | Ok _ =>
        inShared (handleChatCommand env chatHandler
                    {| command := str "/start";
                       participants := [str "user"];
                       prompt := Some (str "Analyze this email") |}) h
    | Throw e => (Throw e, h)
    end.
Proof.
  unfold Extension.startCommand, bind.
  now destruct (Logger_debug env (trace (shared h)) _).
Qed.

(** X17. The ways into the chat handler.  The command [email-analyzer.chat]
    answers "Invalid chat request" to a request that is missing or has no
    prompt, whatever its arguments, and otherwise runs the chat handler
    with the first argument as the command.  The handler first logs the
    command: when the logger throws, the command throws that error and
    nothing is changed; when the logger returns, the command returns, and
    a request whose first argument is not "/start" is answered "Unknown
    command".  The command [email-analyzer.start] logs a message of its
    own before it runs the handler, and throws what either call of the
    logger throws.  The chat participant runs the handler when its prompt
    is "/start" between white space and answers "Unknown command" to any
    other prompt; it catches what the handler throws, reports exactly one
    message to the response, and does not throw.  The window is touched
    by the participant only. *)
Theorem X17_chat_entry_points (h : Host) :
  (forall request,
      request = None
      \/ (exists r, request = Some r
                    /\ (rq_prompt r = None \/ rq_prompt r = Some [])) ->
      chatCommand request h = (Ok (str "Invalid chat request"), h))
  /\ (forall r c s,
        rq_prompt r = Some (c :: s) ->
        chatCommand (Some r) h
        = inShared (handleChatCommand env chatHandler
                      {| command := firstArgument (rq_arguments r);
                         participants := default [] (rq_participants r);
                         prompt := Some (c :: s) |}) h)
  /\ (forall r c s,
        rq_prompt r = Some (c :: s) ->
        match Logger_debug env (trace (shared h))
                (str "Handling chat command: "
                 ++ firstArgument (rq_arguments r)) with
        | Throw e => chatCommand (Some r) h = (Throw e, h)
        | Ok _ =>
            (exists out h',
               chatCommand (Some r) h = (Ok out, h')
               /\ window h' = window h)
            /\ ((forall tail, rq_arguments r <> Some (str "/start" :: tail)) ->
                chatCommand (Some r) h
                = (Ok (str "Unknown command. Available commands: /start"), h))
        end)
  /\ (forall requestPrompt,
        exists message h',
          chatParticipant requestPrompt h = (Ok tt, h')
          /\ window h' = window h ++ [ResponseProgress message]
          /\ (trim requestPrompt <> str "/start" ->
              message = str "Unknown command. Available commands: /start"
              /\ shared h' = shared h)
          /\ (trim requestPrompt = str "/start" ->
              match handleChatCommand env chatHandler
                      {| command := str "/start";
                         participants := [str "user"];
                         prompt := Some (str "/start") |} (shared h) with
              | (Ok out, st') => message = out /\ shared h' = st'
              | (Throw e, st') => message = reportedError e /\ shared h' = st'
              end))
  /\ match Logger_debug env (trace (shared h))
             (str "Processing /start command") with
     | Throw e => startCommand h = (Throw e, h)
     | Ok _ =>
         startCommand h
         = inShared (handleChatCommand env chatHandler
                       {| command := str "/start";
                          participants := [str "user"];
                          prompt := Some (str "Analyze this email") |}) h
         /\ match Logger_debug env (trace (shared h))
                    (str "Handling chat command: /start") with
            | Throw e => startCommand h = (Throw e, h)
            | Ok _ =>
                exists out h',
                  startCommand h = (Ok out, h') /\ window h' = window h
            end
     end.
Proof.
  split; [|split; [|split; [|split]]].
  - intros request [->|(r & -> & Hp)]; [reflexivity|].
    destruct r as [args parts p]. cbn in Hp.
    destruct Hp as [->| ->]; reflexivity.
  - intros [args parts p] c s Hp. cbn in Hp. subst p. reflexivity.
  - intros [args parts p] c s Hp. cbn in Hp. subst p.
    cbn [rq_arguments]. unfold Extension.chatCommand.
    pose proof (inShared_handleChatCommand
                  {| command := firstArgument args;
                     participants := default [] parts;
                     prompt := Some (c :: s) |} h) as H.
    cbn [command] in H.
    destruct (Logger_debug env (trace (shared h)) _) as [[]|e] eqn:Hlog.
    + destruct H as (out & st' & Hh & Hin). split.
      * rewrite Hin. now eexists _, _.
      * intros Ha. rewrite Hin. revert Hh.
        unfold handleChatCommand, bind at 1. cbn [command]. rewrite Hlog.
        assert (firstArgument args <> str "/start") as Hc.
        { destruct args as [[|[|c0 s0] tail]|]; try easy.
          intros E. apply (Ha tail). cbn in E. now rewrite E. }
        destruct (eqb (firstArgument args) (str "/start")) eqn:E;
          [now apply eqb_eq in E|].
        cbn [negb]. unfold ret. intros [= <- <-]. now destruct h.
    + exact (proj2 H).
  - intros requestPrompt. unfold Extension.chatParticipant, tryCatch.
    destruct (eqb (trim requestPrompt) (str "/start")) eqn:E.
    + apply eqb_eq in E. rewrite E. unfold bind.
      pose proof (inShared_handleChatCommand
                    {| command := str "/start"; participants := [str "user"];
                       prompt := Some (str "/start") |} h) as H.
      destruct (Logger_debug env (trace (shared h)) _) as [[]|e].
      * destruct H as (out & st' & Hh & ->).
        unfold ui. cbn [shared window]. eexists out, _.
        split; [reflexivity|]. cbn [shared window]. split; [reflexivity|].
        split; [easy|]. intros _. now rewrite Hh.
      * destruct H as [Hh ->]. unfold ui. eexists _, _.
        split; [reflexivity|]. cbn [shared window]. split; [reflexivity|].
        split; [easy|]. intros _. now rewrite Hh.
    + unfold ui. eexists _, _. split; [reflexivity|]. cbn [shared window].
      split; [reflexivity|]. split; [easy|].
      intros E2. rewrite E2, eqb_refl in E. discriminate.
  - rewrite !startCommand_logged.
    destruct (Logger_debug env (trace (shared h))
                (str "Processing /start command")) as [[]|e];
      [|reflexivity].
    split; [reflexivity|].
    pose proof (inShared_handleChatCommand
                  {| command := str "/start"; participants := [str "user"];
                     prompt := Some (str "Analyze this email") |} h) as H.
    cbn [command] in H.
    change (str "Handling chat command: " ++ str "/start")
      with (str "Handling chat command: /start") in H.
    destruct (Logger_debug env (trace (shared h))
                (str "Handling chat command: /start")) as [[]|e].
    + destruct H as (out & st' & _ & ->). now eexists _, _.
    + exact (proj2 H).
Qed.

End ExtensionCommands.

(** ** Logger *)

Section LoggerProperties.

Variable toISOString : nat -> jsstring.
Variable path_join : jsstring -> jsstring -> jsstring.
Variable fsError : jsstring -> option Thrown.

Lemma fileText_snoc lines line :
  fileText (lines ++ [line]) = fileText lines ++ line ++ [LF].
Proof.
  unfold fileText. rewrite List.map_app, List.concat_app. cbn.
  now rewrite app_nil_r.
Qed.

(** One call of [log] on an initialised logger. *)
Lemma log_mirrored w c name path lines shown level message :
  mirrored w c name path lines shown ->
  fsError path = None ->
  exists w',
    Logger.log toISOString fsError level message w = (Ok tt, w')
    /\ mirrored w' c name path
         (lines ++ [logLine (toISOString (clock w)) level message])
         (if eqb level (str "ERROR") then S shown else shown)
    /\ clock w' = S (clock w)
    /\ length (channels w') = length (channels w)
    /\ (forall c', c' <> c -> channels w' !! c' = channels w !! c')
    /\ (forall p, p <> path -> files w' !! p = files w !! p).
Proof.
  intros (Hc & Hp & Hch & Hf) Hfs.
  pose proof (lookup_lt_Some _ _ _ Hch) as Hlt.
  unfold Logger.log, bind, Logger.newDate. cbn [outputChannel]. rewrite Hc.
  unfold Logger.appendLine, Logger.updateChannel.
  cbn [channels logFile outputChannel files clock extensionContext].
  rewrite Hch, Hp. unfold Logger.appendFileSync, Logger.writeFile.
  rewrite Hfs.
  cbn [channels logFile outputChannel files clock extensionContext].
  rewrite Hf. cbn [default].
  destruct (eqb level (str "ERROR")).
  - unfold Logger.show, Logger.updateChannel.
    cbn [channels logFile outputChannel files clock extensionContext].
    rewrite list_lookup_insert_eq by exact Hlt.
    eexists. split; [reflexivity|]. unfold mirrored.
    cbn [channels logFile outputChannel files clock extensionContext
         ch_name ch_lines ch_shown].
    split; [|split; [reflexivity|split; [|split]]].
    + split; [reflexivity|]. split; [reflexivity|]. split.
      * rewrite list_lookup_insert_eq;
          [reflexivity|now rewrite length_insert].
      * rewrite lookup_insert_eq, fileText_snoc. reflexivity.
    + now rewrite !length_insert.
    + intros c' Hne. now rewrite !list_lookup_insert_ne by congruence.
    + intros p Hne. now rewrite lookup_insert_ne by congruence.
  - unfold ret. eexists. split; [reflexivity|]. unfold mirrored.
    cbn [channels logFile outputChannel files clock extensionContext].
    split; [|split; [reflexivity|split; [|split]]].
    + split; [reflexivity|]. split; [reflexivity|]. split.
      * now rewrite list_lookup_insert_eq.
      * rewrite lookup_insert_eq, fileText_snoc. reflexivity.
    + now rewrite length_insert.
    + intros c' Hne. now rewrite list_lookup_insert_ne by congruence.
    + intros p Hne. now rewrite lookup_insert_ne by congruence.
Qed.

Lemma logCall_mirrored w c name path lines shown call :
  mirrored w c name path lines shown ->
  fsError path = None ->
  exists w',
    logCall toISOString fsError call w = (Ok tt, w')
    /\ mirrored w' c name path (lines ++ linesOf toISOString (clock w) call)
                (shown + showsOf call).
Proof.
  intros Hm Hfs. destruct call as [m|m|m [e|]]; cbn [logCall linesOf showsOf].
  - destruct (log_mirrored w c name path lines shown (str "INFO") m Hm Hfs)
      as (w' & Hl & Hm' & _).
    exists w'. split; [exact Hl|]. now rewrite Nat.add_0_r.
  - destruct (log_mirrored w c name path lines shown (str "DEBUG") m Hm Hfs)
      as (w' & Hl & Hm' & _).
    exists w'. split; [exact Hl|]. now rewrite Nat.add_0_r.
  - unfold Logger.error, bind.
    destruct (log_mirrored w c name path lines shown (str "ERROR") m Hm Hfs)
      as (w1 & -> & Hm1 & Hc1 & _).
    change (eqb (str "ERROR") (str "ERROR")) with true in Hm1.
    destruct (log_mirrored w1 c name path _ _ (str "ERROR")
                match err_stack e with
                | Some (c0 :: s) => c0 :: s
                | _ => err_message e
                end Hm1 Hfs) as (w2 & -> & Hm2 & _).
    change (eqb (str "ERROR") (str "ERROR")) with true in Hm2.
    exists w2. split; [reflexivity|]. rewrite Hc1 in Hm2.
    rewrite <- app_assoc in Hm2. cbn [app] in Hm2.
    now replace (shown + 2)%nat with (S (S shown)) by lia.
  - unfold Logger.error, bind.
    destruct (log_mirrored w c name path lines shown (str "ERROR") m Hm Hfs)
      as (w1 & -> & Hm1 & _).
    change (eqb (str "ERROR") (str "ERROR")) with true in Hm1.
    exists w1. split; [reflexivity|].
    now replace (shown + 1)%nat with (S shown) by lia.
Qed.

(** X18. The log file mirrors the output channel.  When the log file can be
    written, [initialize] creates a new channel named "Email Analyzer",
    empties the log file and logs "Logger initialized": the channel has
    this one line and the file has it too.  From then on every call of
    [info], [debug] and [error] returns and adds the same lines to the
    channel and to the end of the file, so that the file is always the
    lines of the channel, each followed by a line feed.  A line is
    "[time] [LEVEL] message" with the time of the call; [error] with an
    [Error] adds a second line with the stack of the error, or with its
    message when it has no stack.  Only [error] brings the channel to
    the front, once for each of its lines. *)
Theorem X18_log_file_mirrors_channel :
  (forall context w,
      let path := path_join (extensionPath context) (str "email-analyzer.log") in
      fsError path = None ->
      exists w',
        Logger.initialize toISOString path_join fsError context w = (Ok tt, w')
        /\ mirrored w' (length (channels w)) (str "Email Analyzer") path
             [logLine (toISOString (clock w)) (str "INFO")
                      (str "Logger initialized")] 0
        /\ length (channels w') = S (length (channels w))
        /\ (forall c, (c < length (channels w))%nat ->
                      channels w' !! c = channels w !! c))
  /\ (forall w c name path lines shown call,
        mirrored w c name path lines shown ->
        fsError path = None ->
        exists w',
          logCall toISOString fsError call w = (Ok tt, w')
          /\ mirrored w' c name path (lines ++ linesOf toISOString (clock w) call)
                      (shown + showsOf call))
  /\ (forall calls w c name path lines shown,
        mirrored w c name path lines shown ->
        fsError path = None ->
        exists w' lines' shown',
          logCalls toISOString fsError calls w = (Ok tt, w')
          /\ mirrored w' c name path (lines ++ lines') shown').
Proof.
  split; [|split].
  - intros context w path Hfs.
    unfold Logger.initialize, bind, Logger.createOutputChannel,
      Logger.writeFileSync, Logger.writeFile.
    cbn [channels logFile outputChannel files clock extensionContext].
    fold path. rewrite Hfs.
    set (w0 := {| outputChannel := Some (length (channels w));
                  logFile := Some path;
                  extensionContext := Some context;
                  channels := channels w
                              ++ [{| ch_name := str "Email Analyzer";
                                     ch_lines := []; ch_shown := 0 |}];
                  files := <[path := []]> (files w);
                  clock := clock w |}).
    assert (mirrored w0 (length (channels w)) (str "Email Analyzer") path
                     [] 0) as Hm.
    { split; [reflexivity|]. split; [reflexivity|]. split.
      - subst w0. cbn [channels].
        now rewrite lookup_app_r, Nat.sub_diag by lia.
      - subst w0. cbn [files]. now rewrite lookup_insert_eq. }
    destruct (log_mirrored w0 _ _ _ _ _ (str "INFO") (str "Logger initialized")
                Hm Hfs) as (w' & Hl & Hm' & _ & Hlen & Hother & _).
    exists w'. split; [exact Hl|]. split; [exact Hm'|].
    subst w0. cbn [channels] in Hlen, Hother. split.
    + rewrite Hlen, length_app. cbn [length]. lia.
    + intros c Hc. rewrite Hother by lia. now rewrite lookup_app_l.
  - intros w c name path lines shown call. apply logCall_mirrored.
  - intros calls. induction calls as [|call calls IH];
      intros w c name path lines shown Hm Hfs.
    + exists w, [], shown. rewrite app_nil_r. split; [reflexivity|exact Hm].
    + cbn [logCalls]. unfold bind.
      destruct (logCall_mirrored w c name path lines shown call Hm Hfs)
        as (w1 & -> & Hm1).
      destruct (IH w1 c name path _ _ Hm1 Hfs) as (w' & lines' & shown' & -> & Hm').
      exists w', (linesOf toISOString (clock w) call ++ lines'), shown'.
      split; [reflexivity|]. now rewrite app_assoc.
Qed.

(** X19. Before [initialize] the logger cannot be used.  While the field of
    the output channel is [undefined], every call of [info], [debug],
    [error] and [showOutputChannel] throws a [TypeError]; it writes no
    line and no file.  [getLogFilePath] returns the field as it is:
    [undefined] before [initialize]. *)
Theorem X19_logger_needs_initialize (w : LoggerWorld) :
  outputChannel w = None ->
  (forall call,
      exists w',
        logCall toISOString fsError call w
        = (Throw (ErrorObj
                    (str "Cannot read properties of undefined (reading 'appendLine')")),
           w')
        /\ channels w' = channels w /\ files w' = files w)
  /\ Logger.showOutputChannel w
     = (Throw (ErrorObj
                 (str "Cannot read properties of undefined (reading 'show')")),
        w)
  /\ Logger.getLogFilePath w = (Ok (logFile w), w).
Proof.
  intros Hc. split; [|split].
  - intros call.
    assert (forall level m,
              exists w',
                Logger.log toISOString fsError level m w
                = (Throw (ErrorObj
                            (str "Cannot read properties of undefined (reading 'appendLine')")),
                   w')
                /\ channels w' = channels w /\ files w' = files w) as Hlog.
    { intros level m. unfold Logger.log, bind, Logger.newDate.
      cbn [outputChannel]. rewrite Hc. eexists. split; [reflexivity|].
      split; reflexivity. }
    destruct call as [m|m|m e]; cbn [logCall].
    + apply Hlog.
    + apply Hlog.
    + unfold Logger.error, bind.
      destruct (Hlog (str "ERROR") m) as (w' & -> & H1 & H2). now exists w'.
  - unfold Logger.showOutputChannel. now rewrite Hc.
  - reflexivity.
Qed.

(** X20. A failing write breaks the mirror.  When the file system refuses to
    write the log file, a logging call throws the error of the file
    system to its caller; the line has been appended to the channel by
    then and is missing in the file, and the channel is not brought to
    the front. *)
Theorem X20_log_write_failure w c name path lines shown call e :
  mirrored w c name path lines shown ->
  fsError path = Some e ->
  exists w',
    logCall toISOString fsError call w = (Throw e, w')
    /\ channels w' !! c
       = Some {| ch_name := name;
                 ch_lines := lines
                             ++ take 1 (linesOf toISOString (clock w) call);
                 ch_shown := shown |}
    /\ files w' = files w.
Proof.
  intros (Hc & Hp & Hch & Hf) Hfs.
  pose proof (lookup_lt_Some _ _ _ Hch) as Hlt.
  assert (forall level m,
            exists w',
              Logger.log toISOString fsError level m w = (Throw e, w')
              /\ channels w' !! c
                 = Some {| ch_name := name;
                           ch_lines := lines
                                       ++ [logLine (toISOString (clock w))
                                                   level m];
                           ch_shown := shown |}
              /\ files w' = files w) as Hlog.
  { intros level m. unfold Logger.log, bind, Logger.newDate.
    cbn [outputChannel]. rewrite Hc.
    unfold Logger.appendLine, Logger.updateChannel.
    cbn [channels logFile outputChannel files clock extensionContext].
    rewrite Hch, Hp. unfold Logger.appendFileSync, Logger.writeFile.
    rewrite Hfs. eexists. split; [reflexivity|].
    cbn [channels files ch_name ch_lines ch_shown].
    split; [|reflexivity]. now rewrite list_lookup_insert_eq. }
  destruct call as [m|m|m err]; cbn [logCall].
  - apply Hlog.
  - apply Hlog.
  - unfold Logger.error, bind.
    destruct (Hlog (str "ERROR") m) as (w' & -> & H1 & H2).
    exists w'. split; [reflexivity|]. split; [|exact H2].
    now destruct err.
Qed.

End LoggerProperties.

(** ** The test data generator *)

(** The check of [textReadBack] over every text that can be written. *)
Lemma all_texts_read_back :
  forallb (fun t =>
  forallb (fun p =>
  forallb (fun withBody =>
  forallb (fun details =>
  forallb (fun i =>
  forallb (fun accountNumber =>
    textReadBack withBody accountNumber
      (writtenText t p withBody details i accountNumber))
    (None :: List.map Some TestDataGenerator.ACCOUNT_NUMBERS))
    (contextsOf t))
    (detailsOf p))
    allFlags)
    allPriorities)
    allTypes
  = true.
Proof. vm_compute. reflexivity. Qed.

Lemma includes_line_skip (w : jsstring) (line rest : jsstring) :
  forallb dot line = true ->
  includes [LF; LF] (line ++ rest) = includes [LF; LF] rest.
Proof.
  intros H. induction line as [|x line IH]; [reflexivity|].
  cbn [forallb] in H. apply andb_true_iff in H as [Hx H].
  cbn [app includes startsWith]. rewrite (dot_not_LF _ Hx). cbn [andb orb].
  now apply IH.
Qed.

Lemma block_no_blank_line (ls : list HeaderLine) :
  forallb wellFormedLine ls = true ->
  includes [LF; LF] (renderBlock ls ++ [LF]) = false.
Proof.
  induction ls as [|l ls IH]; [reflexivity|]. intros Hwf.
  cbn [forallb] in Hwf. apply andb_true_iff in Hwf as [Hl Hls].
  pose proof (renderLine_dot l Hl) as Hd.
  destruct ls as [|l' ls].
  - unfold renderBlock. cbn [List.map join].
    rewrite (includes_line_skip [] _ _ Hd). reflexivity.
  - unfold renderBlock. rewrite List.map_cons, join_cons by easy.
    fold (renderBlock (l' :: ls)). rewrite <- !app_assoc.
    rewrite (includes_line_skip [] _ _ Hd).
    pose proof Hls as Hls'. cbn [forallb] in Hls'.
    apply andb_true_iff in Hls' as [Hl' _].
    destruct (renderBlock_head l' ls Hl') as (y & t & E & Hy).
    specialize (IH Hls). rewrite E in *. cbn [app] in *.
    change (includes [LF; LF] (LF :: y :: t ++ [LF]))
      with (startsWith [LF; LF] (LF :: y :: t ++ [LF])
            || includes [LF; LF] (y :: t ++ [LF])).
    rewrite IH, orb_false_r. cbn [startsWith].
    rewrite (dot_not_LF _ Hy). cbn [andb]. apply andb_false_r.
Qed.

Section GeneratorProperties.

Variable Random : Type.
Variable random : nat -> Random.
Variable floorTimes : Random -> nat -> nat.
Variable now : jsstring.

Hypothesis floor_range :
  forall r n, (0 < n)%nat -> (floorTimes r n < n)%nat.

Local Abbreviation pick := (TestDataGenerator.pick Random random floorTimes).
Local Abbreviation generateTestEmail :=
  (TestDataGenerator.generateTestEmail Random random floorTimes now).
Local Abbreviation generateEmailBody :=
  (TestDataGenerator.generateEmailBody Random random floorTimes).

Lemma pick_in (table : list jsstring) n :
  table <> [] ->
  exists x, pick table n = (Ok (Some x), S n) /\ x ∈ table.
Proof.
  intros Ht.
  destruct (lookup_lt_is_Some_2 table
              (floorTimes (random n) (length table))) as [x Hx].
  { apply floor_range. destruct table; [easy|cbn [length]; lia]. }
  exists x. split.
  - unfold TestDataGenerator.pick, bind, TestDataGenerator.mathRandom, ret.
    now rewrite Hx.
  - eapply list_elem_of_lookup_2. exact Hx.
Qed.

Lemma generateEmailBody_eq t p details n :
  exists i n', (i < 5)%nat /\
    generateEmailBody t p details n = (Ok (bodyOf t p details i), n').
Proof.
  destruct t.
  1-3,5: exists O, n; split; [lia|reflexivity].
  exists (floorTimes (random n) 5), (S n). split; [apply floor_range; lia|].
  reflexivity.
Qed.

Lemma bind_ok {S A B} (m : M S A) (k : A -> M S B) s a s' :
  m s = (Ok a, s') -> bind m k s = k a s'.
Proof. intros H. unfold bind. now rewrite H. Qed.

Lemma bind_step {S A B} (m : M S A) (k : A -> M S B) s a s' r :
  m s = (Ok a, s') -> k a s' = r -> bind m k s = r.
Proof. intros H <-. now apply bind_ok. Qed.

Lemma draw_subject (options : TestDataGenerator.TestEmailData) n :
  exists subject n',
    subject ∈ subjectsOf (TestDataGenerator.type options) /\
    match TestDataGenerator.type options with
    | TestDataGenerator.unknownType => ret (Some (str "No Subject"))
    | t => pick (TestDataGenerator.SUBJECTS t)
    end n = (Ok (Some subject), n').
Proof.
  destruct (TestDataGenerator.type options).
  1-4: match goal with
       | |- context [TestDataGenerator.SUBJECTS ?t] =>
           destruct (pick_in (TestDataGenerator.SUBJECTS t) n) as (x & E & Hx);
           [easy|]; exists x, (S n); split; [exact Hx|exact E]
       end.
  exists (str "No Subject"), n. split; [apply list_elem_of_here|reflexivity].
Qed.

Lemma draw_details (options : TestDataGenerator.TestEmailData) n :
  exists details n',
    details ∈ detailsOf (TestDataGenerator.priority options) /\
    match TestDataGenerator.priority options with
    | TestDataGenerator.unknownPriority => ret (Some [])
    | p => pick (TestDataGenerator.PRIORITIES p)
    end n = (Ok (Some details), n').
Proof.
  destruct (TestDataGenerator.priority options).
  1-3: match goal with
       | |- context [TestDataGenerator.PRIORITIES ?t] =>
           destruct (pick_in (TestDataGenerator.PRIORITIES t) n) as (x & E & Hx);
           [easy|]; exists x, (S n); split; [exact Hx|exact E]
       end.
  exists [], n. split; [apply list_elem_of_here|reflexivity].
Qed.

Lemma draw_account (options : TestDataGenerator.TestEmailData) n :
  exists account n',
    account ∈ (if bool_decide (TestDataGenerator.withAccountNumber options
                               = Some true)
               then List.map Some TestDataGenerator.ACCOUNT_NUMBERS
               else [None]) /\
    match TestDataGenerator.withAccountNumber options with
    | Some true => pick TestDataGenerator.ACCOUNT_NUMBERS
    | _ => ret None
    end n = (Ok account, n').
Proof.
  destruct (TestDataGenerator.withAccountNumber options) as [[]|].
  - destruct (pick_in TestDataGenerator.ACCOUNT_NUMBERS n) as (x & E & Hx);
      [easy|]. exists (Some x), (S n). split; [|exact E].
    rewrite bool_decide_eq_true_2 by reflexivity.
    now apply list_elem_of_fmap_2.
  - exists None, n. split; [apply list_elem_of_here|reflexivity].
  - exists None, n. split; [apply list_elem_of_here|reflexivity].
Qed.

Lemma write_body (options : TestDataGenerator.TestEmailData) details
  (email : jsstring) n :
  exists i n', (i < 5)%nat /\
    match TestDataGenerator.withBody options with
    | Some false => ret email
    | _ =>
        let email := email ++ (str "Dear Support Team," ++ [LF; LF]) in
        match TestDataGenerator.type options,
              TestDataGenerator.priority options with
        | TestDataGenerator.unknownType, _
        | _, TestDataGenerator.unknownPriority => ret email
        | t, p =>
            let* body := generateEmailBody t p details in
            ret (email ++ (body ++ [LF; LF]))
        end
    end n = (Ok (email ++ greetingText (TestDataGenerator.type options)
                            (TestDataGenerator.priority options)
                            (TestDataGenerator.withBody options) details i),
             n').
Proof.
  assert (Hnone : exists i n' : nat, (i < 5)%nat /\
            ret (S := nat) (email ++ (str "Dear Support Team," ++ [LF; LF])) n
            = (Ok (email ++ str "Dear Support Team," ++ [LF; LF] ++ []), n')).
  { exists O, n. split; [lia|]. now rewrite app_nil_r. }
  assert (Hfalse : exists i n' : nat, (i < 5)%nat /\
            ret (S := nat) email n = (Ok (email ++ []), n')).
  { exists O, n. split; [lia|]. now rewrite app_nil_r. }
  destruct (TestDataGenerator.withBody options) as [[]|]; [|exact Hfalse|];
    (destruct (TestDataGenerator.type options),
       (TestDataGenerator.priority options); try exact Hnone;
     cbv beta zeta;
     match goal with
     | |- context [generateEmailBody ?t ?p] =>
         destruct (generateEmailBody_eq t p details n) as (i & n' & Hi & E);
         exists i, n'; split; [exact Hi|];
         cbn zeta; rewrite (bind_ok _ _ _ _ _ E); unfold ret, greetingText;
         now rewrite <- !app_assoc
     end).
Qed.

Lemma write_stock (email : jsstring) :
  foldl (fun email attachment =>
           email ++ TestDataGenerator.stockText attachment)
        email TestDataGenerator.ATTACHMENTS
  = email ++ List.concat
      (List.map attachmentText
         (List.map (fun a => {| at_filename := TestDataGenerator.sa_name a;
                                at_content := TestDataGenerator.sa_content a;
                                at_contentType := TestDataGenerator.sa_type a |})
                   TestDataGenerator.ATTACHMENTS)).
Proof.
  cbn [foldl TestDataGenerator.ATTACHMENTS]. rewrite <- !app_assoc.
  f_equal.
Qed.

Lemma write_provided (atts : list Attachment) (email : jsstring) :
  foldl (fun email attachment => email ++ attachmentText attachment)
        email atts
  = email ++ List.concat (List.map attachmentText atts).
Proof.
  revert email. induction atts as [|a atts IH]; intros email.
  - cbn. now rewrite app_nil_r.
  - cbn [foldl List.map List.concat]. rewrite IH. now rewrite <- app_assoc.
Qed.

Lemma generateTestEmail_shape (options : TestDataGenerator.TestEmailData) n :
  exists subject details i account n',
    subject ∈ subjectsOf (TestDataGenerator.type options)
    /\ details ∈ detailsOf (TestDataGenerator.priority options)
    /\ (i < 5)%nat
    /\ account ∈ (if bool_decide (TestDataGenerator.withAccountNumber options
                                   = Some true)
                  then List.map Some TestDataGenerator.ACCOUNT_NUMBERS
                  else [None])
    /\ generateTestEmail options n =
       (Ok (renderBlock (generatedHeader subject now) ++ [LF; LF]
            ++ writtenText (TestDataGenerator.type options)
                 (TestDataGenerator.priority options)
                 (TestDataGenerator.withBody options) details i account
            ++ List.concat (List.map attachmentText
                              (writtenAttachments options))), n').
Proof.
  destruct (draw_subject options n) as (subject & n1 & Hs & E1).
  destruct (draw_details options n1) as (details & n2 & Hd & E2).
  destruct (draw_account options n2) as (account & n3 & Ha & E3).
  destruct (write_body options details
              ((((str "Subject: " ++ subject ++ [LF])
                 ++ (str "From: test@example.com" ++ [LF]))
                ++ (str "To: support@company.com" ++ [LF]))
               ++ (str "Date: " ++ now ++ [LF; LF])) n3)
    as (i & n4 & Hi & E4).
  exists subject, details, i, account, n4.
  repeat (split; [assumption|]).
  unfold TestDataGenerator.generateTestEmail.
  refine (bind_step _ _ _ _ _ _ E1 _).
  refine (bind_step _ _ _ _ _ _ E2 _).
  refine (bind_step _ _ _ _ _ _ E3 _).
  refine (bind_step _ _ _ _ _ _ E4 _).
  unfold ret. f_equal. f_equal. clear.
  unfold writtenText, accountLine, writtenAttachments.
  generalize (greetingText (TestDataGenerator.type options)
                (TestDataGenerator.priority options)
                (TestDataGenerator.withBody options) details i) as greeting.
  intros greeting.
  destruct (TestDataGenerator.attachments options) as [provided|];
    [rewrite write_provided
    |destruct (TestDataGenerator.withAttachments options) as [[]|];
     [rewrite write_stock| |]];
    destruct account as [[|c s]|];
    unfold renderBlock, generatedHeader, renderLine;
    cbn [List.map join hl_key hl_gap hl_value List.concat];
    rewrite <- ?app_assoc, ?app_nil_r; cbn [app]; rewrite <- ?app_assoc;
    reflexivity.
Qed.

End GeneratorProperties.

(** *** The texts written *)

Lemma bodyOf_context t p details i :
  (i < 5)%nat ->
  exists j, j ∈ contextsOf t /\ bodyOf t p details i = bodyOf t p details j.
Proof.
  intros Hi. destruct t.
  1-3,5: exists O; split; [apply list_elem_of_here|reflexivity].
  exists i. split; [|reflexivity]. unfold contextsOf.
  apply list_elem_of_In, in_seq. lia.
Qed.

Lemma forallb_elem {A} (f : A -> bool) (l : list A) x :
  forallb f l = true -> x ∈ l -> f x = true.
Proof. intros H Hx. apply (proj1 (forallb_forall f l) H), list_elem_of_In, Hx. Qed.

Lemma text_read_back t p (withBody : option bool) details i account :
  details ∈ detailsOf p -> (i < 5)%nat ->
  account ∈ None :: List.map Some TestDataGenerator.ACCOUNT_NUMBERS ->
  textReadBack withBody account
    (writtenText t p withBody details i account) = true.
Proof.
  intros Hd Hi Ha.
  destruct (bodyOf_context t p details i Hi) as (j & Hj & E).
  assert (Ew : writtenText t p withBody details i account
               = writtenText t p withBody details j account).
  { unfold writtenText, greetingText. now rewrite E. }
  rewrite Ew. clear Ew E Hi i.
  pose proof all_texts_read_back as H.
  apply (forallb_elem _ _ t) in H; [|destruct t; in_list].
  apply (forallb_elem _ _ p) in H; [|destruct p; in_list].
  apply (forallb_elem _ _ withBody) in H;
    [|destruct withBody as [[]|]; in_list].
  apply (forallb_elem _ _ details) in H; [|exact Hd].
  apply (forallb_elem _ _ j) in H; [|exact Hj].
  apply (forallb_elem _ _ account) in H; [|exact Ha].
  exact H.
Qed.

Lemma trim_trimmedRev (s : jsstring) : trim s = rev (trimmedRev s).
Proof. unfold trim, trimEnd, trimmedRev. now rewrite rev_append_rev, app_nil_r. Qed.

Lemma nonEmpty_Some (s t : jsstring) :
  s <> [] -> nonEmpty (s ++ t) = Some (s ++ t).
Proof. now destruct s. Qed.

(** A subject of the tables is a header value. *)
Lemma subject_dateText t s : s ∈ subjectsOf t -> dateText s = true.
Proof.
  intros H. apply (forallb_elem dateText (subjectsOf t)); [|exact H].
  now destruct t.
Qed.

Lemma generatedHeader_wellFormed (subject now : jsstring) :
  dateText subject = true -> dateText now = true ->
  forallb wellFormedLine (generatedHeader subject now) = true.
Proof.
  intros Hs Hn. destruct subject as [|c s]; [discriminate|].
  destruct now as [|d n]; [discriminate|]. unfold dateText in Hs, Hn.
  apply andb_true_iff in Hs as [Hs1 Hs2]. apply andb_true_iff in Hn as [Hn1 Hn2].
  unfold generatedHeader, wellFormedLine.
  cbn [forallb hl_key hl_gap hl_value] in *.
  rewrite Hs1, Hs2, Hn1, Hn2. reflexivity.
Qed.

Lemma parseHeaders_generated (subject now : jsstring) :
  dateText subject = true -> dateText now = true ->
  parseHeaders (renderBlock (generatedHeader subject now))
  = {| hdr_subject := subject;
       hdr_from := Some (str "test@example.com");
       hdr_to := Some (str "support@company.com");
       hdr_date := Some now |}.
Proof.
  intros Hs Hn. pose proof (generatedHeader_wellFormed _ _ Hs Hn) as Hwf.
  unfold parseHeaders. rewrite matchAll_header_block by exact Hwf.
  rewrite foldl_setHeader_block by exact Hwf. reflexivity.
Qed.

Lemma stock_parseable (options : TestDataGenerator.TestEmailData) :
  forallb parseable (default [] (TestDataGenerator.attachments options))
  = true ->
  forallb parseable (writtenAttachments options) = true.
Proof.
  unfold writtenAttachments.
  destruct (TestDataGenerator.attachments options); [easy|]. intros _.
  destruct (TestDataGenerator.withAttachments options) as [[]|];
    vm_compute; reflexivity.
Qed.

Section GeneratedEmails.

Variable Random : Type.
Variable random : nat -> Random.
Variable floorTimes : Random -> nat -> nat.
Variable now : jsstring.
Variable decode : jsstring -> Result jsstring.

(** X21. Generated emails are parsed back.  With [Math.floor(r * n)] below
    [n] for the results [r] of [Math.random()] and a time stamp on one
    line, [generateTestEmail] returns for every option record whose
    provided attachments can be read back, and [parseEmail] reads from
    the email: the subject written, which is one of the subjects of the
    type ([No Subject] for the type unknown); the fixed sender and
    recipient and the time stamp; the attachments written, provided or
    stock, in order, as the decoder returns them.  The body starts with
    the greeting unless [withBody] is false, ends with the account line
    of one of the account numbers when [withAccountNumber] is set, and
    is missing when neither is written. *)
Theorem X21_generated_email_is_parsed_back
  (options : TestDataGenerator.TestEmailData) (n : nat) :
  (forall r k, (0 < k)%nat -> (floorTimes r k < k)%nat) ->
  dateText now = true ->
  forallb parseable (default [] (TestDataGenerator.attachments options))
  = true ->
  exists email n' subject,
    TestDataGenerator.generateTestEmail Random random floorTimes now options n
    = (Ok email, n')
    /\ subject ∈ subjectsOf (TestDataGenerator.type options)
    /\ headers (parseEmail decode email)
       = {| hdr_subject := subject;
            hdr_from := Some (str "test@example.com");
            hdr_to := Some (str "support@company.com");
            hdr_date := Some now |}
    /\ attachments (parseEmail decode email)
       = omap (decoded decode) (writtenAttachments options)
    /\ (TestDataGenerator.withBody options <> Some false ->
        exists rest,
          body (parseEmail decode email)
          = Some (str "Dear Support Team," ++ rest))
    /\ (TestDataGenerator.withAccountNumber options = Some true ->
        exists text account,
          account ∈ TestDataGenerator.ACCOUNT_NUMBERS
          /\ body (parseEmail decode email)
             = Some (text ++ str "Account Number: " ++ account))
    /\ (TestDataGenerator.withBody options = Some false ->
        TestDataGenerator.withAccountNumber options <> Some true ->
        body (parseEmail decode email) = None).
Proof.
  intros Hfloor Hnow Hatts.
  destruct (generateTestEmail_shape Random random floorTimes now Hfloor
              options n)
    as (subject & details & i & account & n' & Hs & Hd & Hi & Ha & E).
  eexists _, n', subject. split; [exact E|]. split; [exact Hs|].
  pose proof (subject_dateText _ _ Hs) as Hsub.
  assert (Ha' : account ∈ None :: List.map Some TestDataGenerator.ACCOUNT_NUMBERS).
  { destruct (bool_decide _) in Ha.
    - now apply list_elem_of_further.
    - apply list_elem_of_singleton in Ha as ->. apply list_elem_of_here. }
  pose proof (text_read_back (TestDataGenerator.type options)
                (TestDataGenerator.priority options)
                (TestDataGenerator.withBody options) details i account
                Hd Hi Ha') as Ht.
  set (text := writtenText _ _ _ _ _ _) in *.
  unfold textReadBack in Ht.
  apply andb_true_iff in Ht as [Ht Hacc].
  apply andb_true_iff in Ht as [Hmark Hgreet].
  apply negb_true_iff in Hmark.
  rewrite parse_written_email;
    [|apply block_no_blank_line, generatedHeader_wellFormed; assumption
     |exact Hmark|now apply stock_parseable].
  cbn [headers body attachments].
  split; [now apply parseHeaders_generated|]. split; [reflexivity|].
  rewrite trim_trimmedRev. rewrite rev_append_rev, app_nil_r in Hgreet.
  split; [|split].
  - intros Hwb.
    assert (Hg : startsWith (str "Dear Support Team,") (rev (trimmedRev text))
                 = true).
    { destruct (TestDataGenerator.withBody options) as [[]|]; easy. }
    apply startsWith_iff in Hg as [rest Hg]. exists rest. rewrite Hg.
    reflexivity.
  - intros Hwa. rewrite Hwa in Ha.
    rewrite bool_decide_eq_true_2 in Ha by reflexivity.
    apply list_elem_of_fmap in Ha as (acc & -> & Hin).
    rewrite rev_append_rev, app_nil_r in Hacc.
    apply startsWith_iff in Hacc as [r Hr].
    exists (rev r), acc. split; [exact Hin|].
    rewrite Hr, rev_app_distr, rev_involutive.
    destruct (rev r); reflexivity.
  - intros Hwb Hwa. rewrite Hwb in Hacc.
    destruct (bool_decide_reflect
                (TestDataGenerator.withAccountNumber options = Some true))
      as [Hy|_]; [easy|].
    apply list_elem_of_singleton in Ha as ->.
    apply eqb_eq in Hacc. now rewrite Hacc.
Qed.

End GeneratedEmails.

(** ** The further theorems at the example inputs *)

Lemma X1_witness :
  exists calls,
    trace (snd (handleSingleEmailAnalysis (stubEnv crashOnly jiraWorks)
                  exampleHandler crashEmail exampleState))
    = trace exampleState ++ ChatOpen crashEmail :: calls
    /\ (Jira, createJiraTicket bugAnalysis (Some (str "bug")))
       ∈ submissions calls
    /\ heap (snd (handleSingleEmailAnalysis (stubEnv crashOnly jiraWorks)
                    exampleHandler crashEmail exampleState))
       = heap exampleState.
Proof.
  destruct (X1_ticket_only_for_complete_analysis (stubEnv crashOnly jiraWorks)
              exampleHandler crashEmail exampleState)
    as (calls & Ht & _ & Hs).
  exists calls. split; [exact Ht|].
  assert ((Jira, createJiraTicket bugAnalysis (Some (str "bug")))
          ∈ submissions calls) as Hin.
  { vm_compute in Ht. inversion Ht; subst calls. apply list_elem_of_here. }
  split; [exact Hin|]. exact (proj1 (proj2 (Hs _ _ Hin))).
Defined.

Lemma X2_witness :
  (exists s type log,
      classifyTicketType bugAnalysis = Ok (systemPrefix s ++ type)
      /\ type ∈ match s with
                | Jira => jiraTypes
                | ServiceNow => serviceNowTypes
                end
      /\ handleSingleEmailAnalysis (stubEnv crashOnly jiraWorks)
           exampleHandler crashEmail exampleState
         = (Ok log,
            called (submitCall s (createJiraTicket bugAnalysis (Some type)))
                   (called (ChatOpen crashEmail) exampleState))
      /\ createJiraTicket bugAnalysis (Some type)
         = createServiceNowTicket bugAnalysis (Some type))
  /\ (exists callee,
        classifyTicketType numericAnalysis = Throw (notAFunction callee)
        /\ handleSingleEmailAnalysis (stubEnv numericReply jiraWorks)
             exampleHandler crashEmail exampleState
           = (Throw (notAFunction callee),
              called (ChatOpen crashEmail) exampleState)).
Proof.
  split.
  - apply (proj1 (X2_complete_analysis_is_routed (stubEnv crashOnly jiraWorks)
                    exampleHandler crashEmail exampleState (Some bugJson)
                    bugAnalysis eq_refl eq_refl eq_refl)).
    reflexivity.
  - apply (proj2 (X2_complete_analysis_is_routed
                    (stubEnv numericReply jiraWorks)
                    exampleHandler crashEmail exampleState (Some numericJson)
                    numericAnalysis eq_refl eq_refl eq_refl)).
    reflexivity.
Defined.

Lemma X3_witness :
  fst (handleSingleEmailAnalysis (stubEnv crashOnly jiraWorks) exampleHandler
         crashEmail exampleState)
  = Ok (join [LF]
          (validatedLines bugAnalysis Jira (str "bug")
           ++ [createdLine Jira;
               detailsLine Jira (str "bug") bugAnalysis
                           (ticketId (Str (str "PROJ-123")))]))
  /\ ticketId (Str (str "PROJ-123")) = str "PROJ-123".
Proof.
  pose proof (X3_created_ticket_log (stubEnv crashOnly jiraWorks) exampleHandler
                crashEmail exampleState (Some bugJson) bugAnalysis Jira
                (str "bug") (Str (str "PROJ-123"))
                eq_refl eq_refl eq_refl eq_refl eq_refl) as (Hlog & Hid & _).
  split; [exact Hlog|]. apply Hid. reflexivity.
Defined.

Lemma X4_witness :
  validateRequiredFields blankAnalysis <> []
  /\ exists log st',
       handleSingleEmailAnalysis lenientEnv exampleHandler helloEmail
                                 exampleState = (Ok log, st')
       /\ readArray (heap st') (humanReviewQueue exampleHandler)
          = readArray (heap exampleState) (humanReviewQueue exampleHandler)
            ++ [{| reason := str "Missing required fields";
                   emailContent := helloEmail;
                   missingFields := validateRequiredFields blankAnalysis;
                   partialAnalysis := Some blankAnalysis |}]
       /\ trace st' = trace exampleState ++ [ChatOpen helloEmail].
Proof.
  split; [discriminate|].
  destruct (proj2 (X4_incomplete_analysis_is_queued lenientEnv exampleHandler
                     helloEmail exampleState (Some (str "{ }")) eq_refl)
                  blankAnalysis eq_refl ltac:(discriminate))
    as (log & st' & H1 & H2 & H3 & _).
  exists log, st'. auto.
Defined.

Lemma X5_witness :
  handleChatCommand lenientEnv exampleHandler
    {| command := str "/help"; participants := []; prompt := None |}
    exampleState
  = (Ok (str "Unknown command. Available commands: /start"), exampleState)
  /\ handleChatCommand lenientEnv exampleHandler
       {| command := str "/start"; participants := []; prompt := None |}
       exampleState
     = handleBulkAnalysis lenientEnv exampleHandler [crashFile; helloFile]
         (called FindFiles exampleState)
  /\ handleChatCommand noLoggerEnv exampleHandler
       {| command := str "/help"; participants := []; prompt := None |}
       exampleState
     = (Throw (ErrorObj (str "Cannot read properties of undefined (reading 'appendLine')")),
        exampleState).
Proof.
  pose proof (X5_chat_command_guards lenientEnv exampleHandler
                {| command := str "/help"; participants := [];
                   prompt := None |} exampleState) as (_ & H1 & _).
  pose proof (X5_chat_command_guards lenientEnv exampleHandler
                {| command := str "/start"; participants := [];
                   prompt := None |} exampleState) as (_ & _ & _ & _ & H4).
  pose proof (X5_chat_command_guards noLoggerEnv exampleHandler
                {| command := str "/help"; participants := [];
                   prompt := None |} exampleState) as (H0 & _).
  split; [|split].
  - apply H1; [reflexivity|discriminate].
  - apply (H4 helloEmail [crashFile; helloFile]); reflexivity.
  - apply H0. reflexivity.
Defined.

Lemma lenientEnv_reliable : reliable lenientEnv.
Proof.
  split; [|split; [|split]]; intros; try (eexists; reflexivity).
  cbn in H. now injection H as <-.
Qed.

Lemma X6_witness :
  reliable lenientEnv
  /\ exists log st' lines entries,
       handleBulkAnalysis lenientEnv exampleHandler [crashFile; helloFile]
                          exampleState = (Ok log, st')
       /\ log = join [LF] (lines ++ [bulkSummary 2 entries])
       /\ List.map be_file entries = List.map fsPath [crashFile; helloFile]
       /\ (length (List.filter createdSuccessfully entries)
           + length (List.filter (fun r => negb (createdSuccessfully r))
                                 entries) = 2)%nat.
Proof.
  split; [exact lenientEnv_reliable|].
  exact (X6_bulk_summary_covers_all_files lenientEnv exampleHandler
           [crashFile; helloFile] exampleState lenientEnv_reliable).
Defined.

Lemma X7_witness :
  forallb wellFormedLine exampleLines = true
  /\ headers (parseEmail fromBase64
                (renderBlock exampleLines ++ [LF; LF] ++ str "body"))
     = {| hdr_subject := str "Hi  "; hdr_from := Some (str "a@b.com");
          hdr_to := None; hdr_date := None |}.
Proof.
  split; [reflexivity|].
  exact (X7_header_fields_of_header_block fromBase64 exampleLines
           ([LF; LF] ++ str "body") eq_refl (or_intror eq_refl)).
Defined.

Lemma X8_witness :
  parseEmail fromBase64
    (str "Subject: Logs" ++ [LF] ++ blockText pdfAttachment)
  = {| headers := parseHeaders (str "Subject: Logs" ++ [LF]
                                ++ blockText pdfAttachment);
       body := None; attachments := [] |}.
Proof.
  apply X8_email_without_blank_line. vm_compute. reflexivity.
Defined.

Lemma X9_witness :
  parseEmail fromBase64
    (str "Subject: Logs" ++ [LF; LF] ++ str "See the files."
     ++ List.concat (List.map attachmentText [badAttachment; pdfAttachment]))
  = {| headers := parseHeaders (str "Subject: Logs");
       body := Some (str "See the files.");
       attachments :=
         [ makeAttachment (str "a.bin") (str "application/octet-stream") [];
           makeAttachment (str "b.pdf") (str "application/pdf")
                          (str "ABC") ] |}.
Proof.
  exact (X9_written_attachments_are_read_back fromBase64 (str "Subject: Logs")
           (str "See the files.") [badAttachment; pdfAttachment]
           eq_refl eq_refl eq_refl).
Defined.

Lemma X10_witness :
  EmailAnalyzer.analyzeEmail silentChat parseJson crashEmail exampleState
  = (Throw (ErrorObj (str "Invalid response from chat model")),
     called (ChatOpen (EmailAnalyzer.analysisPrompt crashEmail)) exampleState).
Proof.
  apply (proj1 (X10_analyzeEmail_failures silentChat parseJson noStringify)
               crashEmail exampleState VNull eq_refl).
  discriminate.
Defined.

Lemma X11_witness :
  fst (EmailAnalyzer.analyzeEmail fencedChat parseJson crashEmail exampleState)
  = Ok (JObject bugAnalysis).
Proof.
  exact (proj1 (X11_fenced_json_is_parsed fencedChat parseJson noStringify
                  (str "Here is the analysis:" ++ [LF]) bugJson
                  ([LF] ++ str "Anything else?") eq_refl eq_refl)
               crashEmail exampleState eq_refl).
Defined.

Lemma X12_witness :
  fst (EmailAnalyzer.analyzeEmail bracesChat parseJson crashEmail exampleState)
  = Ok (JObject bugAnalysis).
Proof.
  assert (125 ∉ str " (done)") as Hpost.
  { rewrite !elem_of_cons, elem_of_nil.
    intros H; repeat (destruct H as [H|H]; [discriminate H|]); exact H. }
  assert (123 ∉ str "Result: ") as Hpre.
  { rewrite !elem_of_cons, elem_of_nil.
    intros H; repeat (destruct H as [H|H]; [discriminate H|]); exact H. }
  exact (proj1 (X12_braces_delimit_json bracesChat parseJson noStringify
                  (str "Result: ")
                  (jsonPair (str "requestType") (str "Bug Report")
                   ++ str "," ++ jsonPair (str "priority") (str "high")
                   ++ str "," ++ jsonPair (str "accountNumber") (str "ACC123456")
                   ++ str "," ++ jsonPair (str "subject")
                                          (str "Bug Report: Crash")
                   ++ str "," ++ jsonPair (str "content")
                                          (str "App crashes on launch."))
                  (str " (done)") eq_refl Hpre Hpost)
               crashEmail exampleState eq_refl).
Defined.

Lemma X13_witness :
  fst (EmailAnalyzer.analyzeEmail fencedChat parseJson helloEmail exampleState)
  = Throw (ErrorObj (str "No JSON found in response")).
Proof.
  assert (123 ∉ str "I cannot analyze this email.") as Hb.
  { rewrite !elem_of_cons, elem_of_nil.
    intros H; repeat (destruct H as [H|H]; [discriminate H|]); exact H. }
  exact (proj1 (X13_response_without_json fencedChat parseJson noStringify
                  (str "I cannot analyze this email.")
                  ltac:(discriminate) eq_refl (or_introl Hb))
               helloEmail exampleState eq_refl).
Defined.

Lemma X14_witness :
  Extension.analyzeCommand noEditorEnv fencedChat parseJson noStringify
    toLowerCase fromBase64 exampleHost
  = (Ok tt,
     {| shared := exampleState;
        window := [ShowErrorMessage
                     (str "Please open an email file first.")] |}).
Proof.
  exact (proj1 (proj2 (X14_analyze_command_needs_subject noEditorEnv fencedChat
                         parseJson noStringify toLowerCase fromBase64
                         exampleHost)) eq_refl).
Defined.

Lemma X15_witness :
  (exists shown page,
      Extension.analyzeCommand crashEnv fullChat parseFull noStringify
        toLowerCase fromBase64 exampleHost
      = (Ok tt,
         {| shared := called (ChatOpen (Extension.analysisPrompt noStringify
                                          (parseEmail fromBase64 crashEmail)))
                             exampleState;
            window := shown |})
      /\ shown = [CreateWebviewPanel; SetWebviewHtml page]
      /\ includes (strq "<span class=~priority-high~>High</span>") page = true)
  /\ (exists shown,
        Extension.analyzeCommand crashEnv fencedChat parseJson noStringify
          toLowerCase fromBase64 exampleHost
        = (Ok tt,
           {| shared := called (ChatOpen (Extension.analysisPrompt noStringify
                                            (parseEmail fromBase64 crashEmail)))
                               exampleState;
              window := shown |})
        /\ shown = [CreateWebviewPanel;
                    ShowErrorMessage
                      (str "Error analyzing email: Cannot read properties of undefined (reading 'map')")]).
Proof.
  split.
  - destruct (proj1 (X15_analyze_command_outcomes crashEnv fullChat parseFull
                       noStringify toLowerCase fromBase64 exampleHost
                       crashEmail eq_refl ltac:(vm_compute; discriminate)))
      as (shown & Hrun & Hshown).
    exists shown. eexists. split; [exact Hrun|].
    vm_compute in Hshown. split; [exact Hshown|]. vm_compute. reflexivity.
  - destruct (proj1 (X15_analyze_command_outcomes crashEnv fencedChat parseJson
                       noStringify toLowerCase fromBase64 exampleHost
                       crashEmail eq_refl ltac:(vm_compute; discriminate)))
      as (shown & Hrun & Hshown).
    exists shown. split; [exact Hrun|]. vm_compute in Hshown. exact Hshown.
Defined.


Lemma X17_witness :
  Extension.chatCommand crashEnv exampleHandler
    (Some {| rq_arguments := Some [str "/start"]; rq_participants := None;
             rq_prompt := None |}) exampleHost
  = (Ok (str "Invalid chat request"), exampleHost)
  /\ Extension.chatCommand crashEnv exampleHandler
       (Some {| rq_arguments := Some [str "/help"]; rq_participants := None;
                rq_prompt := Some (str "hello") |}) exampleHost
     = (Ok (str "Unknown command. Available commands: /start"), exampleHost)
  /\ Extension.chatCommand noLoggerEnv exampleHandler
       (Some {| rq_arguments := Some [str "/help"]; rq_participants := None;
                rq_prompt := Some (str "hello") |}) exampleHost
     = (Throw (ErrorObj (str "Cannot read properties of undefined (reading 'appendLine')")),
        exampleHost).
Proof.
  split; [|split].
  - apply (proj1 (X17_chat_entry_points crashEnv exampleHandler exampleHost)).
    right. eexists. split; [reflexivity|]. left. reflexivity.
  - apply (proj2 (proj1 (proj2 (proj2
             (X17_chat_entry_points crashEnv exampleHandler exampleHost)))
             {| rq_arguments := Some [str "/help"]; rq_participants := None;
                rq_prompt := Some (str "hello") |} _ _ eq_refl)).
    intros tail. discriminate.
  - apply (proj1 (proj2 (proj2
             (X17_chat_entry_points noLoggerEnv exampleHandler exampleHost)))
             {| rq_arguments := Some [str "/help"]; rq_participants := None;
                rq_prompt := Some (str "hello") |} _ _ eq_refl).
Defined.

Lemma loggingWorld_mirrored :
  mirrored loggingWorld 0 (str "Email Analyzer")
    (str "/ext/email-analyzer.log")
    [str "[2025-08-10T10:00:00.000Z] [INFO] Logger initialized"] 0.
Proof. repeat split. Qed.

Lemma X18_witness :
  exists w',
    logCall stillClock writable
      (LogError (str "boom")
                (Some {| err_message := str "bad"; err_stack := None |}))
      loggingWorld = (Ok tt, w')
    /\ mirrored w' 0 (str "Email Analyzer") (str "/ext/email-analyzer.log")
         [ str "[2025-08-10T10:00:00.000Z] [INFO] Logger initialized";
           str "[2025-08-10T10:00:00.000Z] [ERROR] boom";
           str "[2025-08-10T10:00:00.000Z] [ERROR] bad" ] 2.
Proof.
  exact (proj1 (proj2 (X18_log_file_mirrors_channel stillClock slashJoin writable))
               loggingWorld 0%nat (str "Email Analyzer")
               (str "/ext/email-analyzer.log") _ 0%nat
               (LogError (str "boom")
                         (Some {| err_message := str "bad";
                                  err_stack := None |}))
               loggingWorld_mirrored eq_refl).
Defined.

Lemma X19_witness :
  Logger.showOutputChannel freshWorld
  = (Throw (ErrorObj
              (str "Cannot read properties of undefined (reading 'show')")),
     freshWorld).
Proof.
  exact (proj1 (proj2 (X19_logger_needs_initialize stillClock writable freshWorld
                         eq_refl))).
Defined.

Lemma X20_witness :
  exists w',
    logCall stillClock readOnly (LogInfo (str "hello")) loggingWorld
    = (Throw (ErrorObj (str "EACCES: permission denied")), w')
    /\ channels w' !! 0%nat
       = Some {| ch_name := str "Email Analyzer";
                 ch_lines :=
                   [ str "[2025-08-10T10:00:00.000Z] [INFO] Logger initialized";
                     str "[2025-08-10T10:00:00.000Z] [INFO] hello" ];
                 ch_shown := 0 |}
    /\ files w' = files loggingWorld.
Proof.
  exact (X20_log_write_failure stillClock readOnly loggingWorld 0%nat
           (str "Email Analyzer") (str "/ext/email-analyzer.log") _ 0%nat
           (LogInfo (str "hello")) (ErrorObj (str "EACCES: permission denied"))
           loggingWorld_mirrored eq_refl).
Defined.

Lemma floorOfDraw_range (r k : nat) :
  (0 < k)%nat -> (floorOfDraw r k < k)%nat.
Proof. intros H. apply Nat.mod_upper_bound. lia. Qed.

Lemma X21_witness :
  exists email n' subject,
    TestDataGenerator.generateTestEmail nat drawInTurn floorOfDraw exampleNow
      bugOptions O
    = (Ok email, n')
    /\ subject ∈ subjectsOf TestDataGenerator.bug
    /\ headers (parseEmail fromBase64 email)
       = {| hdr_subject := subject;
            hdr_from := Some (str "test@example.com");
            hdr_to := Some (str "support@company.com");
            hdr_date := Some exampleNow |}
    /\ attachments (parseEmail fromBase64 email)
       = omap (decoded fromBase64) (writtenAttachments bugOptions)
    /\ (TestDataGenerator.withBody bugOptions <> Some false ->
        exists rest,
          body (parseEmail fromBase64 email)
          = Some (str "Dear Support Team," ++ rest))
    /\ (TestDataGenerator.withAccountNumber bugOptions = Some true ->
        exists text account,
          account ∈ TestDataGenerator.ACCOUNT_NUMBERS
          /\ body (parseEmail fromBase64 email)
             = Some (text ++ str "Account Number: " ++ account))
    /\ (TestDataGenerator.withBody bugOptions = Some false ->
        TestDataGenerator.withAccountNumber bugOptions <> Some true ->
        body (parseEmail fromBase64 email) = None).
Proof.
  exact (X21_generated_email_is_parsed_back nat drawInTurn floorOfDraw
           exampleNow fromBase64 bugOptions O floorOfDraw_range
           eq_refl eq_refl).
Defined.
